(** * HyDRA: the dashboard client and the thermodynamic engine it displays

    A shallow embedding of the React front end of HyDRA
    ([frontend/src/api.js] and the components under
    [frontend/src/components]) together with the Langmuir / T50 engine that
    the specification describes, and the properties of both.

    Conventions.
    - A JavaScript async function or handler is a computation [Prog]: it
      reads the network, threads a state (the browser's [localStorage]
      and the trace of requests handed to [fetch]; for a handler also the
      React state its [setX] calls write) and completes or throws.
    - A promise that is only joined or guarded is identified with what it
      settles to.
    - JSON data is an ordered tree [value]; objects keep their key order,
      which is the order [Object.keys] enumerates.  Objects that are only
      ever read by key are finite maps.
    - Strings are sequences of code units below 256.
    - Numbers shown by the dashboard are exact rationals ([Q]) or [NaN];
      the engine's quantities are real numbers ([R]). *)

From Stdlib Require Import Reals Lra Lia QArith ZArith String List Bool Ascii.
From Stdlib Require Import Qminmax Qabs Qround Ranalysis Rtopology Ranalysis5 Sorted.
From Stdlib Require Import SetoidList ClassicalDedekindReals.
From stdpp Require Import base option list gmap strings pretty.
From Equations Require Import Equations.

Set Warnings "-register-all".

(** * Part I: the embedding *)

(** ** JavaScript values *)

Module Js.

(** A JavaScript number as the dashboard meets it: [NaN] or a finite value.
    JSON has no literal for the infinities, so they are not represented. *)
Inductive number : Type :=
| NaN
| Fin (q : Q).

(** Values that cross the HTTP boundary ([res.json()]) or are passed to
    handlers.  [VUndefined] is what reading an absent property yields.
    The fields of an object are in enumeration order; an object has each
    key once, and where a list repeats one the first binding stands. *)
Inductive value : Type :=
| VUndefined
| VNull
| VBool (b : bool)
| VNum (n : number)
| VStr (s : string)
| VArr (items : list value)
| VObj (fields : list (string * value)).

(** An [Error] object; only its [message] is ever read by the client. *)
Record Error : Type := mkError { message : string }.

(** The settled state of a promise, or the completion of a block that may
    throw. *)
Inductive Outcome (A : Type) : Type :=
| Fulfilled (a : A)
| Rejected (e : Error).
Arguments Fulfilled {A} a.
Arguments Rejected {A} e.

Definition is_zero (n : number) : bool :=
  match n with
  | NaN => false
  | Fin q => Qeq_bool q 0
  end.

(** ToBoolean. *)
Definition truthy (v : value) : bool :=
  match v with
  | VUndefined | VNull => false
  | VBool b => b
  | VNum NaN => false
  | VNum (Fin q) => negb (Qeq_bool q 0)
  | VStr s => negb (String.eqb s "")
  | VArr _ | VObj _ => true
  end.

(** Truthiness of [string | null], the type of [localStorage.getItem] and
    of [Headers.get]. *)
Definition truthy_str (o : option string) : bool :=
  match o with
  | Some s => negb (String.eqb s "")
  | None => false
  end.

(** [obj[k]] on an ordered field list: the first binding of [k]. *)
Fixpoint assoc (k : string) (fields : list (string * value)) : option value :=
  match fields with
  | [] => None
  | (k', v) :: rest => if String.eqb k k' then Some v else assoc k rest
  end.

Definition keys (fields : list (string * value)) : list string :=
  map fst fields.

(** The [TypeError] raised by a property read on [null] or [undefined],
    or by calling something that is not a function, with its message.
    Engines word the message differently; the client only ever shows it. *)
Definition type_error (what : string) : Error := mkError what.

(** [v.k]: throws on [null] and [undefined], reads the field of an object,
    and yields [undefined] for a key that is absent.  Index and [length]
    reads on arrays and strings are not needed by the client's property
    reads modelled through [prop]. *)
Definition prop (v : value) (k : string) : Outcome value :=
  match v with
  | VUndefined => Rejected (type_error ("Cannot read properties of undefined (reading '" ++ k ++ "')"))
  | VNull => Rejected (type_error ("Cannot read properties of null (reading '" ++ k ++ "')"))
  | VObj fields => Fulfilled (default VUndefined (assoc k fields))
  | _ => Fulfilled VUndefined
  end.

(** [v?.[k]]: as [prop], but [undefined] instead of throwing. *)
Definition opt_prop (v : value) (k : string) : value :=
  match v with
  | VObj fields => default VUndefined (assoc k fields)
  | _ => VUndefined
  end.

(** [a ?? b]. *)
Definition nullish (a b : value) : value :=
  match a with
  | VUndefined | VNull => b
  | _ => a
  end.

(** [a || b]. *)
Definition or_else (a b : value) : value :=
  if truthy a then a else b.

(** White space recognised by [String.prototype.trim], for code units
    below 256 (strings are sequences of such code units here): TAB, LF, VT,
    FF, CR, SPACE and NO-BREAK SPACE. *)
Definition is_space (c : ascii) : bool :=
  let n := nat_of_ascii c in
  (Nat.leb 9 n && Nat.leb n 13) || Nat.eqb n 32 || Nat.eqb n 160.

Fixpoint trim_start (s : string) : string :=
  match s with
  | EmptyString => EmptyString
  | String c rest => if is_space c then trim_start rest else s
  end.

(** Drops the trailing white space: the suffix survives from the last
    character that is not white space. *)
Fixpoint trim_end (s : string) : string :=
  match s with
  | EmptyString => EmptyString
  | String c rest =>
      match trim_end rest with
      | EmptyString => if is_space c then EmptyString else String c EmptyString
      | kept => String c kept
      end
  end.

Definition trim (s : string) : string := trim_end (trim_start s).

(** [x.trim()] for an arbitrary receiver: only a string has the method. *)
Definition call_trim (x : value) : Outcome string :=
  match x with
  | VStr s => Fulfilled (trim s)
  | VUndefined | VNull =>
      Rejected (type_error "Cannot read properties of null (reading 'trim')")
  | _ => Rejected (type_error "quickQuery.trim is not a function")
  end.

(** ASCII lower-casing, the case folding a [/.../i] regular expression
    applies to an ASCII pattern. *)
Definition lower (c : ascii) : ascii :=
  let n := nat_of_ascii c in
  if Nat.leb 65 n && Nat.leb n 90 then ascii_of_nat (n + 32) else c.

Fixpoint prefix_ci (p s : string) : bool :=
  match p, s with
  | EmptyString, _ => true
  | String a p', String b s' => Ascii.eqb (lower a) (lower b) && prefix_ci p' s'
  | String _ _, EmptyString => false
  end.

(** [/p/i.test(s)] for a literal pattern [p]. *)
Fixpoint test_ci (p s : string) : bool :=
  prefix_ci p s ||
  match s with
  | EmptyString => false
  | String _ s' => test_ci p s'
  end.

(** *** Numbers

    A finite number is identified with the decimal literal that denotes it
    in the source or in the JSON text; [Math.abs], [Math.max] and the
    comparisons below are exact on doubles and monotone in that literal. *)

Definition Math_abs (n : number) : number :=
  match n with
  | NaN => NaN
  | Fin q => Fin (Qabs q)
  end.

(** [Math.max(a, b)]: [NaN] if either is. *)
Definition max2 (a b : number) : number :=
  match a, b with
  | Fin x, Fin y => Fin (Qmax x y)
  | _, _ => NaN
  end.

(** [Math.max(...xs, last)] *)
Definition Math_max (xs : list number) (last : number) : number :=
  fold_right max2 last xs.

(** [a > b] *)
Definition gt (a b : number) : bool :=
  match a, b with
  | Fin x, Fin y => negb (Qle_bool x y)
  | _, _ => false
  end.

(** [isNaN(n)] on a number. *)
Definition isNaN (n : number) : bool :=
  match n with
  | NaN => true
  | Fin _ => false
  end.

(** [n !== 0] *)
Definition not_zero (n : number) : bool := negb (is_zero n).

Fixpoint zeros (n : nat) : string :=
  match n with
  | O => EmptyString
  | S n' => String "0" (zeros n')
  end.

(** [Number.prototype.toFixed(digits)] on a finite number below 10^21 in
    magnitude (ECMA-262, 21.1.3.3): the integer [n] nearest to
    [x * 10^digits], the larger one on a tie, printed with the point
    [digits] places from the right.  At 10^21 and above JavaScript prints
    the number in exponent notation instead, which yields [None] here. *)
Definition toFixed (digits : nat) (q : Q) : option string :=
  let x := Qabs q in
  if Qle_bool (inject_Z (10 ^ 21)) x then None
  else
    let sign := if Qle_bool 0 q then EmptyString else "-"%string in
    let n := Qfloor (x * inject_Z (10 ^ Z.of_nat digits) + (1 # 2)) in
    let m := pretty (Z.to_N n) in
    let k := String.length m in
    let padded := if Nat.leb k digits then (zeros (S digits - k) ++ m)%string else m in
    let k' := String.length padded in
    Some (match digits with
          | O => sign ++ m
          | S _ => sign ++ String.substring 0 (k' - digits) padded ++ "."
                   ++ String.substring (k' - digits) digits padded
          end)%string.

(** The text of [n.toFixed(digits)] as a React child: kept with the number
    it prints. *)
Record FixedText : Type := mkFixed { fixed_digits : nat; fixed_of : Q }.

Definition text_of (t : FixedText) : option string :=
  toFixed (fixed_digits t) (fixed_of t).

(** The own enumerable properties of a value, in the order an object
    spread copies them and [Object.keys] lists them.  Arrays and strings
    contribute their indices; other primitives nothing. *)
Definition own_props (v : value) : list (string * value) :=
  match v with
  | VObj fields => fields
  | VArr items => imap (fun i x => (pretty i, x)) items
  | VStr s => imap (fun i c => (pretty i, VStr (String c EmptyString))) (list_ascii_of_string s)
  | _ => []
  end.

(** [Object.keys(v)] *)
Definition Object_keys (v : value) : list string := keys (own_props v).

(** [v[k]] where [k] is one of [Object.keys(v)]. *)
Definition index (v : value) (k : string) : value :=
  default VUndefined (assoc k (own_props v)).

(** [obj[k] = v] on an object made by a literal.  Under the key
    ["__proto__"] the assignment runs the setter of [Object.prototype]
    and gives [obj] no key of its own; [obj] keeps the keys it has. *)
Definition assign (k : string) (v : value) (obj : gmap string value) : gmap string value :=
  if String.eqb k "__proto__" then obj else <[k := v]> obj.

(** [Array.isArray(v) ? v : null] *)
Definition as_array (v : value) : option (list value) :=
  match v with
  | VArr items => Some items
  | _ => None
  end.

(** *** Completions *)

(** Carries on with the value of a normal completion. *)
Definition map_outcome {A B} (f : A -> B) (o : Outcome A) : Outcome B :=
  match o with
  | Fulfilled a => Fulfilled (f a)
  | Rejected e => Rejected e
  end.

(** [xs.map(f)] for a callback that may throw: the first throw ends it. *)
Fixpoint traverse {A B} (f : A -> Outcome B) (xs : list A) : Outcome (list B) :=
  match xs with
  | [] => Fulfilled []
  | x :: rest =>
      match f x with
      | Fulfilled y => map_outcome (cons y) (traverse f rest)
      | Rejected e => Rejected e
      end
  end.

(** *** Async functions and handlers

    A computation reads an environment [E] (the network), threads a state
    [S] (browser storage, React state) and completes normally or by a
    throw.  State written before a throw stays written. *)
Definition Prog (E S A : Type) : Type := E -> S -> Outcome A * S.

Definition ret {E S A} (a : A) : Prog E S A := fun _ s => (Fulfilled a, s).

Definition throw {E S A} (e : Error) : Prog E S A := fun _ s => (Rejected e, s).

Definition bind {E S A B} (m : Prog E S A) (k : A -> Prog E S B) : Prog E S B :=
  fun env s =>
    match m env s with
    | (Fulfilled a, s') => k a env s'
    | (Rejected e, s') => (Rejected e, s')
    end.

(** The outcome of [m] as a value, for a caller that inspects it. *)
Definition attempt {E S A} (m : Prog E S A) : Prog E S (Outcome A) :=
  fun env s => let '(o, s') := m env s in (Fulfilled o, s').

(** [try { m } catch (err) { handler err }] *)
Definition try_catch {E S A} (m : Prog E S A) (handler : Error -> Prog E S A)
  : Prog E S A :=
  fun env s =>
    match m env s with
    | (Fulfilled a, s') => (Fulfilled a, s')
    | (Rejected e, s') => handler e env s'
    end.

(** [try { m } finally { cleanup }]: [cleanup] runs either way and the
    completion of [m] stands unless [cleanup] itself throws. *)
Definition finally {E S A} (m : Prog E S A) (cleanup : Prog E S unit)
  : Prog E S A :=
  fun env s =>
    let '(o, s') := m env s in
    match cleanup env s' with
    | (Fulfilled _, s'') => (o, s'')
    | (Rejected e, s'') => (Rejected e, s'')
    end.

(** Lifts the completion of a synchronous expression. *)
Definition lift {E S A} (o : Outcome A) : Prog E S A := fun _ s => (o, s).

Definition get_state {E S} : Prog E S S := fun _ s => (Fulfilled s, s).

Definition modify {E S} (f : S -> S) : Prog E S unit :=
  fun _ s => (Fulfilled tt, f s).

(** Runs a computation on the second component of a paired state. *)
Definition on_snd {E S T A} (m : Prog E T A) : Prog E (S * T) A :=
  fun env st => let '(o, t') := m env st.2 in (o, (st.1, t')).

(** Updates the first component of a paired state. *)
Definition on_fst {E S T} (f : S -> S) : Prog E (S * T) unit :=
  modify (fun st => (f st.1, st.2)).

Declare Scope js_scope.
Delimit Scope js_scope with js.
Notation "'await' x <- m ;; k" := (bind m (fun x => k))
  (at level 10, x name, m at level 99, k at level 200) : js_scope.
Notation "'run' m ;; k" := (bind m (fun _ => k))
  (at level 10, m at level 99, k at level 200) : js_scope.

(** The combinators unfold on demand: [autounfold with prog] turns a
    computation into the function of environment and state it is. *)
Create HintDb prog discriminated.
#[export] Hint Unfold ret throw bind attempt try_catch finally lift get_state modify
  on_fst on_snd : prog.

Ltac run_prog := autounfold with prog; simpl.

End Js.

(** ** The API client, [frontend/src/api.js] *)

Module Api.
Import Js.

Definition BASE : string := "/api".
Definition SESSION_KEY : string := "hydra_session_id".
Definition SESSION_HEADER : string := "X-Session-ID".

(** A [File] picked in an [<input type="file">]. *)
Record File : Type := mkFile { file_name : string; file_content : string }.

(** The [body] of a request: [JSON.stringify(v)] or a [FormData] with the
    single field [file]. *)
Inductive Body : Type :=
| JsonBody (v : value)
| FormBody (file : File).

(** The [init] argument handed to [fetch], with the URL. *)
Record Request : Type := mkRequest {
  req_url : string;
  req_method : option string;
  req_headers : gmap string string;
  req_body : option Body;
  req_credentials : string
}.

(** The [Response] object: [res.status], [res.headers.get], [res.text()]
    and [res.json()] (which rejects on a body that is not JSON). *)
Record Response : Type := mkResponse {
  resp_status : N;
  resp_header : string -> option string;
  resp_text : string;
  resp_json : Outcome value
}.

(** [res.ok] *)
Definition resp_ok (r : Response) : bool :=
  (200 <=? resp_status r)%N && (resp_status r <=? 299)%N.

(** What [fetch] settles to: a response of any status, or a rejection
    (network failure). *)
Inductive FetchOutcome : Type :=
| Responded (r : Response)
| NetworkError (e : Error).

(** The server and the network between: the answer to a request may
    depend on every request sent before it. *)
Definition Network : Type := list Request -> Request -> FetchOutcome.

(** The browser state the client touches.  [sent] is the trace of the
    requests handed to [fetch], oldest first. *)
Record Browser : Type := mkBrowser {
  localStorage : gmap string string;
  sent : list Request
}.

(** An async function of the client. *)
Definition M (A : Type) : Type := Prog Network Browser A.

Local Open Scope js_scope.

Definition getSessionId : M (option string) :=
  fun _ b => (Fulfilled (localStorage b !! SESSION_KEY), b).

Definition setSessionId (sessionId : string) : M unit :=
  fun _ b =>
    (Fulfilled tt,
     mkBrowser (<[SESSION_KEY := sessionId]> (localStorage b)) (sent b)).

Definition fetch (req : Request) : M Response :=
  fun net b =>
    let b' := mkBrowser (localStorage b) (sent b ++ [req]) in
    match net (sent b) req with
    | Responded r => (Fulfilled r, b')
    | NetworkError e => (Rejected e, b')
    end.

(** The [options] argument of [fetchJson]; [None] is an absent key. *)
Record Options : Type := mkOptions {
  opt_method : option string;
  opt_body : option Body;
  opt_headers : option (gmap string string)
}.

Definition no_options : Options := mkOptions None None None.

(** [{ a, ...o }] on optional keys: a key present in the spread wins. *)
Definition spread_over {A} (under : A) (over : option A) : A :=
  default under over.

(** Extract and save the session id of a response. *)
Definition save_session (res : Response) : M unit :=
  let responseSessionId := resp_header res SESSION_HEADER in
  match responseSessionId with
  | Some sid => if truthy_str responseSessionId then setSessionId sid else ret tt
  | None => ret tt
  end.

(** The headers object every request function grows by the session id. *)
Definition with_session (sessionId : option string) (headers : gmap string string)
  : gmap string string :=
  match sessionId with
  | Some sid => if truthy_str sessionId then <[SESSION_HEADER := sid]> headers else headers
  | None => headers
  end.

Definition fetchJson (url : string) (options : Options) : M value :=
  await sessionId <- getSessionId ;;
  let headers :=
    with_session sessionId
      (default ∅ (opt_headers options) ∪ {["Content-Type" := "application/json"]}) in
  await res <- fetch (mkRequest (BASE ++ url)
                        (opt_method options)
                        (spread_over headers (opt_headers options))
                        (opt_body options)
                        "include") ;;
  run save_session res ;;
  if negb (resp_ok res)
  then throw (mkError ("API error " ++ pretty (resp_status res) ++ ": " ++ resp_text res))
  else lift (resp_json res).

(** [uploadCsv] and [uploadXyz] are one text up to the last segment of the
    URL, here [path]. *)
Definition upload (path : string) (project : string) (file : File) : M value :=
  await sessionId <- getSessionId ;;
  let headers := with_session sessionId ∅ in
  await res <- fetch (mkRequest (BASE ++ "/projects/" ++ project ++ path)
                        (Some "POST") headers (Some (FormBody file)) "include") ;;
  run save_session res ;;
  if negb (resp_ok res)
  then throw (mkError (resp_text res))
  else lift (resp_json res).

Definition uploadCsv (project : string) (file : File) : M value :=
  upload "/upload-csv" project file.

Definition uploadXyz (project : string) (file : File) : M value :=
  upload "/upload-xyz" project file.

Definition post (v : value) : Options := mkOptions (Some "POST") (Some (JsonBody v)) None.
Definition post_empty : Options := mkOptions (Some "POST") None None.

(** Projects *)
Definition getProjects : M value := fetchJson "/projects" no_options.
Definition createProject (name : string) : M value :=
  fetchJson "/projects" (post (VObj [("name", VStr name)])).

(** Chat *)
Definition sendChat (query : string) (project : string) : M value :=
  fetchJson "/chat" (post (VObj [("query", VStr query); ("project", VStr project)])).

(** Data *)
Definition getDescriptors (project : string) : M value :=
  fetchJson ("/data/" ++ project ++ "/descriptors") no_options.
Definition getCorrelation (project : string) : M value :=
  fetchJson ("/data/" ++ project ++ "/correlation") no_options.
Definition getShifts (project : string) : M value :=
  fetchJson ("/data/" ++ project ++ "/shifts") no_options.
Definition getStructures (project : string) : M value :=
  fetchJson ("/data/" ++ project ++ "/structures") no_options.
Definition getStructure (project label : string) : M value :=
  fetchJson ("/data/" ++ project ++ "/structure/" ++ label) no_options.
Definition getCharges (project label : string) : M value :=
  fetchJson ("/data/" ++ project ++ "/charges/" ++ label) no_options.
Definition getAdsorptionEnergies (project : string) : M value :=
  fetchJson ("/data/" ++ project ++ "/adsorption-energies") no_options.
Definition getEnergyDecomposition (project : string) : M value :=
  fetchJson ("/data/" ++ project ++ "/energy-decomposition") no_options.

(** Thermo; [opts] defaults to [{}] at the call sites. *)
Definition getCoverageP (project : string) (opts : value) : M value :=
  fetchJson ("/thermo/" ++ project ++ "/coverage-vs-pressure") (post opts).
Definition getCoverageT (project : string) (opts : value) : M value :=
  fetchJson ("/thermo/" ++ project ++ "/coverage-vs-temperature") (post opts).
Definition getT50 (project : string) (opts : value) : M value :=
  fetchJson ("/thermo/" ++ project ++ "/t50") (post opts).
Definition compareSystems (project : string) (opts : value) : M value :=
  fetchJson ("/thermo/" ++ project ++ "/compare") (post opts).

(** ML *)
Definition runSymbolicRegression (project : string) : M value :=
  fetchJson ("/ml/" ++ project ++ "/symbolic-regression") post_empty.
Definition runGP (project : string) : M value :=
  fetchJson ("/ml/" ++ project ++ "/gp-predict") post_empty.
Definition suggestNext (project : string) : M value :=
  fetchJson ("/ml/" ++ project ++ "/suggest-next") post_empty.
Definition featureImportance (project : string) : M value :=
  fetchJson ("/ml/" ++ project ++ "/feature-importance") post_empty.

(** Every request function the module exports, with its arguments. *)
Inductive ApiCall : Type :=
| GetProjects
| CreateProject (name : string)
| UploadCsv (project : string) (file : File)
| UploadXyz (project : string) (file : File)
| SendChat (query project : string)
| GetDescriptors (project : string)
| GetCorrelation (project : string)
| GetShifts (project : string)
| GetStructures (project : string)
| GetStructure (project label : string)
| GetCharges (project label : string)
| GetAdsorptionEnergies (project : string)
| GetEnergyDecomposition (project : string)
| GetCoverageP (project : string) (opts : value)
| GetCoverageT (project : string) (opts : value)
| GetT50 (project : string) (opts : value)
| CompareSystems (project : string) (opts : value)
| RunSymbolicRegression (project : string)
| RunGP (project : string)
| SuggestNext (project : string)
| FeatureImportance (project : string).

Definition perform (c : ApiCall) : M value :=
  match c with
  | GetProjects => getProjects
  | CreateProject name => createProject name
  | UploadCsv project file => uploadCsv project file
  | UploadXyz project file => uploadXyz project file
  | SendChat query project => sendChat query project
  | GetDescriptors project => getDescriptors project
  | GetCorrelation project => getCorrelation project
  | GetShifts project => getShifts project
  | GetStructures project => getStructures project
  | GetStructure project label => getStructure project label
  | GetCharges project label => getCharges project label
  | GetAdsorptionEnergies project => getAdsorptionEnergies project
  | GetEnergyDecomposition project => getEnergyDecomposition project
  | GetCoverageP project opts => getCoverageP project opts
  | GetCoverageT project opts => getCoverageT project opts
  | GetT50 project opts => getT50 project opts
  | CompareSystems project opts => compareSystems project opts
  | RunSymbolicRegression project => runSymbolicRegression project
  | RunGP project => runGP project
  | SuggestNext project => suggestNext project
  | FeatureImportance project => featureImportance project
  end.

(** Calls made one after the other, each awaited before the next. *)
Fixpoint perform_all (cs : list ApiCall) : M unit :=
  match cs with
  | [] => ret tt
  | c :: rest => await _ <- attempt (perform c) ;; perform_all rest
  end.

(** *** Observations on a run *)

(** A session id is a non-empty string: the client tests the stored item
    and the response header by truthiness, which is false for [null] and
    for the empty string alike. *)
Definition session_of (o : option string) : option string :=
  match o with
  | Some s => if String.eqb s "" then None else Some s
  | None => None
  end.

(** The session id the browser holds. *)
Definition stored_session (b : Browser) : option string :=
  session_of (localStorage b !! SESSION_KEY).

(** The session id a request carries. *)
Definition session_header (req : Request) : option string :=
  req_headers req !! SESSION_HEADER.

(** The session id an answer carries; a network failure carries none. *)
Definition response_session (o : FetchOutcome) : option string :=
  match o with
  | Responded r => session_of (resp_header r SESSION_HEADER)
  | NetworkError _ => None
  end.

(** The session id held once an answer has been processed. *)
Definition session_after (held : option string) (o : FetchOutcome) : option string :=
  match response_session o with
  | Some sid => Some sid
  | None => held
  end.

End Api.

(** ** The chat panel, [frontend/src/components/ChatPanel.jsx] *)

Module ChatPanel.
Import Js Api.
Local Open Scope js_scope.

Inductive Role : Type := user | assistant.

(** A chat message; the keys a message lacks read as [undefined]. *)
Record Message : Type := mkMessage {
  role : Role;
  content : value;
  agents : value;
  agentResults : value
}.

(** What [onAgentActivity] receives. *)
Record Activity : Type := mkActivity {
  act_query : string;
  act_agents : value;
  act_agentResults : value
}.

(** The state [handleSend] reads and writes: the panel's own, and the
    agent log of [App], which [App] passes the panel a writer for. *)
Record State : Type := mkState {
  messages : list Message;
  input : string;
  loading : bool;
  activeAgents : value;
  agentLog : list Activity
}.

Definition UI : Type := (State * Browser)%type.

Definition setInput (s : string) : Prog Network UI unit :=
  on_fst (fun st => mkState (messages st) s (loading st) (activeAgents st) (agentLog st)).

(** [setMessages(prev => ...)], a functional update. *)
Definition setMessages (f : list Message -> list Message) : Prog Network UI unit :=
  on_fst (fun st => mkState (f (messages st)) (input st) (loading st) (activeAgents st) (agentLog st)).

Definition setLoading (l : bool) : Prog Network UI unit :=
  on_fst (fun st => mkState (messages st) (input st) l (activeAgents st) (agentLog st)).

Definition setActiveAgents (a : value) : Prog Network UI unit :=
  on_fst (fun st => mkState (messages st) (input st) (loading st) a (agentLog st)).

(** [App.addAgentLog], the [onAgentActivity] the panel is mounted with; it
    queues a functional update (the time stamp it adds is left out). *)
Definition addAgentLog (entry : Activity) : Prog Network UI unit :=
  on_fst (fun st => mkState (messages st) (input st) (loading st) (activeAgents st)
                      (agentLog st ++ [entry])).

#[export] Hint Unfold setInput setMessages setLoading setActiveAgents addAgentLog : prog.

Definition user_message (query : string) : Message :=
  mkMessage user (VStr query) VUndefined VUndefined.

Definition assistant_message (result : value) : Message :=
  mkMessage assistant (opt_prop result "response")
    (opt_prop result "active_agents") (opt_prop result "agent_results").

Definition error_message (err : Error) : Message :=
  mkMessage assistant (VStr ("Error: " ++ message err)) VUndefined VUndefined.

(** [handleSend(quickQuery = null)].  The three call sites pass: nothing
    (the Enter key), a question string (the quick questions), and the
    click event (the Send button, [onClick={handleSend}]). *)
Definition handleSend (project : string) (onAgentActivity : option (Activity -> Prog Network UI unit))
  (quickQuery : value) : Prog Network UI unit :=
  await st <- get_state ;;
  await query <- lift (if truthy quickQuery
                       then call_trim quickQuery
                       else Fulfilled (trim (input st.1))) ;;
  if String.eqb query "" || loading st.1 then ret tt
  else
    run setInput "" ;;
    run setMessages (fun prev => prev ++ [user_message query]) ;;
    run setLoading true ;;
    run setActiveAgents (VArr []) ;;
    finally
      (try_catch
         (await result <- on_snd (sendChat query project) ;;
          await active <- lift (prop result "active_agents") ;;
          run setActiveAgents (or_else active (VArr [])) ;;
          run setMessages (fun prev => prev ++ [assistant_message result]) ;;
          match onAgentActivity with
          | Some callback =>
              callback (mkActivity query (opt_prop result "active_agents")
                          (opt_prop result "agent_results"))
          | None => ret tt
          end)
         (fun err => setMessages (fun prev => prev ++ [error_message err])))
      (run setLoading false ;; setActiveAgents (VArr [])).

(** The click event React hands to an [onClick] handler: an object, and
    not one with a [trim] method. *)
Definition clickEvent : value :=
  VObj [("type", VStr "click"); ("bubbles", VBool true)].

(** How a query is submitted, and what [handleSend] is called with then:
    the Enter key runs [handleSend()], a quick question [handleSend(q)],
    and the Send button, being [onClick={handleSend}], hands it the click
    event. *)
Inductive Submit : Type :=
| EnterKey
| QuickQuestion (q : string)
| SendButton.

Definition argument (how : Submit) : value :=
  match how with
  | EnterKey => VNull
  | QuickQuestion q => VStr q
  | SendButton => clickEvent
  end.

(** The panel as [App] mounts it. *)
Definition submit (project : string) (how : Submit) : Prog Network UI unit :=
  handleSend project (Some addAgentLog) (argument how).

(** Whether the control is enabled: the box and the buttons are disabled
    while loading, the Send button also on a blank input. *)
Definition enabled (how : Submit) (st : State) : bool :=
  match how with
  | EnterKey | QuickQuestion _ => negb (loading st)
  | SendButton => negb (loading st || String.eqb (trim (input st)) "")
  end.

(** The reply the panel shows for a settled chat call. *)
Definition reply_to (o : Outcome value) : Message :=
  match o with
  | Fulfilled result =>
      match prop result "active_agents" with
      | Fulfilled _ => assistant_message result
      | Rejected err => error_message err
      end
  | Rejected err => error_message err
  end.

End ChatPanel.

(** ** The upload page, [frontend/src/components/DataUpload.jsx] *)

Module DataUpload.
Import Js Api.
Local Open Scope js_scope.

(** The object [createProject] resolved to, kept in [created]; its [name]
    is the string put into the upload URLs. *)
Record Project : Type := mkProject { project_name : string }.

(** An entry of [xyzResults].  Entries are only ever read by key
    ([r.file], [r.error], [r.validation]), so they are finite maps. *)
Definition entry_ok (file : File) (result : value) : gmap string value :=
  list_to_map (own_props result) ∪ {["file" := VStr (file_name file)]}.

Definition entry_failed (file : File) (err : Error) : gmap string value :=
  {["file" := VStr (file_name file); "error" := VStr (message err)]}.

Definition entry_of (file : File) (o : Outcome value) : gmap string value :=
  match o with
  | Fulfilled result => entry_ok file result
  | Rejected err => entry_failed file err
  end.

(** The state the handler reads and writes, with the project list of
    [App] that [onProjectCreated] refreshes. *)
Record State : Type := mkState {
  created : option Project;
  csvResult : value;
  xyzResults : list (gmap string value);
  error : option string;
  projects : value
}.

Definition UI : Type := (State * Browser)%type.

Definition setError (e : option string) : Prog Network UI unit :=
  on_fst (fun st => mkState (created st) (csvResult st) (xyzResults st) e (projects st)).

Definition setXyzResults (rs : list (gmap string value)) : Prog Network UI unit :=
  on_fst (fun st => mkState (created st) (csvResult st) rs (error st) (projects st)).

Definition setProjects (ps : value) : Prog Network UI unit :=
  on_fst (fun st => mkState (created st) (csvResult st) (xyzResults st) (error st) ps).

#[export] Hint Unfold setError setXyzResults setProjects : prog.

(** [App.refreshProjects], passed as [onProjectCreated]:
    [getProjects().then(setProjects).catch(() => {})]. *)
Definition refreshProjects : Prog Network UI unit :=
  try_catch (await ps <- on_snd getProjects ;; setProjects ps) (fun _ => ret tt).

(** The body of [for (const file of files)], with [results] the array
    being filled. *)
Fixpoint upload_each (project : string) (files : list File)
  (results : list (gmap string value)) : Prog Network UI (list (gmap string value)) :=
  match files with
  | [] => ret results
  | file :: rest =>
      await o <- attempt (on_snd (uploadXyz project file)) ;;
      upload_each project rest (results ++ [entry_of file o])
  end.

(** [handleXyzUpload(e)], with [files] standing for [e.target.files]
    ([None] when it is [null]). *)
Definition handleXyzUpload (files : option (list File)) : Prog Network UI unit :=
  await st <- get_state ;;
  match files, created st.1 with
  | Some fs, Some project =>
      run setError None ;;
      await results <- upload_each (project_name project) fs [] ;;
      run setXyzResults results ;;
      refreshProjects
  | _, _ => ret tt
  end.

(** The XYZ file input is rendered under [created && csvResult] only. *)
Definition xyz_input_rendered (st : State) : bool :=
  match created st with
  | Some _ => truthy (csvResult st)
  | None => false
  end.

(** What [uploadXyz] settles to, given what [fetch] settled to. *)
Definition upload_settles (o : FetchOutcome) : Outcome value :=
  match o with
  | Responded r => if resp_ok r then resp_json r else Rejected (mkError (resp_text r))
  | NetworkError e => Rejected e
  end.

(** What an entry of [xyzResults] records of a file whose upload settled
    to [o], key by key.  Of an answer: every key of the answer with the
    answer's value, and the file's name under [file] unless the answer
    has that key itself.  Of a failure: the file's name under [file], the
    error's message under [error], and no other key. *)
Definition records (file : File) (o : Outcome value) (entry : gmap string value) : Prop :=
  match o with
  | Fulfilled result =>
      forall k : string,
        entry !! k = match assoc k (own_props result) with
                     | Some v => Some v
                     | None => if String.eqb k "file" then Some (VStr (file_name file)) else None
                     end
  | Rejected err =>
      forall k : string,
        entry !! k = if String.eqb k "file" then Some (VStr (file_name file))
                     else if String.eqb k "error" then Some (VStr (message err))
                     else None
  end.

(** [uploads net project history files reqs entries]: starting from the
    request trace [history], the files were uploaded one request each, in
    order, and [entries] has for each file, in that order, an entry that
    records how the upload of that file settled. *)
Inductive uploads (net : Network) (project : string)
  : list Request -> list File -> list Request -> list (gmap string value) -> Prop :=
| uploads_done history : uploads net project history [] [] []
| uploads_next history file files req reqs entry entries :
    req_url req = (BASE ++ "/projects/" ++ project ++ "/upload-xyz")%string ->
    req_body req = Some (FormBody file) ->
    records file (upload_settles (net history req)) entry ->
    uploads net project (history ++ [req]) files reqs entries ->
    uploads net project history (file :: files) (req :: reqs) (entry :: entries).

Definition setCsvResult (r : value) : Prog Network UI unit :=
  on_fst (fun st => mkState (created st) r (xyzResults st) (error st) (projects st)).

#[export] Hint Unfold setCsvResult : prog.

(** [handleCsvUpload(e)], with [files] standing for [e.target.files];
    the handler reads [files?.[0]] only. *)
Definition handleCsvUpload (files : option (list File)) : Prog Network UI unit :=
  await st <- get_state ;;
  match files ≫= head, created st.1 with
  | Some file, Some project =>
      run setError None ;;
      try_catch
        (await result <- on_snd (uploadCsv (project_name project) file) ;;
         run setCsvResult result ;;
         refreshProjects)
        (fun err => setError (Some (message err)))
  | _, _ => ret tt
  end.

End DataUpload.

(** ** Step 1 of the upload page, [handleCreate] of [DataUpload.jsx]

    Here [created] is the answer of [createProject] as the server sent it;
    [DataUpload.created] is what the upload handlers read of it. *)

Module ProjectForm.
Import Js Api.
Local Open Scope js_scope.

Record State : Type := mkState {
  projectName : string;
  creating : bool;
  created : value;
  error : option string;
  projects : value
}.

Definition UI : Type := (State * Browser)%type.

Definition setCreating (c : bool) : Prog Network UI unit :=
  on_fst (fun st => mkState (projectName st) c (created st) (error st) (projects st)).

Definition setCreated (r : value) : Prog Network UI unit :=
  on_fst (fun st => mkState (projectName st) (creating st) r (error st) (projects st)).

Definition setError (e : option string) : Prog Network UI unit :=
  on_fst (fun st => mkState (projectName st) (creating st) (created st) e (projects st)).

Definition setProjects (ps : value) : Prog Network UI unit :=
  on_fst (fun st => mkState (projectName st) (creating st) (created st) (error st) ps).

#[export] Hint Unfold setCreating setCreated setError setProjects : prog.

(** [App.refreshProjects], passed as [onProjectCreated]. *)
Definition refreshProjects : Prog Network UI unit :=
  try_catch (await ps <- on_snd getProjects ;; setProjects ps) (fun _ => ret tt).

Definition handleCreate : Prog Network UI unit :=
  await st <- get_state ;;
  if String.eqb (trim (projectName st.1)) "" then ret tt
  else
    run setCreating true ;;
    run setError None ;;
    run try_catch
          (await result <- on_snd (createProject (projectName st.1)) ;;
           run setCreated result ;;
           refreshProjects)
          (fun err => setError (Some (message err))) ;;
    setCreating false.

End ProjectForm.

(** ** Promises, as far as the dashboards use them

    A promise is identified with what it settles to. *)

Module Promise.
Import Js.

(** [p.catch(handler)] *)
Definition catch {A} (p : Outcome A) (handler : Error -> A) : Outcome A :=
  match p with
  | Fulfilled a => Fulfilled a
  | Rejected e => Fulfilled (handler e)
  end.

(** [p.then(callback)] *)
Definition and_then {A B} (p : Outcome A) (callback : A -> B) : Outcome B :=
  map_outcome callback p.

(** [Promise.all(ps)]: the values in the order of [ps], or a rejection of
    one of them.  Which rejection wins among several is a matter of
    timing, which the outcomes do not carry; the first in the order of
    [ps] stands for it, and the theorems say of it only that it is the
    rejection of one of [ps]. *)
Fixpoint all {A} (ps : list (Outcome A)) : Outcome (list A) :=
  match ps with
  | [] => Fulfilled []
  | Fulfilled a :: rest => and_then (all rest) (cons a)
  | Rejected e :: _ => Rejected e
  end.

(** The [i]-th name of an array destructuring pattern. *)
Definition item (vs : list value) (i : nat) : value :=
  default VUndefined (vs !! i).

End Promise.

(** ** The device operating window *)

Module Doe.

(** Modelled from the spec: the bounds of [doe_window], which lives in the
    thermodynamic engine of the backend and is not among the sources; the
    specification gives them as -40 C to 85 C, "equivalent in Kelvin". *)
Definition T_min_C : Q := -40.
Definition T_max_C : Q := 85.
Definition to_kelvin (celsius : Q) : Q := celsius + 273.15.
Definition T_min_K : Q := 233.15.
Definition T_max_K : Q := 358.15.

(** A [<ReferenceArea>] of a chart: the band it shades along one axis. *)
Inductive Axis : Type := XAxis | YAxis.

Record ReferenceArea : Type := mkArea {
  area_axis : Axis;
  area_from : Q;
  area_to : Q
}.

Arguments mkArea area_axis (area_from area_to)%_Q.

(** Whether a band is the operating window in the unit of its axis. *)
Definition shades (lo hi : Q) (a : ReferenceArea) : bool :=
  Qeq_bool (area_from a) lo && Qeq_bool (area_to a) hi.

End Doe.

(** ** The thermodynamics tab, [frontend/src/components/ThermoPlot.jsx] *)

Module ThermoPlot.
Import Js Promise Doe.

Record State : Type := mkState {
  t50Data : value;
  coverageP : value;
  coverageT : value;
  comparison : value;
  loading : bool
}.

Definition initial : State := mkState VNull VNull VNull VNull true.

Definition setLoading (l : bool) (st : State) : State :=
  mkState (t50Data st) (coverageP st) (coverageT st) (comparison st) l.

(** The four requests of the effect, in the order of the array literal;
    each is called with its default [opts = {}]. *)
Definition requests (project : string) : list Api.ApiCall :=
  [Api.GetT50 project (VObj []);
   Api.GetCoverageP project (VObj []);
   Api.GetCoverageT project (VObj []);
   Api.CompareSystems project (VObj [])].

(** The effect run on mount and on every change of [project].  [settle]
    tells what the promise of each request settles to; the requests are
    issued together, so for a network [net] and the browser state [b] at
    the time of the effect it is [fun c => (Api.perform c net b).1]. *)
Definition load (settle : Api.ApiCall -> Outcome value) (project : string)
  (st : State) : State :=
  let st1 := setLoading true st in
  let joined := all (map (fun m => catch (settle m) (fun _ => VNull)) (requests project)) in
  match and_then joined
          (fun vs => mkState (item vs 0) (item vs 1) (item vs 2) (item vs 3) false) with
  | Fulfilled st2 => st2
  | Rejected _ => st1
  end.

(** [systemNames]: the systems each of the three charts draws a [<Line>]
    for; they are read off the T50 response. *)
Definition systemNames (st : State) : list string :=
  if truthy (t50Data st) then Object_keys (t50Data st) else [].

(** The bands and lines the charts draw for the window; both charts have
    a Celsius axis (the data are converted with [- 273.15]). *)
Definition t50_chart_area : ReferenceArea := mkArea YAxis (-40) 85.
Definition t50_chart_lines : list Q := [-40; 85]%Q.
Definition coverage_vs_temperature_area : ReferenceArea := mkArea XAxis (-40) 85.

End ThermoPlot.

(** ** The figure panels (source file of unknown name, [PublicationFigures]) *)

Module PublicationFigures.
Import Js Promise Doe.

Definition systemShort (label : string) : string :=
  if test_ci "pristine" label then "Pristine"
  else if test_ci "2zr" label || test_ci "zr2" label then "2Zr"
  else if test_ci "1zr" label || test_ci "zr" label then "1Zr"
  else label.

Definition SYS_COLORS : gmap string string :=
  {["Pristine" := "#2ca02c"; "1Zr" := "#1f77b4"; "2Zr" := "#d62728"]}.

(** [systemColor(label)]; [None] would be an [undefined] read off
    [SYS_COLORS]. *)
Definition systemColor (label : string) : option string :=
  if test_ci "pristine" label then SYS_COLORS !! "Pristine"
  else if test_ci "2zr" label || test_ci "zr2" label then SYS_COLORS !! "2Zr"
  else if test_ci "1zr" label || test_ci "zr" label then SYS_COLORS !! "1Zr"
  else Some "#888".

Definition order : list string := ["Pristine"; "1Zr"; "2Zr"].

(** [xs.indexOf(x)] *)
Fixpoint indexOf (xs : list string) (x : string) : Z :=
  match xs with
  | [] => -1
  | y :: rest =>
      if String.eqb x y then 0
      else match indexOf rest x with
           | Zneg _ => -1
           | i => i + 1
           end
  end%Z.

Definition rank (label : string) : Z := indexOf order (systemShort label).

(** [systems.sort((a, b) => rank a - rank b)]: the sort is stable, so a
    label goes in front of the first label that does not rank lower. *)
Fixpoint place (x : string) (sorted : list string) : list string :=
  match sorted with
  | [] => [x]
  | y :: rest => if (rank x <=? rank y)%Z then x :: sorted else y :: place x rest
  end.

Definition sort_systems (systems : list string) : list string :=
  fold_right place [] systems.

(** *** Panels (e) and (f): the coverage curves *)

(** The step of the display loop, [Math.max(1, Math.floor(n / 50))]; it is
    positive, which is what lets the loop end. *)
Record Stride : Type := mkStride { stride :> nat; stride_pos : 0 < stride }.

Lemma step_positive (n : nat) : 0 < Nat.max 1 (n / 50).
Proof. lia. Qed.

Definition step_of (n : nat) : Stride := mkStride (Nat.max 1 (n / 50)) (step_positive n).

(** [for (let i = start; i < n; i += step) chartData.push(body(i))] *)
Equations? chart_loop {A : Type} (n : nat) (step : Stride) (body : nat -> A) (i : nat)
  : list A by wf (n - i) lt :=
chart_loop n step body i with lt_dec i n := {
  | left _ => body i :: chart_loop n step body (i + step)
  | right _ => []
}.
Proof. destruct step as [s Hs]. simpl. lia. Qed.

(** The [systems.forEach] callback: the coverage of system [s] at grid
    index [i] joins the point under the system's short name, when there
    is one. *)
Definition add_series (data : value) (i : nat) (point : gmap string value) (s : string)
  : gmap string value :=
  let d := index data s in
  if truthy d then
    match as_array (opt_prop d "coverages") with
    | Some coverages =>
        match coverages !! i with
        | Some c => assign (systemShort s) c point
        | None => point
        end
    | None => point
    end
  else point.

(** The chart point of grid index [i]. *)
Definition point_at (x_key : string) (grid : list value) (data : value)
  (systems : list string) (i : nat) : gmap string value :=
  fold_left (add_series data i) systems {[x_key := default VUndefined (grid !! i)]}.

(** The data of a coverage chart: [None] where the panel returns [null].
    Panels (e) and (f) run this text with [grid_key]/[x_key] set to
    [temperatures_K]/[T] and [pressures_bar]/[P]. *)
Definition coverage_chart_data (grid_key x_key : string) (data : value)
  : option (list (gmap string value)) :=
  if negb (truthy data) || Nat.eqb (length (Object_keys data)) 0 then None
  else
    let systems := sort_systems (Object_keys data) in
    let refSys := default ""%string (head systems) in
    let sysData := index data refSys in
    if negb (truthy sysData) then None
    else
      match as_array (opt_prop sysData grid_key) with
      | None | Some [] => None
      | Some grid =>
          Some (chart_loop (length grid) (step_of (length grid))
                  (point_at x_key grid data systems) 0)
      end.

Record Chart : Type := mkChart {
  chart_data : list (gmap string value);
  chart_area : option ReferenceArea
}.

Definition PanelCoverageVsTemp_band : ReferenceArea := mkArea XAxis 233 358.

Definition PanelCoverageVsTemp (covTData : value) : option Chart :=
  option_map (fun points => mkChart points (Some PanelCoverageVsTemp_band))
    (coverage_chart_data "temperatures_K" "T" covTData).

Definition PanelCoverageVsPressure (covPData : value) : option Chart :=
  option_map (fun points => mkChart points None)
    (coverage_chart_data "pressures_bar" "P" covPData).

(** *** Panel (d): T50 against pressure; its band. *)
Definition PanelT50vsPressure_area : ReferenceArea := mkArea YAxis 233.15 358.15.

(** *** Panel (d): the merged pressure axis

    The panel merges the pressure grids of the systems into a [Set] and
    sorts it with [(a, b) => a - b], which orders numbers; on anything else
    that comparator is not an order, and what [sort] then returns is left
    to the engine.  So a pressure is a number here: a [pressures_bar]
    array that holds anything else is outside the model ([None]). *)

Definition number_of (v : value) : option Q :=
  match v with
  | VNum (Fin q) => Some q
  | _ => None
  end.

Definition numbers (items : list value) : option (list Q) := mapM number_of items.

(** [pressureSet.add(p)]: a [Set] keeps the first of equal numbers, in
    insertion order. *)
Definition set_add (pressureSet : list Q) (p : Q) : list Q :=
  if existsb (Qeq_bool p) pressureSet then pressureSet else pressureSet ++ [p].

(** The [systems.forEach] that fills [pressureSet]. *)
Fixpoint collect_pressures (t50Data : value) (systems : list string) (pressureSet : list Q)
  : option (list Q) :=
  match systems with
  | [] => Some pressureSet
  | s :: rest =>
      match opt_prop (index t50Data s) "pressures_bar" with
      | VArr items =>
          match numbers items with
          | Some ps => collect_pressures t50Data rest (fold_left set_add ps pressureSet)
          | None => None
          end
      | _ => collect_pressures t50Data rest pressureSet
      end
  end.

(** [[...pressureSet].sort((a, b) => a - b)] *)
Fixpoint insert_pressure (p : Q) (sorted : list Q) : list Q :=
  match sorted with
  | [] => [p]
  | q :: rest => if Qle_bool p q then p :: sorted else q :: insert_pressure p rest
  end.

Definition sort_pressures (ps : list Q) : list Q := fold_right insert_pressure [] ps.

(** [items.indexOf(p)] for a number [p]: the first index that holds a
    number equal to it; [None] stands for -1. *)
Fixpoint indexOf_number (p : Q) (items : list value) : option nat :=
  match items with
  | [] => None
  | x :: rest =>
      if match x with
         | VNum (Fin q) => Qeq_bool q p
         | _ => false
         end
      then Some 0
      else option_map S (indexOf_number p rest)
  end.

(** The [systems.forEach] callback of [chartData]. *)
Definition add_T50 (t50Data : value) (p : Q) (point : gmap string value) (s : string)
  : gmap string value :=
  let sysData := index t50Data s in
  if truthy sysData then
    match as_array (opt_prop sysData "pressures_bar"), as_array (opt_prop sysData "T50_K") with
    | Some pressures, Some temperatures =>
        match indexOf_number p pressures with
        | Some idx =>
            match temperatures !! idx with
            | Some t => assign (systemShort s) t point
            | None => point
            end
        | None => point
        end
    | _, _ => point
    end
  else point.

(** The chart point of pressure [p]. *)
Definition T50_point (t50Data : value) (systems : list string) (p : Q)
  : gmap string value :=
  fold_left (add_T50 t50Data p) systems {["pressure" := VNum (Fin p)]}.

(** The pressure axis of the panel, [pressures]. *)
Definition T50_pressures (t50Data : value) : option (list Q) :=
  option_map sort_pressures
    (collect_pressures t50Data (sort_systems (Object_keys t50Data)) []).

(** The data of the chart: [Some None] where the panel returns [null]. *)
Definition PanelT50vsPressure (t50Data : value)
  : option (option (list (gmap string value))) :=
  if negb (truthy t50Data) || Nat.eqb (length (Object_keys t50Data)) 0 then Some None
  else
    match T50_pressures t50Data with
    | None => None
    | Some [] => Some None
    | Some pressures =>
        Some (Some (map (T50_point t50Data (sort_systems (Object_keys t50Data))) pressures))
    end.

(** *** Panel (c): the heat map of descriptor shifts *)

Definition descs : list string := ["Eg_eV"; "mu_eV"; "omega_eV"; "chi_eV"; "eta_eV"].

(** [shiftsData.shifts[sys]?.[d] ?? 0] *)
Definition shift_value (shifts : value) (sys d : string) : value :=
  nullish (opt_prop (index shifts sys) d) (VNum (Fin 0)).

(** A table cell calls [v.toFixed(4)]; only a number has the method. *)
Definition as_number (v : value) : Outcome number :=
  match v with
  | VNum n => Fulfilled n
  | _ => Rejected (type_error "v.toFixed is not a function")
  end.


Record Heatmap : Type := mkHeatmap {
  heat_rows : list string;
  heat_values : list (list number);
  heat_maxAbs : number
}.

(** [allVals] and [maxAbs]. *)
Definition maxAbs_of (values : list (list number)) : number :=
  let allVals := filter (fun v => not_zero v = true) (concat values) in
  Math_max (map Math_abs allVals) (Fin 0.001).

(** The panel: [Fulfilled None] where it returns [null], a rejection
    where rendering a cell throws. *)
Definition PanelDescriptorShifts (shiftsData : value) : Outcome (option Heatmap) :=
  let shifts := opt_prop shiftsData "shifts" in
  let no_pairs := match opt_prop shiftsData "pairs_found" with
                  | VNum n => is_zero n
                  | _ => false
                  end in
  if negb (truthy shifts) || no_pairs then Fulfilled None
  else
    let systems := sort_systems (Object_keys shifts) in
    let values := map (fun sys => map (shift_value shifts sys) descs) systems in
    map_outcome
      (fun numbers => Some (mkHeatmap (map systemShort systems) numbers (maxAbs_of numbers)))
      (traverse (traverse as_number) values).

(** *** Panel (a): the adsorption energies *)

(** A point of the lollipop chart. *)
Record Lollipop : Type := mkLollipop {
  lollipop_name : string;
  lollipop_value : value;
  lollipop_color : option string
}.

(** [Object.entries(v)]: throws on [null] and [undefined]. *)
Definition Object_entries (v : value) : Outcome (list (string * value)) :=
  match v with
  | VUndefined | VNull => Rejected (type_error "Cannot convert undefined or null to object")
  | _ => Fulfilled (own_props v)
  end.

Definition lollipop_of (entry : string * value) : Lollipop :=
  mkLollipop (systemShort entry.1) entry.2 (systemColor entry.1).

(** [chartData.sort((a, b) => order.indexOf(a.name) - order.indexOf(b.name))],
    a stable sort as [sort_systems] is. *)
Fixpoint place_lollipop (x : Lollipop) (sorted : list Lollipop) : list Lollipop :=
  match sorted with
  | [] => [x]
  | y :: rest =>
      if (indexOf order (lollipop_name x) <=? indexOf order (lollipop_name y))%Z
      then x :: sorted
      else y :: place_lollipop x rest
  end.

Definition sort_lollipops (chartData : list Lollipop) : list Lollipop :=
  fold_right place_lollipop [] chartData.

(** The data of the chart: [Fulfilled None] where the panel returns
    [null], a rejection where [Object.entries] throws. *)
Definition PanelEadsLollipop (eadsData : value) : Outcome (option (list Lollipop)) :=
  if negb (truthy (opt_prop eadsData "found")) then Fulfilled None
  else
    map_outcome (fun entries => Some (sort_lollipops (map lollipop_of entries)))
      (Object_entries (opt_prop eadsData "data")).

(** *** The component *)

Record State : Type := mkState {
  eads : value;
  decomp : value;
  shifts : value;
  t50 : value;
  covP : value;
  covT : value;
  loading : bool
}.

Definition initial : State := mkState VNull VNull VNull VNull VNull VNull true.

Definition setLoading (l : bool) (st : State) : State :=
  mkState (eads st) (decomp st) (shifts st) (t50 st) (covP st) (covT st) l.

(** The six requests of the effect, in the order of the array literal. *)
Definition requests (project : string) : list Api.ApiCall :=
  [Api.GetAdsorptionEnergies project;
   Api.GetEnergyDecomposition project;
   Api.GetShifts project;
   Api.GetT50 project (VObj []);
   Api.GetCoverageP project (VObj []);
   Api.GetCoverageT project (VObj [])].

(** The effect run on mount and on every change of [project].  [settle]
    tells what the promise of each request settles to; the requests are
    issued together, so for a network [net] and the browser state [b] at
    the time of the effect it is [fun c => (Api.perform c net b).1]. *)
Definition load (settle : Api.ApiCall -> Outcome value) (project : string)
  (st : State) : State :=
  let st1 := setLoading true st in
  let joined := all (map (fun m => catch (settle m) (fun _ => VNull)) (requests project)) in
  match and_then joined
          (fun vs => mkState (item vs 0) (item vs 1) (item vs 2) (item vs 3)
                       (item vs 4) (item vs 5) false) with
  | Fulfilled st2 => st2
  | Rejected _ => st1
  end.

End PublicationFigures.

(** ** The correlation table of the descriptor dashboard *)

Module DescriptorDashboard.
Import Js.

(** An entry of the correlation matrix: the response has [number | null];
    [Undefined] is what a hole in a row reads as. *)
Inductive entry : Type :=
| Null
| Undefined
| Number (n : number).

(** The [correlation] state once the response is in: [{columns, matrix}]. *)
Record Correlation : Type := mkCorrelation {
  columns : list string;
  matrix : list (list entry)
}.

(** A [<td>] of the table: the placeholder, or a coloured figure.  [blue]
    is [val > 0] (red otherwise), [white] is [absVal > 0.5] (the text
    colour); the figure is [val.toFixed(2)] and the tool tip ends in
    [val.toFixed(3)].  The opacity of the colour is left out. *)
Inductive Cell : Type :=
| Dash
| Figure (blue white : bool) (text tip : FixedText)
| NaNText.

(** The cell callback of the component with the null guard (source file
    of unknown name; it also formats the descriptor names). *)
Definition render_cell (val : entry) : Cell :=
  match val with
  | Null | Undefined => Dash
  | Number n =>
      if isNaN n then Dash
      else
        match n with
        | Fin q =>
            let absVal := Math_abs n in
            Figure (gt n (Fin 0)) (gt absVal (Fin 0.5)) (mkFixed 2 q) (mkFixed 3 q)
        | NaN => Dash
        end
  end.

(** The rows of the table, [correlation.columns.map((row, i) =>
    correlation.matrix[i].map(...))]: a column with no row in the matrix
    makes [matrix[i].map] throw. *)
Fixpoint render_rows (render : entry -> Outcome Cell) (i : nat) (cols : list string)
  (m : list (list entry)) : Outcome (list (string * list Cell)) :=
  match cols with
  | [] => Fulfilled []
  | row :: rest =>
      match m !! i with
      | None => Rejected (type_error "Cannot read properties of undefined (reading 'map')")
      | Some entries =>
          match traverse render entries with
          | Rejected e => Rejected e
          | Fulfilled cells =>
              map_outcome (cons (row, cells)) (render_rows render (S i) rest m)
          end
      end
  end.

(** [{correlation && (<table>...)}] *)
Definition render_table (correlation : option Correlation)
  : Outcome (option (list (string * list Cell))) :=
  match correlation with
  | None => Fulfilled None
  | Some c =>
      map_outcome Some
        (render_rows (fun val => Fulfilled (render_cell val)) 0 (columns c) (matrix c))
  end.

(** Whether an entry stands for an undefined correlation. *)
Definition undefined_entry (val : entry) : bool :=
  match val with
  | Null | Undefined | Number NaN => true
  | Number (Fin _) => false
  end.

End DescriptorDashboard.

(** The same table in [frontend/src/components/DescriptorDashboard.jsx],
    which has no guard in the cell callback. *)

Module DescriptorDashboardJsx.
Import Js DescriptorDashboard.

Definition render_cell (val : entry) : Outcome Cell :=
  match val with
  | Null => Rejected (type_error "Cannot read properties of null (reading 'toFixed')")
  | Undefined => Rejected (type_error "Cannot read properties of undefined (reading 'toFixed')")
  | Number NaN => Fulfilled NaNText
  | Number (Fin q) =>
      Fulfilled (Figure (gt (Fin q) (Fin 0)) (gt (Math_abs (Fin q)) (Fin 0.5))
                   (mkFixed 2 q) (mkFixed 3 q))
  end.

Definition render_table (correlation : option Correlation)
  : Outcome (option (list (string * list Cell))) :=
  match correlation with
  | None => Fulfilled None
  | Some c => map_outcome Some (render_rows render_cell 0 (columns c) (matrix c))
  end.

End DescriptorDashboardJsx.

(** ** The effect of [frontend/src/components/DescriptorDashboard.jsx]

    The state the effect writes, but for [selectedDescriptor]: the
    callback sets it last, from a test that cannot throw, and only the bar
    chart reads it. *)

Module DescriptorDashboardLoad.
Import Js Promise.

Record State : Type := mkState {
  data : value;
  correlation : value;
  shifts : value;
  loading : bool;
  error : option string
}.

Definition initial : State := mkState VNull VNull VNull true None.

Definition setLoading (l : bool) (st : State) : State :=
  mkState (data st) (correlation st) (shifts st) l (error st).

Definition setError (e : option string) (st : State) : State :=
  mkState (data st) (correlation st) (shifts st) (loading st) e.

(** The three requests of the effect, in the order of the array literal. *)
Definition requests (project : string) : list Api.ApiCall :=
  [Api.GetDescriptors project; Api.GetCorrelation project; Api.GetShifts project].

(** [err.message || 'Failed to load data'] *)
Definition shown (err : Error) : string :=
  if String.eqb (message err) "" then "Failed to load data" else message err.

(** The effect run on mount and on every change of [project]; [settle]
    tells what the promise of each request settles to.  The requests are
    joined as they are, with no guard of their own. *)
Definition load (settle : Api.ApiCall -> Outcome value) (project : string)
  (st : State) : State :=
  let st1 := setError None (setLoading true st) in
  let joined := all (map settle (requests project)) in
  match catch
          (and_then joined
             (fun vs => setLoading false
                          (mkState (item vs 0) (item vs 1) (item vs 2) (loading st1) (error st1))))
          (fun err => setLoading false (setError (Some (shown err)) st1)) with
  | Fulfilled st2 => st2
  | Rejected _ => st1
  end.

(** What the component returns once the effect has run: the loading
    line, the error page, the line for no data, or the dashboard itself,
    which is where [PublicationFigures] is mounted. *)
Inductive View : Type :=
| LoadingView
| ErrorView (text : string)
| NoDataView
| DashboardView.

Definition view (st : State) : View :=
  if loading st then LoadingView
  else if truthy_str (error st) then ErrorView (default ""%string (error st))
  else if negb (truthy (data st)) then NoDataView
  else DashboardView.

End DescriptorDashboardLoad.

(** ** The analyses tab, [frontend/src/components/MLInsights.jsx] *)

Module MLInsights.
Import Js Api.
Local Open Scope js_scope.

(** The four result slots and the [loading] object, which has a flag per
    analysis key. *)
Record State : Type := mkState {
  symReg : value;
  gp : value;
  suggestions : value;
  importance : value;
  loading : gmap string bool
}.

Definition UI : Type := (State * Browser)%type.

Definition setSymReg (r : value) : Prog Network UI unit :=
  on_fst (fun st => mkState r (gp st) (suggestions st) (importance st) (loading st)).

Definition setGp (r : value) : Prog Network UI unit :=
  on_fst (fun st => mkState (symReg st) r (suggestions st) (importance st) (loading st)).

Definition setSuggestions (r : value) : Prog Network UI unit :=
  on_fst (fun st => mkState (symReg st) (gp st) r (importance st) (loading st)).

Definition setImportance (r : value) : Prog Network UI unit :=
  on_fst (fun st => mkState (symReg st) (gp st) (suggestions st) r (loading st)).

(** [setLoading(prev => ...)], a functional update. *)
Definition setLoading (f : gmap string bool -> gmap string bool) : Prog Network UI unit :=
  on_fst (fun st => mkState (symReg st) (gp st) (suggestions st) (importance st)
                      (f (loading st))).

#[export] Hint Unfold setSymReg setGp setSuggestions setImportance setLoading : prog.

Definition runAnalysis (project : string) (key : string) (fn : string -> M value)
  (setter : value -> Prog Network UI unit) : Prog Network UI unit :=
  run setLoading (fun prev => <[key := true]> prev) ;;
  run try_catch
        (await result <- on_snd (fn project) ;;
         setter result)
        (fun err => setter (VObj [("error", VStr (message err))])) ;;
  setLoading (fun prev => <[key := false]> prev).

(** The four buttons of the control panel. *)
Inductive Button : Type :=
| SymRegButton
| GpButton
| SuggestButton
| ImportanceButton.

Definition key_of (button : Button) : string :=
  match button with
  | SymRegButton => "symReg"
  | GpButton => "gp"
  | SuggestButton => "suggest"
  | ImportanceButton => "importance"
  end.

(** The [onClick] of a button. *)
Definition onClick (project : string) (button : Button) : Prog Network UI unit :=
  match button with
  | SymRegButton => runAnalysis project "symReg" runSymbolicRegression setSymReg
  | GpButton => runAnalysis project "gp" runGP setGp
  | SuggestButton => runAnalysis project "suggest" suggestNext setSuggestions
  | ImportanceButton => runAnalysis project "importance" featureImportance setImportance
  end.

(** The result slot a button fills. *)
Definition slot (button : Button) (st : State) : value :=
  match button with
  | SymRegButton => symReg st
  | GpButton => gp st
  | SuggestButton => suggestions st
  | ImportanceButton => importance st
  end.

(** [disabled={loading.key}] *)
Definition disabled (button : Button) (st : State) : bool :=
  default false (loading st !! key_of button).

End MLInsights.

(** ** The thermodynamic engine *)

Module ThermoEngine.
Local Open Scope R_scope.

(** Modelled from the spec: the isotherm parameters of a system in their
    empirical form, a Langmuir prefactor and an enthalpy.  The engine is
    part of the backend and is not among the sources. *)
Record IsothermParameters : Type := mkIsotherm {
  K0 : R;
  dH : R
}.

Section Isotherm.

(** The gas constant and the system at hand. *)
Variable Rgas : R.
Variable sys : IsothermParameters.

(** Modelled from the spec: the van't Hoff equilibrium constant,
    K(T) = K0 * exp(-dH / (R * T)); the engine is not among the sources. *)
Definition K (T : R) : R := K0 sys * exp (- dH sys / (Rgas * T)).

(** Modelled from the spec: [coverage(T, P)], the Langmuir form
    K(T) P / (1 + K(T) P); the engine is not among the sources. *)
Definition coverage (T P : R) : R := K T * P / (1 + K T * P).

(** Modelled from the spec: what [t50] yields, a temperature or the
    error [RootNotBracketed]; the engine is not among the sources. *)
Inductive T50Result : Type :=
| T50 (T : R)
| RootNotBracketed.

(** Modelled from the spec: the bracket [lo, hi] of [f] halved [n] times,
    by its midpoint; the half kept is the one on whose ends [f] changes
    sign.  The engine is not among the sources. *)
Fixpoint bisect (f : R -> R) (n : nat) (lo hi : R) : R :=
  let mid := (lo + hi) / 2 in
  match n with
  | O => mid
  | S n' =>
      if Rle_dec (f lo * f mid) 0 then bisect f n' lo mid else bisect f n' mid hi
  end.

(** Modelled from the spec: the bisection loop with its tolerance [eps],
    "|coverage(t50(P), P) - 0.5| < eps for a small tolerance eps": the loop
    returns the midpoint of the bracket as soon as its residual is below
    [eps], and halves the bracket as long as it is not.  The loop has no
    bound of its own; [bisect_until ... n] is the run cut after [n]
    halvings, [None] if it has not returned by then.  The engine is not
    among the sources. *)
Fixpoint bisect_until (f : R -> R) (eps : R) (n : nat) (lo hi : R) : option R :=
  let mid := (lo + hi) / 2 in
  if Rlt_dec (Rabs (f mid)) eps then Some mid
  else
    match n with
    | O => None
    | S n' =>
        if Rle_dec (f lo * f mid) 0
        then bisect_until f eps n' lo mid
        else bisect_until f eps n' mid hi
    end.

(** Whether the run cut after [n] rounds has returned. *)
Lemma still_running {A : Type} (cut : nat -> option A) (n : nat) :
  {cut n = None} + {cut n <> None}.
Proof. destruct (cut n); [right; discriminate|left; reflexivity]. Defined.

(** What a loop yields in the end, given what its run yields when cut
    after [n] rounds: the value of a cut that has one, and [None] if no
    cut has one, which is a loop that does not end.  Whether some cut has
    a value is decided classically. *)
Definition in_the_end {A : Type} (cut : nat -> option A) : option A :=
  match sig_forall_dec (fun n => cut n = None) (still_running cut) with
  | inleft found => cut (proj1_sig found)
  | inright _ => None
  end.

(** Modelled from the spec: [t50(P)], "the temperature at which
    coverage(T, P) = 0.5, found by bisection over a physically bounded
    temperature interval; fails with RootNotBracketed if coverage does not
    cross 0.5 within the search interval".  [T_lo] and [T_hi] bound the
    interval and [eps] is the tolerance.  [None] is a call that does not
    return.  The engine is not among the sources. *)
Definition t50 (T_lo T_hi eps : R) (P : R) : option T50Result :=
  let f := fun T => coverage T P - 1 / 2 in
  if Rlt_dec 0 (f T_lo * f T_hi) then Some RootNotBracketed
  else option_map T50 (in_the_end (fun n => bisect_until f eps n T_lo T_hi)).

End Isotherm.

End ThermoEngine.

(** * Part II: properties *)

(** ** The laws of the computations *)

Module ProgFacts.
Import Js.
Local Open Scope js_scope.

Section Laws.

Context {E S A B C : Type}.

Lemma bind_ret_l (a : A) (k : A -> Prog E S B) (env : E) (s : S) :
  (await x <- ret a ;; k x) env s = k a env s.
Proof. reflexivity. Qed.

Lemma bind_ret_r (m : Prog E S A) (env : E) (s : S) :
  (await x <- m ;; ret x) env s = m env s.
Proof. unfold bind, ret. destruct (m env s) as [[a|e] s']; reflexivity. Qed.

Lemma bind_assoc (m : Prog E S A) (k : A -> Prog E S B) (h : B -> Prog E S C)
  (env : E) (s : S) :
  (await y <- (await x <- m ;; k x) ;; h y) env s
  = (await x <- m ;; await y <- k x ;; h y) env s.
Proof. unfold bind. destruct (m env s) as [[a|e] s']; reflexivity. Qed.

(** A throw skips what follows and keeps the state. *)
Lemma bind_throw (e : Error) (k : A -> Prog E S B) (env : E) (s : S) :
  (await x <- throw e ;; k x) env s = (Rejected e, s).
Proof. reflexivity. Qed.

(** [try]/[catch] turns a throw into the handler's completion, from the
    state the throw left. *)
Lemma try_catch_throw (m : Prog E S A) (handler : Error -> Prog E S A)
  (env : E) (s s' : S) (e : Error) :
  m env s = (Rejected e, s') ->
  try_catch m handler env s = handler e env s'.
Proof. intros Hm. unfold try_catch. rewrite Hm. reflexivity. Qed.

(** A block whose handler cannot throw never throws. *)
Lemma try_catch_total (m : Prog E S A) (handler : Error -> Prog E S A) (env : E) (s : S) :
  (forall e s', exists a s'', handler e env s' = (Fulfilled a, s'')) ->
  exists a s', try_catch m handler env s = (Fulfilled a, s').
Proof.
  intros Hhandler. unfold try_catch.
  destruct (m env s) as [[a|e] s']; [eauto|apply Hhandler].
Qed.

(** The cleanup of [finally] runs on either completion. *)
Lemma finally_runs (m : Prog E S A) (f : S -> S) (env : E) (s : S) :
  (finally m (modify f) env s).2 = f (m env s).2.
Proof. unfold finally, modify. destruct (m env s) as [o s']. reflexivity. Qed.

End Laws.

End ProgFacts.

(** ** The runtime functions on sample inputs *)

Module NumberExamples.
Import Js.

Example toFixed_zero : toFixed 4 0 = Some "0.0000"%string.
Proof. reflexivity. Qed.

Example toFixed_rounds_half_up : toFixed 2 0.125 = Some "0.13"%string.
Proof. reflexivity. Qed.

Example toFixed_negative : toFixed 2 (-0.987) = Some "-0.99"%string.
Proof. reflexivity. Qed.

Example toFixed_integer_part : toFixed 3 12.3456 = Some "12.346"%string.
Proof. reflexivity. Qed.

Example toFixed_no_fraction : toFixed 0 358.15 = Some "358"%string.
Proof. reflexivity. Qed.

Example trim_both_ends : trim "  T50 of 1Zr?  " = "T50 of 1Zr?"%string.
Proof. reflexivity. Qed.

Example trim_blank : trim "   " = ""%string.
Proof. reflexivity. Qed.

End NumberExamples.

(** ** The session id on requests and answers *)

Module ApiFacts.
Import Js Api.
Local Open Scope js_scope.

Lemma session_of_some (o : option string) (sid : string) :
  session_of o = Some sid -> o = Some sid /\ sid <> ""%string.
Proof.
  destruct o as [s|]; simpl; [|discriminate].
  destruct (String.eqb_spec s ""); [discriminate|].
  intros [= ->]. split; [reflexivity|assumption].
Qed.

Lemma with_session_header (sessionId : option string) (headers : gmap string string) :
  headers !! SESSION_HEADER = None ->
  with_session sessionId headers !! SESSION_HEADER = session_of sessionId.
Proof.
  intros Hfresh. destruct sessionId as [sid|]; simpl; [|exact Hfresh].
  destruct (String.eqb_spec sid ""); simpl; [exact Hfresh|].
  apply lookup_insert_eq.
Qed.

(** What [save_session] leaves in the store. *)
Lemma save_session_spec (res : Response) (net : Network) (b : Browser) :
  exists b',
    save_session res net b = (Fulfilled tt, b') /\
    sent b' = sent b /\
    stored_session b' = session_after (stored_session b) (Responded res).
Proof.
  unfold save_session, session_after, response_session, stored_session.
  destruct (resp_header res SESSION_HEADER) as [sid|]; simpl.
  - destruct (String.eqb_spec sid "") as [->|Hne]; simpl.
    + exists b. repeat split.
    + eexists. split; [reflexivity|]. simpl. split; [reflexivity|].
      rewrite lookup_insert_eq. simpl.
      destruct (String.eqb_spec sid ""); [contradiction|reflexivity].
  - exists b. repeat split.
Qed.

(** One request function seen from outside: the request it hands to
    [fetch] and the session id it leaves behind. *)
Definition sends_with_session (m : M value) : Prop :=
  forall (net : Network) (b : Browser),
  exists req,
    sent (m net b).2 = sent b ++ [req] /\
    session_header req = stored_session b /\
    stored_session (m net b).2 =
      session_after (stored_session b) (net (sent b) req).

(** A request handed to [fetch], the session id of its answer saved, and
    a conclusion [finish] that leaves the browser alone: the trace grows
    by the request and the held session id moves with the answer. *)
Lemma round_trip (req : Request) (finish : Response -> M value)
  (net : Network) (b : Browser) :
  (forall res b', (finish res net b').2 = b') ->
  sent ((await res <- fetch req ;; run save_session res ;; finish res) net b).2
  = sent b ++ [req] /\
  stored_session ((await res <- fetch req ;; run save_session res ;; finish res) net b).2
  = session_after (stored_session b) (net (sent b) req).
Proof.
  intros Hfinish. unfold bind, fetch.
  destruct (net (sent b) req) as [res|e]; simpl; [|split; reflexivity].
  destruct (save_session_spec res net (mkBrowser (localStorage b) (sent b ++ [req])))
    as (b' & Hsave & Hsent & Hsess).
  rewrite Hsave, Hfinish. split; assumption.
Qed.

Lemma conclusion_keeps_browser (res : Response) (failure : Error)
  (net : Network) (b : Browser) :
  ((if negb (resp_ok res) then throw failure else lift (resp_json res)) net b).2 = b.
Proof. destruct (negb (resp_ok res)); reflexivity. Qed.

Lemma fetchJson_sends_with_session (url : string) (options : Options) :
  opt_headers options = None ->
  sends_with_session (fetchJson url options).
Proof.
  intros Hnone net b. unfold fetchJson, getSessionId.
  unfold bind at 1. rewrite Hnone. cbn [default spread_over].
  eexists. split; [|split].
  - apply round_trip. intros. apply conclusion_keeps_browser.
  - unfold session_header. cbn [req_headers]. apply with_session_header.
    rewrite lookup_union_r by apply lookup_empty.
    apply lookup_singleton_ne. discriminate.
  - apply round_trip. intros. apply conclusion_keeps_browser.
Qed.

Lemma upload_sends_with_session (path project : string) (file : File) :
  sends_with_session (upload path project file).
Proof.
  intros net b. unfold upload, getSessionId. unfold bind at 1.
  eexists. split; [|split].
  - apply round_trip. intros. apply conclusion_keeps_browser.
  - unfold session_header. cbn [req_headers]. apply with_session_header, lookup_empty.
  - apply round_trip. intros. apply conclusion_keeps_browser.
Qed.

Lemma perform_sends_with_session (c : ApiCall) : sends_with_session (perform c).
Proof.
  destruct c; simpl;
    first [ apply upload_sends_with_session
          | apply fetchJson_sends_with_session; reflexivity ].
Qed.

(** C4.  Every request the client issues (through [fetchJson], [uploadCsv]
    or [uploadXyz]) hands exactly one request to [fetch]; that request
    carries the stored session id in [X-Session-ID], and carries no such
    header when none is stored; the session id of the answer, whatever the
    HTTP status, replaces the stored one; and the request of whichever
    call comes next carries the id so obtained. *)
Theorem session_id_exchanged_on_every_request
  (net : Network) (c : ApiCall) (b : Browser) :
  exists req,
    sent (perform c net b).2 = sent b ++ [req] /\
    session_header req = stored_session b /\
    stored_session (perform c net b).2 =
      session_after (stored_session b) (net (sent b) req) /\
    forall (net' : Network) (c' : ApiCall),
    exists req',
      sent (perform c' net' (perform c net b).2).2 =
        sent (perform c net b).2 ++ [req'] /\
      session_header req' = session_after (stored_session b) (net (sent b) req).
Proof.
  destruct (perform_sends_with_session c net b) as (req & Hsent & Hhdr & Hafter).
  exists req. repeat split; try assumption.
  intros net' c'.
  destruct (perform_sends_with_session c' net' (perform c net b).2)
    as (req' & Hsent' & Hhdr' & _).
  exists req'. split; [exact Hsent'|]. rewrite Hhdr'. exact Hafter.
Qed.

(** The status of the answer plays no part: an error response that names a
    session id has it stored, although the call itself rejects. *)
Lemma session_id_saved_from_error_response
  (net : Network) (c : ApiCall) (b : Browser) (req : Request)
  (r : Response) (sid : string) :
  sent (perform c net b).2 = sent b ++ [req] ->
  net (sent b) req = Responded r ->
  resp_ok r = false ->
  resp_header r SESSION_HEADER = Some sid ->
  sid <> ""%string ->
  localStorage (perform c net b).2 !! SESSION_KEY = Some sid.
Proof.
  intros Hsent Hnet _ Hhdr Hne.
  destruct (perform_sends_with_session c net b) as (req0 & Hsent0 & _ & Hafter).
  rewrite Hsent in Hsent0. apply app_inv_head in Hsent0. injection Hsent0 as <-.
  rewrite Hnet in Hafter. unfold session_after, response_session in Hafter.
  rewrite Hhdr in Hafter. simpl in Hafter.
  destruct (String.eqb_spec sid ""); [contradiction|].
  apply session_of_some in Hafter. tauto.
Qed.

(** The session ids a run of requests is expected to carry: each one the
    id held when it is issued, the held id moving with every answer. *)
Fixpoint carries_sessions (net : Network) (held : option string)
  (history reqs : list Request) : Prop :=
  match reqs with
  | [] => True
  | req :: rest =>
      session_header req = held /\
      carries_sessions net (session_after held (net history req)) (history ++ [req]) rest
  end.

(** X4.  Any number of calls made one after the other: one request per
    call, each carrying the latest session id received before it. *)
Lemma perform_all_carries_sessions (net : Network) (cs : list ApiCall) :
  forall b : Browser,
  exists reqs,
    sent (perform_all cs net b).2 = sent b ++ reqs /\
    length reqs = length cs /\
    carries_sessions net (stored_session b) (sent b) reqs.
Proof.
  induction cs as [|c cs IH]; intros b; simpl.
  - exists []. rewrite app_nil_r. repeat split.
  - unfold bind, attempt.
    destruct (perform_sends_with_session c net b) as (req & Hsent & Hhdr & Hafter).
    destruct (perform c net b) as [o b1] eqn:Hrun. simpl in *.
    destruct (IH b1) as (reqs & Hsent' & Hlen & Hcarry).
    exists (req :: reqs). rewrite Hsent'. rewrite Hsent, <- app_assoc. simpl.
    split; [reflexivity|]. split; [congruence|].
    split; [exact Hhdr|]. rewrite <- Hafter, <- Hsent. exact Hcarry.
Qed.

(** The one way [fetchJson] could drop the id: [init] spreads [options]
    after [headers], so a caller passing [options.headers] would send those
    instead.  No function of the module passes any. *)
Remark fetchJson_caller_headers_win (net : Network) (b : Browser) (url : string)
  (options : Options) (hs : gmap string string) :
  opt_headers options = Some hs ->
  exists req,
    sent (fetchJson url options net b).2 = sent b ++ [req] /\
    req_headers req = hs.
Proof.
  intros Hsome. unfold fetchJson, bind, getSessionId, fetch. simpl.
  rewrite Hsome. simpl.
  set (req := mkRequest _ _ _ _ _).
  exists req. split; [|reflexivity].
  destruct (net (sent b) req) as [res|e]; simpl; [|reflexivity].
  destruct (save_session_spec res net (mkBrowser (localStorage b) (sent b ++ [req])))
    as (b' & Hsave & Hsent & _).
  rewrite Hsave. destruct (negb (resp_ok res)); exact Hsent.
Qed.

(** A server that answers every request with 401 and a session id. *)
Definition refusing_network : Network :=
  fun _ _ =>
    Responded (mkResponse 401
                 (fun name => if String.eqb name SESSION_HEADER then Some "s-1"%string else None)
                 "unauthorised" (Rejected (mkError "no JSON"))).

(** The first request goes out without the header; the id of the error
    answer is stored, and the requests after it carry it. *)
Example session_from_error_answer :
  map session_header
    (sent (perform_all
             [GetProjects; SendChat "T50?" "zr-tio2";
              UploadXyz "demo" (mkFile "a.xyz" "1 atom")]
             refusing_network (mkBrowser ∅ [])).2)
  = [None; Some "s-1"%string; Some "s-1"%string].
Proof. vm_compute. reflexivity. Qed.

Example error_answer_rejects :
  (perform GetProjects refusing_network (mkBrowser ∅ [])).1
  = Rejected (mkError "API error 401: unauthorised").
Proof. vm_compute. reflexivity. Qed.

(** *** One call, start to end *)

(** The two calls that do not go through [fetchJson]. *)
Definition is_upload (c : ApiCall) : bool :=
  match c with
  | UploadCsv _ _ | UploadXyz _ _ => true
  | _ => false
  end.

(** The message of the [Error] a call throws on an answer that is not
    [ok]: [fetchJson] puts the status in front of the body, the uploads
    throw the body as it is. *)
Definition failure_text (c : ApiCall) (r : Response) : string :=
  if is_upload c then resp_text r
  else ("API error " ++ pretty (resp_status r) ++ ": " ++ resp_text r)%string.

(** What a call settles to, given what [fetch] settled to. *)
Definition settles (c : ApiCall) (o : FetchOutcome) : Outcome value :=
  match o with
  | Responded r => if resp_ok r then resp_json r else Rejected (mkError (failure_text c r))
  | NetworkError e => Rejected e
  end.

(** [localStorage] once an answer has been processed. *)
Definition storage_after (store : gmap string string) (o : FetchOutcome)
  : gmap string string :=
  match response_session o with
  | Some sid => <[SESSION_KEY := sid]> store
  | None => store
  end.

(** The headers of a call before the session id joins them. *)
Definition base_headers (c : ApiCall) : gmap string string :=
  if is_upload c then ∅ else {["Content-Type" := "application/json"]}.

Lemma save_session_run (res : Response) (net : Network) (b : Browser) :
  save_session res net b
  = (Fulfilled tt, mkBrowser (storage_after (localStorage b) (Responded res)) (sent b)).
Proof.
  unfold save_session, storage_after, response_session, session_of.
  destruct b as [store trace]. simpl.
  destruct (resp_header res SESSION_HEADER) as [sid|]; simpl; [|reflexivity].
  destruct (String.eqb sid ""); reflexivity.
Qed.

Lemma exchange_run (req : Request) (failure : Response -> Error)
  (net : Network) (b : Browser) :
  (await res <- fetch req ;;
   run save_session res ;;
   if negb (resp_ok res) then throw (failure res) else lift (resp_json res)) net b
  = (match net (sent b) req with
     | Responded r => if resp_ok r then resp_json r else Rejected (failure r)
     | NetworkError e => Rejected e
     end,
     mkBrowser (storage_after (localStorage b) (net (sent b) req)) (sent b ++ [req])).
Proof.
  unfold bind, fetch. destruct (net (sent b) req) as [res|e]; simpl; [|reflexivity].
  rewrite save_session_run. simpl. destruct (resp_ok res); reflexivity.
Qed.

Lemma fetchJson_run (url : string) (options : Options) (net : Network) (b : Browser) :
  opt_headers options = None ->
  let req := mkRequest (BASE ++ url) (opt_method options)
               (with_session (localStorage b !! SESSION_KEY)
                  {["Content-Type" := "application/json"]})
               (opt_body options) "include" in
  fetchJson url options net b
  = (match net (sent b) req with
     | Responded r =>
         if resp_ok r then resp_json r
         else Rejected (mkError ("API error " ++ pretty (resp_status r) ++ ": " ++ resp_text r))
     | NetworkError e => Rejected e
     end,
     mkBrowser (storage_after (localStorage b) (net (sent b) req)) (sent b ++ [req])).
Proof.
  intros Hnone req. unfold fetchJson. unfold bind at 1, getSessionId.
  rewrite Hnone. cbn [default spread_over].
  rewrite (left_id_L ∅ (∪)). apply exchange_run.
Qed.

Lemma upload_run (path project : string) (file : File) (net : Network) (b : Browser) :
  let req := mkRequest (BASE ++ "/projects/" ++ project ++ path) (Some "POST")
               (with_session (localStorage b !! SESSION_KEY) ∅)
               (Some (FormBody file)) "include" in
  upload path project file net b
  = (DataUpload.upload_settles (net (sent b) req),
     mkBrowser (storage_after (localStorage b) (net (sent b) req)) (sent b ++ [req])).
Proof.
  intros req. unfold upload. unfold bind at 1, getSessionId.
  rewrite exchange_run. reflexivity.
Qed.

(** One call, start to end: the request it sends, what it settles to and
    the browser it leaves. *)
Lemma perform_run (c : ApiCall) (net : Network) (b : Browser) :
  exists req,
    perform c net b
    = (settles c (net (sent b) req),
       mkBrowser (storage_after (localStorage b) (net (sent b) req)) (sent b ++ [req])) /\
    req_credentials req = "include"%string /\
    req_headers req = with_session (localStorage b !! SESSION_KEY) (base_headers c) /\
    (is_upload c = true ->
     req_method req = Some "POST"%string /\ exists file, req_body req = Some (FormBody file)).
Proof.
  destruct c; simpl perform;
    first [ eexists; split; [apply upload_run|];
            repeat split; eauto
          | eexists; split; [apply fetchJson_run; reflexivity|];
            repeat split; discriminate ].
Qed.

(** The project list after a refresh: the answer, or the list as it was
    if the request failed. *)
Definition refreshed (o : Outcome value) (before : value) : value :=
  match o with
  | Fulfilled ps => ps
  | Rejected _ => before
  end.

Lemma getProjects_sent (net : Network) (b : Browser) :
  exists refresh,
    sent (getProjects net b).2 = sent b ++ [refresh] /\
    req_url refresh = "/api/projects"%string /\ req_method refresh = None.
Proof.
  unfold getProjects. rewrite fetchJson_run by reflexivity. simpl. eauto.
Qed.

Lemma with_session_other (sessionId : option string) (headers : gmap string string)
  (k : string) :
  k <> SESSION_HEADER ->
  with_session sessionId headers !! k = headers !! k.
Proof.
  intros Hk. unfold with_session. destruct sessionId as [sid|]; [|reflexivity].
  destruct (truthy_str (Some sid)); [|reflexivity].
  apply lookup_insert_ne. congruence.
Qed.

(** X1.  What a call settles to is decided by the answer to its one
    request: a network failure rejects with the error of [fetch]; an answer
    outside 200-299 rejects with the message "API error <status>: <body>"
    (for the two uploads: with the bare body), whatever the body holds; an
    answer within 200-299 settles as [res.json()] does, so it rejects when
    the body is not JSON. *)
Theorem api_call_settles_by_status (net : Network) (c : ApiCall) (b : Browser) :
  exists req,
    sent (perform c net b).2 = sent b ++ [req] /\
    (perform c net b).1 = settles c (net (sent b) req).
Proof.
  destruct (perform_run c net b) as (req & Hrun & _).
  exists req. rewrite Hrun. split; reflexivity.
Qed.

(** X2.  The request of every call is sent with [credentials: 'include'];
    its headers are [Content-Type: application/json] (absent on the two
    uploads, whose body is the form with the file, sent by POST) and the
    session header, and nothing else. *)
Theorem api_request_headers (net : Network) (c : ApiCall) (b : Browser) :
  exists req,
    sent (perform c net b).2 = sent b ++ [req] /\
    req_credentials req = "include"%string /\
    req_headers req !! "Content-Type"
    = (if is_upload c then None else Some "application/json"%string) /\
    (forall k, k <> "Content-Type"%string -> k <> SESSION_HEADER ->
               req_headers req !! k = None) /\
    (is_upload c = true ->
     req_method req = Some "POST"%string /\ exists file, req_body req = Some (FormBody file)).
Proof.
  destruct (perform_run c net b) as (req & Hrun & Hcred & Hheaders & Hupload).
  exists req. rewrite Hrun. split; [reflexivity|]. split; [exact Hcred|].
  rewrite Hheaders. split; [|split; [|exact Hupload]].
  - rewrite with_session_other by discriminate.
    unfold base_headers. destruct (is_upload c); reflexivity.
  - intros k Hct Hsess. rewrite with_session_other by exact Hsess.
    unfold base_headers. destruct (is_upload c); [apply lookup_empty|].
    apply lookup_singleton_ne. congruence.
Qed.

(** X3.  A call writes no item of [localStorage] but the session id, and
    never removes or blanks a session id that is stored. *)
Theorem session_is_the_only_item_written (net : Network) (c : ApiCall) (b : Browser) :
  (forall k, k <> SESSION_KEY ->
             localStorage (perform c net b).2 !! k = localStorage b !! k) /\
  (forall sid, stored_session b = Some sid ->
               exists sid', stored_session (perform c net b).2 = Some sid').
Proof.
  destruct (perform_run c net b) as (req & Hrun & _). rewrite Hrun. simpl. split.
  - intros k Hk. unfold storage_after.
    destruct (response_session (net (sent b) req)); [|reflexivity].
    apply lookup_insert_ne. congruence.
  - intros sid Hsid. unfold stored_session, storage_after. simpl.
    destruct (response_session (net (sent b) req)) as [sid'|] eqn:Hresp.
    + exists sid'. rewrite lookup_insert_eq.
      unfold response_session in Hresp.
      destruct (net (sent b) req) as [r|e]; [|discriminate].
      apply session_of_some in Hresp as [_ Hne]. simpl.
      destruct (String.eqb_spec sid' ""); [contradiction|reflexivity].
    + exists sid. exact Hsid.
Qed.

End ApiFacts.

(** ** One response per chat query *)

Module ChatPanelFacts.
Import Js Api ChatPanel.
Local Open Scope js_scope.

(** The query [handleSend] works on when the Enter key or a quick
    question submits. *)
Definition query_of (how : Submit) (st : State) : string :=
  match how with
  | QuickQuestion q => if truthy (VStr q) then trim q else trim (input st)
  | _ => trim (input st)
  end.

Lemma argument_trimmed (how : Submit) (st : State) :
  how <> SendButton ->
  (if truthy (argument how) then call_trim (argument how) else Fulfilled (trim (input st)))
  = Fulfilled (query_of how st).
Proof.
  destruct how as [|q|]; simpl; intros Hhow; [reflexivity| |contradiction].
  destruct (negb (String.eqb q "")); reflexivity.
Qed.

(** Nothing to send, or a request in flight: nothing happens at all. *)
Lemma handleSend_idle (project : string) (how : Submit)
  (net : Network) (st : State) (b : Browser) :
  how <> SendButton ->
  query_of how st = ""%string \/ loading st = true ->
  submit project how net (st, b) = (Fulfilled tt, (st, b)).
Proof.
  intros Hhow Hidle. unfold submit, handleSend. run_prog.
  rewrite (argument_trimmed how st Hhow).
  destruct Hidle as [-> | ->]; simpl; [reflexivity|].
  rewrite orb_true_r. reflexivity.
Qed.

(** A query sent through the Enter key or a quick question: one user
    message and one reply are appended, in this order, one request goes
    out, and the panel is no longer loading. *)
Lemma handleSend_answers_once (project : string) (how : Submit)
  (net : Network) (st : State) (b : Browser) :
  how <> SendButton ->
  query_of how st <> ""%string ->
  loading st = false ->
  let q := query_of how st in
  let sent_chat := sendChat q project net b in
  exists st',
    submit project how net (st, b) = (Fulfilled tt, (st', sent_chat.2)) /\
    messages st' = messages st ++ [user_message q; reply_to sent_chat.1] /\
    loading st' = false /\
    input st' = ""%string.
Proof.
  intros Hhow Hq Hl q sent_chat.
  unfold submit, handleSend. run_prog. rewrite (argument_trimmed how st Hhow).
  fold q. destruct (String.eqb_spec q "") as [Hempty|_]; [contradiction|].
  rewrite Hl. simpl.
  subst sent_chat. destruct (sendChat q project net b) as [[result|err] b'] eqn:Hchat; simpl.
  - destruct (prop result "active_agents") as [active|err] eqn:Hprop; simpl.
    + eexists. split; [reflexivity|]. simpl.
      rewrite <- app_assoc. simpl. repeat split.
    + eexists. split; [reflexivity|]. simpl.
      rewrite <- app_assoc. simpl. repeat split.
  - eexists. split; [reflexivity|]. simpl.
    rewrite <- app_assoc. simpl. repeat split.
Qed.

(** The Send button hands [handleSend] the click event.  The event is
    truthy and has no [trim]: the call throws before any state is set. *)
Lemma handleSend_event_throws (project : string)
  (callback : option (Activity -> Prog Network UI unit))
  (fields : list (string * value)) (net : Network) (st : State) (b : Browser) :
  handleSend project callback (VObj fields) net (st, b)
  = (Rejected (type_error "quickQuery.trim is not a function"), (st, b)).
Proof. reflexivity. Qed.

(** C3.  A query typed into the box and sent with the Send button gets no
    response.  The button is enabled (the trimmed input is not empty, no
    request is in flight), yet [handleSend], handed the click event, throws
    at [quickQuery.trim()]: no message is appended, no request is sent, and
    the input stays as it was. *)
Theorem send_button_query_gets_no_response (net : Network) (b : Browser) :
  let st := mkState [] "What is the T50 of 1Zr?" false (VArr []) [] in
  enabled SendButton st = true /\
  trim (input st) = "What is the T50 of 1Zr?"%string /\
  loading st = false /\
  submit "zr-tio2" SendButton net (st, b)
  = (Rejected (type_error "quickQuery.trim is not a function"), (st, b)) /\
  messages (submit "zr-tio2" SendButton net (st, b)).2.1 = [] /\
  sent (submit "zr-tio2" SendButton net (st, b)).2.2 = sent b.
Proof.
  intros st. unfold submit, argument, clickEvent.
  rewrite handleSend_event_throws.
  repeat split; reflexivity.
Qed.

(** The same query sent with the Enter key is answered once. *)
Example enter_key_query_is_answered (net : Network) (b : Browser) :
  let st := mkState [] "What is the T50 of 1Zr?" false (VArr []) [] in
  let after := submit "zr-tio2" EnterKey net (st, b) in
  map role (messages after.2.1) = [user; assistant] /\
  loading after.2.1 = false.
Proof.
  intros st after.
  destruct (handleSend_answers_once "zr-tio2" EnterKey net st b)
    as (st' & Hrun & Hmsgs & Hload & _); [discriminate|discriminate|reflexivity|].
  subst after. rewrite Hrun. simpl.
  rewrite Hmsgs. split; [|exact Hload]. simpl. f_equal. f_equal.
  unfold reply_to. destruct (sendChat _ _ net b).1 as [result|err]; [|reflexivity].
  destruct (prop result "active_agents"); reflexivity.
Qed.

Import ApiFacts.

(** *** Trimming *)

Lemma trim_start_head (s : string) :
  match trim_start s with
  | EmptyString => True
  | String c _ => is_space c = false
  end.
Proof.
  induction s as [|c s IH]; simpl; [exact I|].
  destruct (is_space c) eqn:Hc; [exact IH|]. exact Hc.
Qed.

Lemma trim_end_idempotent (s : string) : trim_end (trim_end s) = trim_end s.
Proof.
  induction s as [|c s IH]; simpl; [reflexivity|].
  destruct (trim_end s) as [|d kept] eqn:Hs.
  - destruct (is_space c) eqn:Hc; simpl; [reflexivity|]. rewrite Hc. reflexivity.
  - simpl in *. rewrite IH. reflexivity.
Qed.

Lemma trim_end_head (c : ascii) (s : string) :
  is_space c = false -> exists kept, trim_end (String c s) = String c kept.
Proof.
  intros Hc. simpl. destruct (trim_end s); [rewrite Hc|]; eauto.
Qed.

(** Trimming a trimmed string changes nothing: a trimmed string has no
    white space at either end. *)
Lemma trim_idempotent (s : string) : trim (trim s) = trim s.
Proof.
  unfold trim. pose proof (trim_start_head s) as Hhead.
  destruct (trim_start s) as [|c t]; [reflexivity|].
  destruct (trim_end_head c t Hhead) as (kept & Hkept).
  rewrite Hkept. simpl trim_start. rewrite Hhead, <- Hkept.
  apply trim_end_idempotent.
Qed.

Lemma query_of_trimmed (how : Submit) (st : State) :
  trim (query_of how st) = query_of how st.
Proof.
  destruct how as [|q|]; simpl; try apply trim_idempotent.
  destruct (negb (String.eqb q "")); apply trim_idempotent.
Qed.

(** *** What a submitted query leaves behind *)

(** The entry the agent log gains for a settled chat call. *)
Definition log_of (q : string) (o : Outcome value) : list Activity :=
  match o with
  | Fulfilled result =>
      match prop result "active_agents" with
      | Fulfilled _ =>
          [mkActivity q (opt_prop result "active_agents") (opt_prop result "agent_results")]
      | Rejected _ => []
      end
  | Rejected _ => []
  end.

(** A query sent through the Enter key or a quick question, start to
    end. *)
Lemma handleSend_run (project : string) (how : Submit)
  (net : Network) (st : State) (b : Browser) :
  how <> SendButton ->
  query_of how st <> ""%string ->
  loading st = false ->
  let q := query_of how st in
  let chat := sendChat q project net b in
  submit project how net (st, b)
  = (Fulfilled tt,
     (mkState (messages st ++ [user_message q; reply_to chat.1]) "" false (VArr [])
        (agentLog st ++ log_of q chat.1),
      chat.2)).
Proof.
  intros Hhow Hq Hl q chat.
  unfold submit, handleSend. run_prog. rewrite (argument_trimmed how st Hhow).
  fold q. destruct (String.eqb_spec q "") as [Hempty|_]; [contradiction|].
  rewrite Hl. simpl.
  subst chat. destruct (sendChat q project net b) as [[result|err] b'] eqn:Hchat; simpl.
  - destruct (prop result "active_agents") as [active|err] eqn:Hprop; simpl;
      rewrite <- app_assoc, ?app_nil_r; reflexivity.
  - rewrite <- app_assoc, app_nil_r. reflexivity.
Qed.

(** X5.  A query submitted with the Enter key or a quick question, when it
    is not blank and no request is in flight, goes out as one POST to
    [/api/chat] whose body holds the query with the white space at its
    ends removed (trimming it again changes nothing) and the project; the
    input box is emptied, also when a quick question was sent and not the
    text in the box. *)
Theorem chat_query_is_sent_trimmed (project : string) (how : Submit)
  (net : Network) (st : State) (b : Browser) :
  how <> SendButton ->
  query_of how st <> ""%string ->
  loading st = false ->
  exists req q,
    sent (submit project how net (st, b)).2.2 = sent b ++ [req] /\
    req_url req = "/api/chat"%string /\
    req_method req = Some "POST"%string /\
    req_body req = Some (JsonBody (VObj [("query", VStr q); ("project", VStr project)])) /\
    q = query_of how st /\ trim q = q /\
    input (submit project how net (st, b)).2.1 = ""%string.
Proof.
  intros Hhow Hq Hl. rewrite (handleSend_run project how net st b Hhow Hq Hl).
  unfold sendChat. rewrite fetchJson_run by reflexivity. simpl.
  eexists. exists (query_of how st).
  split; [reflexivity|]. repeat split. apply query_of_trimmed.
Qed.

(** X6.  When the server answers the chat request with a status outside
    200-299, the thread gains the user's message and an assistant message
    reading "Error: API error <status>: <body>", the agent log gains
    nothing, and the panel is ready for the next query. *)
Theorem failed_chat_is_reported_in_the_thread (project : string) (how : Submit)
  (net : Network) (st : State) (b : Browser) (r : Response) :
  how <> SendButton ->
  query_of how st <> ""%string ->
  loading st = false ->
  (forall req, net (sent b) req = Responded r) ->
  resp_ok r = false ->
  let after := (submit project how net (st, b)).2.1 in
  messages after
  = messages st ++
      [user_message (query_of how st);
       mkMessage assistant
         (VStr ("Error: API error " ++ pretty (resp_status r) ++ ": " ++ resp_text r))
         VUndefined VUndefined] /\
  agentLog after = agentLog st /\
  loading after = false.
Proof.
  intros Hhow Hq Hl Hnet Hbad. rewrite (handleSend_run project how net st b Hhow Hq Hl).
  unfold sendChat. rewrite fetchJson_run by reflexivity.
  rewrite Hnet, Hbad. simpl. rewrite app_nil_r. repeat split.
Qed.

(** X7.  The agent log gains an entry exactly when the chat call was
    answered with something that has properties (anything but [null]): the
    entry holds the trimmed query and the agents and agent results that
    the assistant message shows.  A failed call adds none.  Either way
    the active agents are reset to none. *)
Theorem answered_queries_enter_the_agent_log (project : string) (how : Submit)
  (net : Network) (st : State) (b : Browser) :
  how <> SendButton ->
  query_of how st <> ""%string ->
  loading st = false ->
  let q := query_of how st in
  let o := (sendChat q project net b).1 in
  let after := (submit project how net (st, b)).2.1 in
  agentLog after = agentLog st ++ log_of q o /\
  activeAgents after = VArr [] /\
  (forall entry, log_of q o = [entry] ->
     act_query entry = q /\
     act_agents entry = agents (reply_to o) /\
     act_agentResults entry = agentResults (reply_to o)) /\
  (log_of q o = [] ->
   exists msg, content (reply_to o) = VStr ("Error: " ++ msg)).
Proof.
  intros Hhow Hq Hl q o after. subst after.
  rewrite (handleSend_run project how net st b Hhow Hq Hl). simpl.
  fold q. fold o. split; [reflexivity|]. split; [reflexivity|].
  unfold log_of, reply_to.
  destruct o as [result|err]; [destruct (prop result "active_agents")|].
  - split; [|discriminate]. intros entry [= <-]. repeat split.
  - split; [discriminate|]. eauto.
  - split; [discriminate|]. eauto.
Qed.

(** X8.  While a request is in flight, submitting changes nothing,
    whichever way the query is submitted: no message, no request, the
    input box as it was. *)
Theorem submit_while_loading_changes_nothing (project : string) (how : Submit)
  (net : Network) (st : State) (b : Browser) :
  loading st = true ->
  (submit project how net (st, b)).2 = (st, b).
Proof.
  intros Hl. destruct how as [|q|].
  - rewrite handleSend_idle; [reflexivity|discriminate|auto].
  - rewrite handleSend_idle; [reflexivity|discriminate|auto].
  - unfold submit, argument, clickEvent. rewrite handleSend_event_throws. reflexivity.
Qed.

(** X30.  However a query is submitted and whatever the state, the
    thread and the agent log only grow at the end: the messages there
    were stay first and unchanged, followed by nothing or by the user's
    message and one assistant message; the log gains at most one
    entry. *)
Theorem thread_and_log_only_grow (project : string) (how : Submit)
  (net : Network) (st : State) (b : Browser) :
  let after := (submit project how net (st, b)).2.1 in
  exists said logged,
    messages after = messages st ++ said /\
    agentLog after = agentLog st ++ logged /\
    (said = [] /\ logged = [] \/
     exists q reply,
       said = [user_message q; reply] /\ role reply = assistant /\ length logged <= 1).
Proof.
  intros after. subst after.
  assert (Hidle : (submit project how net (st, b)).2 = (st, b) ->
                  exists said logged,
                    messages (submit project how net (st, b)).2.1 = messages st ++ said /\
                    agentLog (submit project how net (st, b)).2.1 = agentLog st ++ logged /\
                    (said = [] /\ logged = [] \/
                     exists q reply,
                       said = [user_message q; reply] /\ role reply = assistant /\
                       length logged <= 1)).
  { intros ->. exists [], []. rewrite !app_nil_r. auto. }
  destruct (loading st) eqn:Hl.
  { apply Hidle. destruct how as [|q|].
    - rewrite handleSend_idle; [reflexivity|discriminate|auto].
    - rewrite handleSend_idle; [reflexivity|discriminate|auto].
    - unfold submit, argument, clickEvent. rewrite handleSend_event_throws. reflexivity. }
  assert (Hsent : how <> SendButton -> query_of how st <> ""%string ->
                  exists said logged,
                    messages (submit project how net (st, b)).2.1 = messages st ++ said /\
                    agentLog (submit project how net (st, b)).2.1 = agentLog st ++ logged /\
                    (said = [] /\ logged = [] \/
                     exists q reply,
                       said = [user_message q; reply] /\ role reply = assistant /\
                       length logged <= 1)).
  { intros Hhow Hq. rewrite (handleSend_run project how net st b Hhow Hq Hl). simpl.
    eexists. eexists. split; [reflexivity|]. split; [reflexivity|]. right.
    eexists. eexists. split; [reflexivity|]. split.
    - unfold reply_to. destruct (sendChat _ _ net b).1 as [result|err]; [|reflexivity].
      destruct (prop result "active_agents"); reflexivity.
    - unfold log_of. destruct (sendChat _ _ net b).1 as [result|err]; [|simpl; lia].
      destruct (prop result "active_agents"); simpl; lia. }
  destruct how as [|q|].
  - destruct (String.eqb_spec (query_of EnterKey st) "") as [Hq|Hq].
    + apply Hidle. rewrite handleSend_idle; [reflexivity|discriminate|auto].
    + apply Hsent; [discriminate|exact Hq].
  - destruct (String.eqb_spec (query_of (QuickQuestion q) st) "") as [Hq|Hq].
    + apply Hidle. rewrite handleSend_idle; [reflexivity|discriminate|auto].
    + apply Hsent; [discriminate|exact Hq].
  - apply Hidle. unfold submit, argument, clickEvent. rewrite handleSend_event_throws.
    reflexivity.
Qed.

(** *** Runs of the panel *)

(** A query typed with white space around it. *)
Definition asking : State :=
  mkState [] "  What is the T50 of 1Zr?  " false (VArr []) [].

(** The same panel while a request is in flight. *)
Definition waiting : State :=
  mkState [] "What is the T50 of 1Zr?" true (VArr []) [].

(** The answer of [refusing_network]. *)
Definition refusal : Response :=
  mkResponse 401
    (fun name => if String.eqb name SESSION_HEADER then Some "s-1"%string else None)
    "unauthorised" (Rejected (mkError "no JSON")).

(** A server that answers every chat with the thermodynamics agent. *)
Definition answering_network : Network :=
  fun _ _ =>
    Responded (mkResponse 200 (fun _ => None) "ok"
                 (Fulfilled (VObj [("response", VStr "T50 is 300 K");
                                   ("active_agents", VArr [VStr "thermo"]);
                                   ("agent_results", VObj [])]))).

Lemma chat_query_witness :
  exists req,
    sent (submit "zr-tio2" EnterKey refusing_network (asking, mkBrowser ∅ [])).2.2 = [req] /\
    req_body req
    = Some (JsonBody (VObj [("query", VStr "What is the T50 of 1Zr?");
                            ("project", VStr "zr-tio2")])).
Proof.
  destruct (chat_query_is_sent_trimmed "zr-tio2" EnterKey refusing_network asking
              (mkBrowser ∅ []))
    as (req & q & Hsent & _ & _ & Hbody & Hq & _);
    [discriminate|vm_compute; discriminate|reflexivity|].
  exists req. split; [exact Hsent|]. rewrite Hbody, Hq. reflexivity.
Defined.

Lemma failed_chat_witness :
  messages (submit "zr-tio2" EnterKey refusing_network (asking, mkBrowser ∅ [])).2.1
  = [user_message "What is the T50 of 1Zr?";
     mkMessage assistant (VStr "Error: API error 401: unauthorised") VUndefined VUndefined].
Proof.
  destruct (failed_chat_is_reported_in_the_thread "zr-tio2" EnterKey refusing_network asking
              (mkBrowser ∅ []) refusal) as (Hmessages & _);
    [discriminate|vm_compute; discriminate|reflexivity|reflexivity|reflexivity|].
  exact Hmessages.
Defined.

Lemma agent_log_witness :
  agentLog (submit "zr-tio2" (QuickQuestion "Compare the systems")
              answering_network (asking, mkBrowser ∅ [])).2.1
  = [mkActivity "Compare the systems" (VArr [VStr "thermo"]) (VObj [])].
Proof.
  destruct (answered_queries_enter_the_agent_log "zr-tio2" (QuickQuestion "Compare the systems")
              answering_network asking (mkBrowser ∅ [])) as (Hlog & _);
    [discriminate|vm_compute; discriminate|reflexivity|].
  exact Hlog.
Defined.

Lemma submit_while_loading_witness :
  (submit "zr-tio2" SendButton refusing_network (waiting, mkBrowser ∅ [])).2
  = (waiting, mkBrowser ∅ []).
Proof.
  apply (submit_while_loading_changes_nothing "zr-tio2" SendButton refusing_network waiting
           (mkBrowser ∅ [])).
  reflexivity.
Defined.

End ChatPanelFacts.

(** ** One entry per uploaded file *)

Module DataUploadFacts.
Import Js Api ApiFacts DataUpload.
Local Open Scope js_scope.

Lemma uploadXyz_settles (project : string) (file : File) (net : Network) (b : Browser) :
  exists req b',
    uploadXyz project file net b = (upload_settles (net (sent b) req), b') /\
    sent b' = sent b ++ [req] /\
    req_url req = (BASE ++ "/projects/" ++ project ++ "/upload-xyz")%string /\
    req_body req = Some (FormBody file).
Proof.
  unfold uploadXyz, upload, bind, getSessionId, fetch. simpl.
  set (req := mkRequest _ _ _ _ _). exists req.
  destruct (net (sent b) req) as [res|e]; simpl.
  - destruct (save_session_spec res net (mkBrowser (localStorage b) (sent b ++ [req])))
      as (b' & Hsave & Hsent & _).
    exists b'. rewrite Hsave. unfold resp_ok in *.
    destruct ((200 <=? resp_status res)%N && (resp_status res <=? 299)%N); simpl;
      repeat split; try assumption;
      unfold lift; destruct (resp_json res); reflexivity.
  - eexists. repeat split.
Qed.

Lemma uploads_length (net : Network) (project : string)
  (history : list Request) (files : list File) (reqs : list Request)
  (entries : list (gmap string value)) :
  uploads net project history files reqs entries ->
  length reqs = length files /\ length entries = length files.
Proof.
  induction 1 as [|history file files req reqs entry entries _ _ _ _ [IHr IHe]]; simpl.
  - split; reflexivity.
  - split; congruence.
Qed.

Lemma list_to_map_assoc (fields : list (string * value)) (k : string) :
  (list_to_map fields : gmap string value) !! k = assoc k fields.
Proof.
  induction fields as [|[k' v'] fields IH]; simpl; [apply lookup_empty|].
  destruct (String.eqb_spec k k') as [->|Hne].
  - apply lookup_insert_eq.
  - rewrite lookup_insert_ne by congruence. exact IH.
Qed.

(** The entry the loop pushes records how the upload settled. *)
Lemma entry_of_records (file : File) (o : Outcome value) :
  records file o (entry_of file o).
Proof.
  destruct o as [result|err]; simpl; intros k.
  - unfold entry_ok. rewrite lookup_union, list_to_map_assoc.
    destruct (assoc k (own_props result)) as [v|].
    + destruct ({["file" := VStr (file_name file)]} !! k); reflexivity.
    + rewrite (left_id None _).
      destruct (String.eqb_spec k "file") as [->|Hne].
      * apply lookup_singleton_eq.
      * apply lookup_singleton_ne. congruence.
  - unfold entry_failed.
    destruct (String.eqb_spec k "file") as [->|Hfile]; [reflexivity|].
    rewrite lookup_insert_ne by congruence.
    destruct (String.eqb_spec k "error") as [->|Herror].
    + apply lookup_singleton_eq.
    + apply lookup_singleton_ne. congruence.
Qed.

(** The loop uploads every file, whatever happened to the ones before. *)
Lemma upload_each_spec (net : Network) (project : string) (files : list File) :
  forall (results : list (gmap string value)) (st : State) (b : Browser),
  exists reqs entries b',
    upload_each project files results net (st, b)
    = (Fulfilled (results ++ entries), (st, b')) /\
    sent b' = sent b ++ reqs /\
    localStorage b' = localStorage (upload_each project files results net (st, b)).2.2 /\
    uploads net project (sent b) files reqs entries.
Proof.
  induction files as [|file files IH]; intros results st b; simpl.
  - exists [], [], b. rewrite !app_nil_r. repeat split. constructor.
  - unfold bind, attempt, on_snd. simpl.
    destruct (uploadXyz_settles project file net b) as (req & b1 & Hrun & Hsent & Hurl & Hbody).
    rewrite Hrun.
    destruct (IH (results ++ [entry_of file (upload_settles (net (sent b) req))]) st b1)
      as (reqs & entries & b' & Heach & Hsent' & Hls & Hups).
    rewrite Heach in *. simpl in *.
    exists (req :: reqs), (entry_of file (upload_settles (net (sent b) req)) :: entries), b'.
    rewrite <- app_assoc. simpl. split; [reflexivity|].
    split; [rewrite Hsent', Hsent, <- app_assoc; reflexivity|].
    split; [reflexivity|].
    constructor; try assumption; [apply entry_of_records|].
    rewrite <- Hsent. exact Hups.
Qed.

(** The entry of a file names the file unless the server's answer has a
    [file] key of its own, and holds every key of the answer. *)
Lemma entry_ok_records_response (file : File) (fields : list (string * value))
  (k : string) (v : value) :
  assoc k fields = Some v ->
  entry_ok file (VObj fields) !! k = Some v.
Proof.
  intros Hk. unfold entry_ok. simpl.
  apply lookup_union_Some_l.
  induction fields as [|[k' v'] fields IH]; simpl in *; [discriminate|].
  destruct (String.eqb_spec k k') as [->|Hne].
  - injection Hk as ->. apply lookup_insert_eq.
  - rewrite lookup_insert_ne by congruence. apply IH, Hk.
Qed.

Lemma entry_failed_records_error (file : File) (err : Error) :
  entry_failed file err !! "error" = Some (VStr (message err)) /\
  entry_failed file err !! "file" = Some (VStr (file_name file)).
Proof. split; reflexivity. Qed.

(** C9.  Once a project has been created (before that the page has no XYZ
    input, and the handler returns at its guard), the handler uploads
    every file of the list in input order, one request each and regardless
    of how the earlier uploads went, and sets [xyzResults] to exactly one
    entry per file, in input order.  The entry of a file whose upload was
    answered holds every key of the server's answer with its value, and
    the file's name; the entry of a file whose upload failed holds the
    file's name and the error message and nothing else ([records]). *)
Theorem handleXyzUpload_one_entry_per_file
  (net : Network) (files : list File) (st : State) (b : Browser) (project : Project) :
  created st = Some project ->
  exists reqs refresh,
    (handleXyzUpload (Some files) net (st, b)).1 = Fulfilled tt /\
    sent (handleXyzUpload (Some files) net (st, b)).2.2 = sent b ++ reqs ++ [refresh] /\
    uploads net (project_name project) (sent b) files reqs
      (xyzResults (handleXyzUpload (Some files) net (st, b)).2.1) /\
    length (xyzResults (handleXyzUpload (Some files) net (st, b)).2.1) = length files /\
    map req_body reqs = map (fun file => Some (FormBody file)) files.
Proof.
  intros Hcreated.
  destruct (handleXyzUpload (Some files) net (st, b)) as [o [st' b2]] eqn:Hrun.
  unfold handleXyzUpload, bind at 1, get_state in Hrun. simpl in Hrun.
  rewrite Hcreated in Hrun.
  unfold bind at 1, setError, on_fst, modify in Hrun. simpl in Hrun.
  unfold bind at 1 in Hrun.
  destruct (upload_each_spec net (project_name project) files []
              (mkState (created st) (csvResult st) (xyzResults st) None (projects st)) b)
    as (reqs & entries & b1 & Heach & Hsent & _ & Hups).
  rewrite Heach in Hrun. simpl in Hrun.
  unfold bind at 1, setXyzResults, on_fst, modify in Hrun. simpl in Hrun.
  unfold refreshProjects, try_catch, bind, on_snd in Hrun. simpl in Hrun.
  destruct (perform_sends_with_session GetProjects net b1) as (refresh & Hsent' & _).
  simpl in Hsent'. exists reqs, refresh.
  destruct (uploads_length _ _ _ _ _ _ Hups) as [_ Hlen].
  assert (Hbodies : map req_body reqs = map (fun file => Some (FormBody file)) files).
  { clear -Hups. induction Hups; simpl; [reflexivity|]. congruence. }
  destruct (getProjects net b1) as [[ps|err] b3] eqn:Hget; simpl in *;
    unfold setProjects, on_fst, modify, ret in Hrun; simpl in Hrun;
    injection Hrun as <- <- <-; simpl;
    rewrite Hsent', Hsent, <- app_assoc; repeat split; assumption.
Qed.

(** The XYZ input is on the page only once a project has been created. *)
Lemma xyz_input_needs_project (st : State) :
  xyz_input_rendered st = true -> exists project, created st = Some project.
Proof.
  unfold xyz_input_rendered. destruct (created st) as [project|]; [eauto|discriminate].
Qed.

(** With no project created the handler returns at once. *)
Lemma handleXyzUpload_without_project (net : Network) (files : option (list File))
  (st : State) (b : Browser) :
  created st = None ->
  handleXyzUpload files net (st, b) = (Fulfilled tt, (st, b)).
Proof.
  intros Hnone. unfold handleXyzUpload, bind, get_state. simpl. rewrite Hnone.
  destruct files; reflexivity.
Qed.

(** A server that takes the first upload and refuses every later one. *)
Definition picky_network : Network :=
  fun history _ =>
    match history with
    | [] => Responded (mkResponse 200 (fun _ => None) "ok"
                         (Fulfilled (VObj [("validation", VObj [("num_atoms", VNum (Fin 12))])])))
    | _ => Responded (mkResponse 400 (fun _ => None) "Invalid XYZ file" (Rejected (mkError "no JSON")))
    end.

Definition two_files : list File :=
  [mkFile "1Zr-TiO2.xyz" "12 atoms"; mkFile "broken.xyz" "?"].

Definition project_made : State :=
  mkState (Some (mkProject "demo")) (VObj []) [] None VNull.

Lemma handleXyzUpload_witness :
  exists reqs refresh,
    (handleXyzUpload (Some two_files) picky_network (project_made, mkBrowser ∅ [])).1
    = Fulfilled tt /\
    sent (handleXyzUpload (Some two_files) picky_network (project_made, mkBrowser ∅ [])).2.2
    = [] ++ reqs ++ [refresh] /\
    uploads picky_network "demo" [] two_files reqs
      (xyzResults (handleXyzUpload (Some two_files) picky_network
                     (project_made, mkBrowser ∅ [])).2.1) /\
    length (xyzResults (handleXyzUpload (Some two_files) picky_network
                          (project_made, mkBrowser ∅ [])).2.1) = 2 /\
    map req_body reqs = map (fun file => Some (FormBody file)) two_files.
Proof.
  apply (handleXyzUpload_one_entry_per_file picky_network two_files project_made
           (mkBrowser ∅ []) (mkProject "demo")).
  reflexivity.
Defined.

(** The two entries of that run: the answer for the first file, the
    error message for the second. *)
Example picky_upload_entries :
  map (fun entry => (entry !! "file", entry !! "error", entry !! "validation"))
    (xyzResults (handleXyzUpload (Some two_files) picky_network
                   (project_made, mkBrowser ∅ [])).2.1)
  = [(Some (VStr "1Zr-TiO2.xyz"), None, Some (VObj [("num_atoms", VNum (Fin 12))]));
     (Some (VStr "broken.xyz"), Some (VStr "Invalid XYZ file"), None)].
Proof. vm_compute. reflexivity. Qed.

(** *** The CSV upload and the page-level error *)

Lemma refreshProjects_run (net : Network) (st : State) (b : Browser) :
  refreshProjects net (st, b)
  = (Fulfilled tt,
     (mkState (created st) (csvResult st) (xyzResults st) (error st)
        (refreshed (getProjects net b).1 (projects st)),
      (getProjects net b).2)).
Proof.
  unfold refreshProjects. run_prog.
  destruct (getProjects net b) as [[ps|err] b']; destruct st; reflexivity.
Qed.

(** The request of a CSV upload. *)
Definition csv_request (project : Project) (file : File) (b : Browser) : Request :=
  mkRequest (BASE ++ "/projects/" ++ project_name project ++ "/upload-csv") (Some "POST")
    (with_session (localStorage b !! SESSION_KEY) ∅) (Some (FormBody file)) "include".

(** A CSV upload, start to end. *)
Lemma handleCsvUpload_run (net : Network) (file : File) (others : list File)
  (st : State) (b : Browser) (project : Project) :
  created st = Some project ->
  let req := csv_request project file b in
  let b1 := mkBrowser (storage_after (localStorage b) (net (sent b) req)) (sent b ++ [req]) in
  handleCsvUpload (Some (file :: others)) net (st, b)
  = match upload_settles (net (sent b) req) with
    | Fulfilled result =>
        (Fulfilled tt,
         (mkState (created st) result (xyzResults st) None
            (refreshed (getProjects net b1).1 (projects st)),
          (getProjects net b1).2))
    | Rejected err =>
        (Fulfilled tt,
         (mkState (created st) (csvResult st) (xyzResults st) (Some (message err))
            (projects st),
          b1))
    end.
Proof.
  intros Hcreated req b1.
  unfold handleCsvUpload. unfold bind at 1, get_state. simpl. rewrite Hcreated.
  unfold bind at 1, setError, on_fst, modify. simpl.
  unfold try_catch, bind at 1, on_snd. simpl.
  unfold uploadCsv. rewrite upload_run. subst req b1. unfold csv_request. simpl.
  match goal with
  | |- context [upload_settles ?o] => destruct (upload_settles o) as [result|err]
  end; [|simpl; rewrite ?Hcreated; reflexivity].
  unfold bind at 1, setCsvResult, on_fst, modify. simpl.
  rewrite refreshProjects_run. simpl. rewrite ?Hcreated. reflexivity.
Qed.

(** X9.  With a project created, [handleCsvUpload] uploads the first file
    of the selection, and only that one, to the project's [upload-csv].
    If the upload fulfils, its answer becomes [csvResult], no error is
    shown and the project list is refreshed; if it fails, the error
    message is shown, [csvResult] stays as it was and nothing is
    refreshed.  The handler itself never throws, and the XYZ results are
    not touched. *)
Theorem handleCsvUpload_uploads_first_file (net : Network) (file : File)
  (others : list File) (st : State) (b : Browser) (project : Project) :
  created st = Some project ->
  let done := handleCsvUpload (Some (file :: others)) net (st, b) in
  exists req,
    req_url req = (BASE ++ "/projects/" ++ project_name project ++ "/upload-csv")%string /\
    req_body req = Some (FormBody file) /\
    done.1 = Fulfilled tt /\
    match upload_settles (net (sent b) req) with
    | Fulfilled result =>
        csvResult done.2.1 = result /\ error done.2.1 = None /\
        exists refresh,
          sent done.2.2 = sent b ++ [req; refresh] /\
          req_url refresh = "/api/projects"%string /\ req_method refresh = None
    | Rejected err =>
        csvResult done.2.1 = csvResult st /\ error done.2.1 = Some (message err) /\
        sent done.2.2 = sent b ++ [req]
    end /\
    xyzResults done.2.1 = xyzResults st /\
    created done.2.1 = created st.
Proof.
  intros Hcreated done. subst done.
  rewrite (handleCsvUpload_run net file others st b project Hcreated).
  exists (csv_request project file b).
  split; [reflexivity|]. split; [reflexivity|].
  destruct (upload_settles (net (sent b) (csv_request project file b))) as [result|err].
  - simpl. repeat split.
    match goal with |- context [getProjects net ?b1] =>
      destruct (getProjects_sent net b1) as (refresh & Hsent & Hurl & Hmethod) end.
    exists refresh. rewrite Hsent. simpl. rewrite <- app_assoc. repeat split; assumption.
  - simpl. repeat split.
Qed.

(** X10.  Whether the XYZ step is on the page after a CSV upload: after
    an upload that fulfilled, exactly if the answer is truthy (an answer
    of [null] hides the step although no error is shown); after one that
    failed, exactly if it was there before. *)
Theorem xyz_step_follows_the_csv_answer (net : Network) (file : File)
  (others : list File) (st : State) (b : Browser) (project : Project) :
  created st = Some project ->
  let done := handleCsvUpload (Some (file :: others)) net (st, b) in
  exists req,
    sent done.2.2 !! length (sent b) = Some req /\
    req_body req = Some (FormBody file) /\
    xyz_input_rendered done.2.1
    = match upload_settles (net (sent b) req) with
      | Fulfilled result => truthy result
      | Rejected _ => xyz_input_rendered st
      end.
Proof.
  intros Hcreated done. subst done.
  rewrite (handleCsvUpload_run net file others st b project Hcreated).
  exists (csv_request project file b).
  unfold xyz_input_rendered.
  destruct (upload_settles (net (sent b) (csv_request project file b))) as [result|err];
    simpl; rewrite Hcreated.
  - match goal with |- context [getProjects net ?b1] =>
      destruct (getProjects_sent net b1) as (refresh & -> & _) end.
    simpl. rewrite <- app_assoc. simpl. rewrite list_lookup_middle by reflexivity.
    repeat split.
  - rewrite list_lookup_middle by reflexivity. repeat split.
Qed.

(** X11.  [handleXyzUpload] never shows a page-level error: with a
    project created it clears [error] and leaves it clear however many of
    the uploads failed (the failures are in the entries of [xyzResults]),
    and it touches neither [created] nor [csvResult], so the XYZ step stays
    on the page. *)
Theorem handleXyzUpload_reports_failures_per_file_only
  (net : Network) (files : list File) (st : State) (b : Browser) (project : Project) :
  created st = Some project ->
  let done := (handleXyzUpload (Some files) net (st, b)).2.1 in
  error done = None /\
  created done = created st /\
  csvResult done = csvResult st /\
  xyz_input_rendered done = xyz_input_rendered st.
Proof.
  intros Hcreated done. subst done.
  destruct (handleXyzUpload (Some files) net (st, b)) as [o [st' b2]] eqn:Hrun.
  unfold handleXyzUpload, bind at 1, get_state in Hrun. simpl in Hrun.
  rewrite Hcreated in Hrun.
  unfold bind at 1, setError, on_fst, modify in Hrun. simpl in Hrun.
  unfold bind at 1 in Hrun.
  destruct (upload_each_spec net (project_name project) files []
              (mkState (created st) (csvResult st) (xyzResults st) None (projects st)) b)
    as (reqs & entries & b1 & Heach & _).
  rewrite Heach in Hrun. simpl in Hrun.
  unfold bind at 1, setXyzResults, on_fst, modify in Hrun. simpl in Hrun.
  rewrite refreshProjects_run in Hrun. injection Hrun as <- <- <-.
  unfold xyz_input_rendered. simpl. repeat split.
Qed.

(** X28.  With nothing selected the two upload handlers differ.
    [handleCsvUpload] does nothing when there is no first file.
    [handleXyzUpload], handed an empty list of files, still runs: it
    clears the error, replaces the earlier XYZ results by the empty list
    and requests the project list again.  Without a project created
    neither handler sends or changes anything. *)
Theorem upload_handlers_on_an_empty_selection (net : Network) (st : State) (b : Browser) :
  handleCsvUpload None net (st, b) = (Fulfilled tt, (st, b)) /\
  handleCsvUpload (Some []) net (st, b) = (Fulfilled tt, (st, b)) /\
  handleXyzUpload None net (st, b) = (Fulfilled tt, (st, b)) /\
  (forall files, created st = None ->
     handleCsvUpload files net (st, b) = (Fulfilled tt, (st, b)) /\
     handleXyzUpload files net (st, b) = (Fulfilled tt, (st, b))) /\
  (forall project, created st = Some project ->
     let done := handleXyzUpload (Some []) net (st, b) in
     xyzResults done.2.1 = [] /\ error done.2.1 = None /\
     exists refresh,
       sent done.2.2 = sent b ++ [refresh] /\ req_url refresh = "/api/projects"%string).
Proof.
  split; [reflexivity|]. split; [unfold handleCsvUpload, bind, get_state; simpl;
                                  destruct (created st); reflexivity|].
  split; [reflexivity|]. split.
  - intros files Hnone. split.
    + unfold handleCsvUpload, bind, get_state. simpl. rewrite Hnone.
      destruct (files ≫= head); reflexivity.
    + apply handleXyzUpload_without_project, Hnone.
  - intros project Hcreated done. subst done.
    destruct (handleXyzUpload (Some []) net (st, b)) as [o [st' b2]] eqn:Hrun.
    unfold handleXyzUpload, bind at 1, get_state in Hrun. simpl in Hrun.
    rewrite Hcreated in Hrun.
    unfold bind at 1, setError, on_fst, modify in Hrun. simpl in Hrun.
    unfold bind at 1 in Hrun. simpl in Hrun.
    unfold bind at 1, setXyzResults, on_fst, modify in Hrun. simpl in Hrun.
    rewrite refreshProjects_run in Hrun. injection Hrun as <- <- <-. simpl.
    split; [reflexivity|]. split; [reflexivity|].
    destruct (getProjects_sent net b) as (refresh & Hsent & Hurl & _). eauto.
Qed.

(** *** Runs of the upload handlers on [picky_network] *)

Lemma handleCsvUpload_witness :
  exists req,
    req_body req = Some (FormBody (mkFile "1Zr-TiO2.xyz" "12 atoms")) /\
    (handleCsvUpload (Some two_files) picky_network (project_made, mkBrowser ∅ [])).1
    = Fulfilled tt.
Proof.
  destruct (handleCsvUpload_uploads_first_file picky_network
              (mkFile "1Zr-TiO2.xyz" "12 atoms") [mkFile "broken.xyz" "?"]
              project_made (mkBrowser ∅ []) (mkProject "demo"))
    as (req & _ & Hbody & Hdone & _); [reflexivity|].
  exists req. split; [exact Hbody|exact Hdone].
Defined.

Lemma xyz_step_witness :
  exists req,
    sent (handleCsvUpload (Some two_files) picky_network
            (project_made, mkBrowser ∅ [])).2.2 !! 0 = Some req /\
    req_body req = Some (FormBody (mkFile "1Zr-TiO2.xyz" "12 atoms")).
Proof.
  destruct (xyz_step_follows_the_csv_answer picky_network
              (mkFile "1Zr-TiO2.xyz" "12 atoms") [mkFile "broken.xyz" "?"]
              project_made (mkBrowser ∅ []) (mkProject "demo"))
    as (req & Hsent & Hbody & _); [reflexivity|].
  exists req. split; [exact Hsent|exact Hbody].
Defined.

Lemma handleXyzUpload_error_witness :
  error (handleXyzUpload (Some two_files) picky_network (project_made, mkBrowser ∅ [])).2.1
  = None.
Proof.
  destruct (handleXyzUpload_reports_failures_per_file_only picky_network two_files
              project_made (mkBrowser ∅ []) (mkProject "demo")) as (Herror & _);
    [reflexivity|].
  exact Herror.
Defined.

End DataUploadFacts.

(** ** Creating a project *)

Module ProjectFormFacts.
Import Js Api ApiFacts ProjectForm.
Local Open Scope js_scope.

(** The request [createProject] sends for a name. *)
Definition create_request (name : string) (b : Browser) : Request :=
  mkRequest "/api/projects" (Some "POST")
    (with_session (localStorage b !! SESSION_KEY) {["Content-Type" := "application/json"]})
    (Some (JsonBody (VObj [("name", VStr name)]))) "include".

Lemma createProject_run (name : string) (net : Network) (b : Browser) :
  createProject name net b
  = (settles (CreateProject name) (net (sent b) (create_request name b)),
     mkBrowser (storage_after (localStorage b) (net (sent b) (create_request name b)))
       (sent b ++ [create_request name b])).
Proof. unfold createProject. rewrite fetchJson_run by reflexivity. reflexivity. Qed.

Lemma form_refresh_run (net : Network) (st : State) (b : Browser) :
  refreshProjects net (st, b)
  = (Fulfilled tt,
     (mkState (projectName st) (creating st) (created st) (error st)
        (refreshed (getProjects net b).1 (projects st)),
      (getProjects net b).2)).
Proof.
  unfold refreshProjects. run_prog.
  destruct (getProjects net b) as [[ps|err] b']; destruct st; reflexivity.
Qed.

(** Creating a project, start to end. *)
Lemma handleCreate_run (net : Network) (st : State) (b : Browser) :
  trim (projectName st) <> ""%string ->
  let req := create_request (projectName st) b in
  let b1 := mkBrowser (storage_after (localStorage b) (net (sent b) req)) (sent b ++ [req]) in
  handleCreate net (st, b)
  = match settles (CreateProject (projectName st)) (net (sent b) req) with
    | Fulfilled result =>
        (Fulfilled tt,
         (mkState (projectName st) false result None
            (refreshed (getProjects net b1).1 (projects st)),
          (getProjects net b1).2))
    | Rejected err =>
        (Fulfilled tt,
         (mkState (projectName st) false (created st) (Some (message err)) (projects st),
          b1))
    end.
Proof.
  intros Hname req b1. unfold handleCreate.
  set (call := createProject). unfold bind at 1, get_state. simpl.
  apply String.eqb_neq in Hname. rewrite Hname.
  unfold bind at 1, setCreating, on_fst, modify. simpl.
  unfold bind at 1, setError, on_fst, modify. simpl.
  unfold bind at 1, try_catch, bind at 1, on_snd. simpl.
  subst call. rewrite createProject_run. fold req. fold b1.
  destruct (settles (CreateProject (projectName st)) (net (sent b) req)) as [result|err];
    [|reflexivity].
  unfold bind at 1, setCreated, on_fst, modify. simpl.
  rewrite form_refresh_run. reflexivity.
Qed.

(** X12.  [handleCreate] does nothing for a blank name.  For any other
    name it sends one POST to [/api/projects] whose body holds the name
    exactly as typed (the white space at its ends included: only the guard
    trims).  If the call fulfils, the answer becomes [created], no error
    is shown and the project list is requested again; if it fails, the
    error message is shown and [created] stays as it was.  Either way the
    handler does not throw and [creating] is false at the end. *)
Theorem handleCreate_sends_the_name_as_typed (net : Network) (st : State) (b : Browser) :
  let done := handleCreate net (st, b) in
  let req := create_request (projectName st) b in
  (trim (projectName st) = ""%string -> done = (Fulfilled tt, (st, b))) /\
  (trim (projectName st) <> ""%string ->
   done.1 = Fulfilled tt /\
   creating done.2.1 = false /\
   projectName done.2.1 = projectName st /\
   req_body req = Some (JsonBody (VObj [("name", VStr (projectName st))])) /\
   match settles (CreateProject (projectName st)) (net (sent b) req) with
   | Fulfilled result =>
       created done.2.1 = result /\ error done.2.1 = None /\
       exists refresh,
         sent done.2.2 = sent b ++ [req; refresh] /\
         req_url refresh = "/api/projects"%string /\ req_method refresh = None
   | Rejected err =>
       created done.2.1 = created st /\ error done.2.1 = Some (message err) /\
       sent done.2.2 = sent b ++ [req]
   end).
Proof.
  intros done req. subst done. split; intros Hname.
  - unfold handleCreate, bind, get_state. simpl. rewrite Hname. reflexivity.
  - rewrite (handleCreate_run net st b Hname). fold req.
    destruct (settles (CreateProject (projectName st)) (net (sent b) req)) as [result|err].
    + simpl. repeat split.
      match goal with |- context [getProjects net ?b1] =>
        destruct (getProjects_sent net b1) as (refresh & Hsent & Hurl & Hmethod) end.
      exists refresh. rewrite Hsent. simpl. rewrite <- app_assoc. repeat split; assumption.
    + simpl. repeat split.
Qed.

End ProjectFormFacts.

(** ** The figure panels and the initial load *)

Module PublicationFiguresFacts.
Import Js Promise Doe PublicationFigures.

(** *** The display order of the systems *)

Lemma place_perm (x : string) (sorted : list string) :
  place x sorted ≡ₚ x :: sorted.
Proof.
  induction sorted as [|y rest IH]; simpl; [reflexivity|].
  destruct (rank x <=? rank y)%Z; [reflexivity|].
  rewrite IH. apply Permutation_swap.
Qed.

(** The sort keeps every label, each as often as it came. *)
Lemma sort_systems_perm (systems : list string) : sort_systems systems ≡ₚ systems.
Proof.
  induction systems as [|x systems IH]; simpl; [reflexivity|].
  rewrite place_perm, IH. reflexivity.
Qed.

Definition ranked (a b : string) : Prop := (rank a <= rank b)%Z.

Lemma place_sorted (x : string) (sorted : list string) :
  Sorted ranked sorted -> Sorted ranked (place x sorted).
Proof.
  induction 1 as [|y rest Hrest IH Hhd]; simpl.
  - repeat constructor.
  - destruct (Z.leb_spec (rank x) (rank y)) as [Hle|Hgt].
    + constructor; [constructor; assumption|]. constructor. exact Hle.
    + constructor; [exact IH|].
      destruct rest as [|z rest']; simpl.
      * constructor. unfold ranked. lia.
      * destruct (Z.leb_spec (rank x) (rank z)).
        -- constructor. unfold ranked. lia.
        -- inversion Hhd; subst. constructor. assumption.
Qed.

(** The sort puts the labels in the order of their ranks. *)
Lemma sort_systems_sorted (systems : list string) : Sorted ranked (sort_systems systems).
Proof.
  induction systems as [|x systems IH]; simpl; [constructor|].
  apply place_sorted, IH.
Qed.

Lemma place_stable (r : Z) (x : string) (sorted : list string) :
  filter (fun y => rank y = r) (place x sorted)
  = filter (fun y => rank y = r) (x :: sorted).
Proof.
  induction sorted as [|y rest IH]; simpl; [reflexivity|].
  destruct (Z.leb_spec (rank x) (rank y)) as [Hle|Hgt]; [reflexivity|].
  rewrite !filter_cons in *.
  destruct (decide (rank y = r)) as [Hy|Hy];
    destruct (decide (rank x = r)) as [Hx|Hx]; try lia; rewrite IH; reflexivity.
Qed.

(** The sort is stable: labels of one rank stay in the order they came,
    as [Array.prototype.sort] leaves them. *)
Lemma sort_systems_stable (r : Z) (systems : list string) :
  filter (fun y => rank y = r) (sort_systems systems)
  = filter (fun y => rank y = r) systems.
Proof.
  induction systems as [|x systems IH]; simpl; [reflexivity|].
  rewrite place_stable, !filter_cons, IH. reflexivity.
Qed.

(** *** The display loop *)

Lemma chart_loop_step {A : Type} (n : nat) (step : Stride) (body : nat -> A) (i : nat) :
  chart_loop n step body i
  = if lt_dec i n then body i :: chart_loop n step body (i + step) else [].
Proof.
  rewrite chart_loop_equation_1. destruct (lt_dec i n); reflexivity.
Qed.

(** The number of multiples of [s] below [n]. *)
Definition strides (n s : nat) : nat := (n + s - 1) / s.

Lemma strides_spec (n s j : nat) : 0 < s -> j < strides n s <-> j * s < n.
Proof.
  intros Hs. unfold strides. split; intros H.
  - assert (Hle : S j <= (n + s - 1) / s) by lia.
    assert (Hmul : s * S j <= n + s - 1).
    { etransitivity; [apply Nat.mul_le_mono_l, Hle|].
      apply Nat.Div0.mul_div_le. }
    nia.
  - assert (Hle : S j <= (n + s - 1) / s); [|lia].
    apply Nat.div_le_lower_bound; [lia|nia].
Qed.

Lemma chart_loop_from {A : Type} (n : nat) (step : Stride) (body : nat -> A) :
  forall d j : nat,
  strides n step - j = d ->
  chart_loop n step body (j * step)
  = map (fun k => body (k * step)) (seq j d).
Proof.
  pose proof (stride_pos step) as Hs.
  induction d as [|d IH]; intros j Hd; rewrite chart_loop_step.
  - destruct (lt_dec (j * step) n) as [Hlt|_]; [|reflexivity].
    apply (strides_spec n step j Hs) in Hlt. lia.
  - destruct (lt_dec (j * step) n) as [_|Hge].
    + simpl. f_equal. replace (j * step + step) with (S j * step) by lia.
      apply IH. lia.
    + exfalso. apply Hge, (strides_spec n step j Hs). lia.
Qed.

(** The loop charts the indices 0, s, 2s, ... below [n], in this order. *)
Lemma chart_loop_stride {A : Type} (n : nat) (step : Stride) (body : nat -> A) :
  chart_loop n step body 0
  = map (fun k => body (k * step)) (seq 0 (strides n step)).
Proof.
  apply (chart_loop_from n step body (strides n step) 0). lia.
Qed.

Lemma strides_small (n : nat) : n <= 50 -> stride (step_of n) = 1 /\ strides n (step_of n) = n.
Proof.
  intros Hn. change (stride (step_of n)) with (Nat.max 1 (n / 50)).
  assert (Hdiv : n / 50 <= 1).
  { apply Nat.Div0.div_le_upper_bound. lia. }
  assert (Hs : Nat.max 1 (n / 50) = 1) by lia.
  rewrite Hs. split; [reflexivity|]. unfold strides.
  replace (n + 1 - 1) with n by lia. apply Nat.div_1_r.
Qed.

(** *** The points *)

Lemma lookup_assign_ne (k key : string) (v : value) (obj : gmap string value) :
  k <> key -> assign k v obj !! key = obj !! key.
Proof.
  intros Hne. unfold assign. destruct (String.eqb k "__proto__"); [reflexivity|].
  apply lookup_insert_ne. exact Hne.
Qed.

Lemma lookup_assign_eq (k : string) (v : value) (obj : gmap string value) :
  k <> "__proto__"%string -> assign k v obj !! k = Some v.
Proof.
  intros Hne. unfold assign.
  destruct (String.eqb_spec k "__proto__") as [Heq|_]; [contradiction|].
  apply lookup_insert_eq.
Qed.

Lemma lookup_assign_Some (k key : string) (v w : value) (obj : gmap string value) :
  assign k v obj !! key = Some w ->
  obj !! key = Some w \/ (key = k /\ k <> "__proto__"%string /\ w = v).
Proof.
  unfold assign. destruct (String.eqb_spec k "__proto__") as [Heq|Hne]; [auto|].
  destruct (decide (key = k)) as [->|Hkey].
  - rewrite lookup_insert_eq. intros [= <-]. auto.
  - rewrite lookup_insert_ne by congruence. auto.
Qed.

(** The coverage the response holds for system [sys] at grid index [i]:
    [data[sys].coverages[i]], where [data[sys].coverages] is an array
    that reaches [i]. *)
Definition coverage_at (data : value) (sys : string) (i : nat) : option value :=
  match as_array (opt_prop (index data sys) "coverages") with
  | Some coverages => coverages !! i
  | None => None
  end.

(** Where a value of a chart point comes from: the grid, or the coverage
    array of one of the systems, at the same index. *)
Definition from_response (x_key : string) (grid : list value) (data : value)
  (systems : list string) (i : nat) (key : string) (v : value) : Prop :=
  (key = x_key /\ grid !! i = Some v) \/
  exists sys coverages,
    sys ∈ systems /\ key = systemShort sys /\
    as_array (opt_prop (index data sys) "coverages") = Some coverages /\
    coverages !! i = Some v /\ key <> "__proto__"%string.

(** What the chart point of grid index [i] holds, in terms of the
    response alone: the grid value at [i] under the x key, unless a
    system writes over it; under the short name of a system the coverage
    of that system at [i], the last system in display order winning among
    those of one short name; and no other value. *)
Definition charts_index (x_key : string) (grid : list value) (data : value)
  (systems : list string) (i : nat) (point : gmap string value) : Prop :=
  ((forall sys, sys ∈ systems -> systemShort sys = x_key -> coverage_at data sys i = None) ->
   point !! x_key = grid !! i) /\
  (forall (before after : list string) (sys : string) (c : value),
      systems = before ++ sys :: after ->
      coverage_at data sys i = Some c ->
      systemShort sys <> "__proto__"%string ->
      (forall s', s' ∈ after -> systemShort s' = systemShort sys ->
                  coverage_at data s' i = None) ->
      point !! systemShort sys = Some c) /\
  (forall key v, point !! key = Some v -> from_response x_key grid data systems i key v).

Lemma array_prop_truthy (d : value) (k : string) (items : list value) :
  as_array (opt_prop d k) = Some items -> truthy d = true.
Proof. destruct d; try discriminate. reflexivity. Qed.

Lemma add_series_coverage (data : value) (i : nat) (point : gmap string value) (s : string) :
  add_series data i point s
  = match coverage_at data s i with
    | Some c => assign (systemShort s) c point
    | None => point
    end.
Proof.
  unfold add_series, coverage_at.
  destruct (as_array (opt_prop (index data s) "coverages")) as [coverages|] eqn:Harr.
  - rewrite (array_prop_truthy _ _ _ Harr). reflexivity.
  - destruct (truthy (index data s)); reflexivity.
Qed.

Lemma add_series_from (data : value) (i : nat) (point : gmap string value) (s : string)
  (key : string) (v : value) :
  add_series data i point s !! key = Some v ->
  point !! key = Some v \/
  exists coverages,
    key = systemShort s /\
    as_array (opt_prop (index data s) "coverages") = Some coverages /\
    coverages !! i = Some v /\ key <> "__proto__"%string.
Proof.
  unfold add_series.
  destruct (truthy (index data s)); [|auto].
  destruct (as_array (opt_prop (index data s) "coverages")) as [coverages|]; [|auto].
  destruct (coverages !! i) as [c|] eqn:Hc; [|auto].
  intros Hkey. apply lookup_assign_Some in Hkey as [Hkey|(-> & Hne & ->)]; [auto|].
  right. exists coverages. auto.
Qed.

Lemma point_at_from (x_key : string) (grid : list value) (data : value)
  (systems : list string) (i : nat) (key : string) (v : value) :
  i < length grid ->
  point_at x_key grid data systems i !! key = Some v ->
  from_response x_key grid data systems i key v.
Proof.
  intros Hi. unfold point_at.
  assert (Hgen : forall (done todo : list string) (point : gmap string value),
             (forall k w, point !! k = Some w -> from_response x_key grid data done i k w) ->
             fold_left (add_series data i) todo point !! key = Some v ->
             from_response x_key grid data (done ++ todo) i key v).
  { intros done todo. revert done.
    induction todo as [|s todo IH]; intros done point Hpoint Hfold; simpl in *.
    - rewrite app_nil_r. apply Hpoint, Hfold.
    - replace (done ++ s :: todo) with ((done ++ [s]) ++ todo)
        by (rewrite <- app_assoc; reflexivity).
      apply (IH (done ++ [s]) (add_series data i point s)); [|exact Hfold].
      intros k w Hk. apply add_series_from in Hk as [Hk|(cov & -> & Harr & Hcov & Hne)].
      + destruct (Hpoint k w Hk) as [Hx|(sys & cov & Hin & Hkey & Harr & Hcov & Hne)].
        * left. exact Hx.
        * right. exists sys, cov. repeat split; try assumption.
          apply elem_of_app. left. exact Hin.
      + right. exists s, cov. repeat split; try assumption.
        apply elem_of_app. right. apply list_elem_of_singleton. reflexivity. }
  intros Hfold. apply (Hgen [] systems _) in Hfold; [exact Hfold|].
  intros k w Hk. apply lookup_singleton_Some in Hk as [<- <-].
  left. split; [reflexivity|].
  destruct (lookup_lt_is_Some_2 grid i Hi) as [g Hg]. rewrite Hg. reflexivity.
Qed.

(** A system leaves a key of the point alone unless it has a coverage at
    the index and the key is its short name. *)
Lemma add_series_quiet (data : value) (i : nat) (point : gmap string value)
  (s key : string) :
  (systemShort s = key -> coverage_at data s i = None) ->
  add_series data i point s !! key = point !! key.
Proof.
  intros Hquiet. rewrite add_series_coverage.
  destruct (coverage_at data s i) as [c|] eqn:Hc; [|reflexivity].
  apply lookup_assign_ne. intros Heq. specialize (Hquiet Heq). discriminate.
Qed.

Lemma fold_series_quiet (data : value) (i : nat) (key : string) (systems : list string) :
  forall point : gmap string value,
  (forall s, s ∈ systems -> systemShort s = key -> coverage_at data s i = None) ->
  fold_left (add_series data i) systems point !! key = point !! key.
Proof.
  induction systems as [|s systems IH]; intros point Hquiet; simpl; [reflexivity|].
  rewrite IH.
  - apply add_series_quiet, Hquiet, list_elem_of_here.
  - intros s' Hs'. apply Hquiet, list_elem_of_further, Hs'.
Qed.

Lemma point_at_charts (x_key : string) (grid : list value) (data : value)
  (systems : list string) (i : nat) :
  i < length grid ->
  charts_index x_key grid data systems i (point_at x_key grid data systems i).
Proof.
  intros Hi. split; [|split].
  - intros Hquiet. unfold point_at. rewrite fold_series_quiet by exact Hquiet.
    rewrite lookup_singleton_eq.
    destruct (lookup_lt_is_Some_2 grid i Hi) as [g ->]. reflexivity.
  - intros before after sys c -> Hc Hne Hafter. unfold point_at.
    rewrite fold_left_app. simpl. rewrite fold_series_quiet by exact Hafter.
    rewrite add_series_coverage, Hc. apply lookup_assign_eq, Hne.
  - intros key v. apply point_at_from, Hi.
Qed.

(** What a coverage panel charts, in terms of the response [data]:
    [grid] is the grid of the reference system (the first system in
    display order), and [points] are the chart's points.  The chart has
    a point at [k] exactly when [k * s] is an index of the grid, and that
    point holds what [charts_index] says of grid index [k * s]. *)
Definition charts_stride_of (grid_key x_key : string) (data : value)
  (points : list (gmap string value)) : Prop :=
  exists (grid : list value) (systems : list string),
    systems = sort_systems (Object_keys data) /\
    as_array (opt_prop (index data (default ""%string (head systems))) grid_key) = Some grid /\
    let n := length grid in
    let s := Nat.max 1 (n / 50) in
    points = map (fun k => point_at x_key grid data systems (k * s)) (seq 0 ((n + s - 1) / s)) /\
    (forall k point key v,
        points !! k = Some point -> point !! key = Some v ->
        k * s < n /\ from_response x_key grid data systems (k * s) key v) /\
    (n <= 50 ->
     length points = n /\
     forall i, i < n ->
       points !! i = Some (point_at x_key grid data systems i) /\
       exists point, points !! i = Some point /\ charts_index x_key grid data systems i point) /\
    (forall k, is_Some (points !! k) <-> k * s < n) /\
    (forall k point,
        points !! k = Some point -> charts_index x_key grid data systems (k * s) point).

Lemma coverage_chart_data_stride (grid_key x_key : string) (data : value)
  (points : list (gmap string value)) :
  coverage_chart_data grid_key x_key data = Some points ->
  charts_stride_of grid_key x_key data points.
Proof.
  unfold coverage_chart_data.
  destruct (negb (truthy data) || Nat.eqb (length (Object_keys data)) 0); [discriminate|].
  set (systems := sort_systems (Object_keys data)).
  destruct (negb (truthy (index data (default ""%string (head systems))))); [discriminate|].
  destruct (as_array (opt_prop (index data (default ""%string (head systems))) grid_key))
    as [[|g grid']|] eqn:Hgrid; try discriminate.
  remember (g :: grid') as grid eqn:Hg. clear g grid' Hg. intros [= <-].
  exists grid, systems. split; [reflexivity|]. split; [exact Hgrid|].
  rewrite chart_loop_stride. unfold strides.
  change (stride (step_of (length grid))) with (Nat.max 1 (length grid / 50)).
  cbv zeta.
  assert (Hat : forall k point,
             map (fun k => point_at x_key grid data systems (k * Nat.max 1 (length grid / 50)))
               (seq 0 ((length grid + Nat.max 1 (length grid / 50) - 1)
                       / Nat.max 1 (length grid / 50))) !! k = Some point ->
             k * Nat.max 1 (length grid / 50) < length grid /\
             point = point_at x_key grid data systems (k * Nat.max 1 (length grid / 50))).
  { intros k point Hk.
    apply list_lookup_fmap_Some in Hk as (j & Hpoint & Hj).
    apply lookup_seq in Hj as [-> Hlt]. simpl in Hpoint. split; [|exact Hpoint].
    apply (strides_spec _ (step_of (length grid)) k); [apply stride_pos|exact Hlt]. }
  split; [reflexivity|]. split; [|split; [|split]].
  - intros k point key v Hk Hv. destruct (Hat k point Hk) as [Hin ->].
    split; [exact Hin|]. apply point_at_from; assumption.
  - intros Hsmall. destruct (strides_small (length grid) Hsmall) as [Hone Hall].
    change (stride (step_of (length grid))) with (Nat.max 1 (length grid / 50)) in Hone, Hall.
    unfold strides in Hall. rewrite Hone in *. rewrite Hall.
    split; [rewrite length_map, length_seq; reflexivity|].
    intros i Hi. rewrite list_lookup_fmap, lookup_seq_lt by exact Hi. simpl.
    rewrite Nat.mul_1_r. split; [reflexivity|].
    eexists. split; [reflexivity|]. apply point_at_charts, Hi.
  - intros k. split.
    + intros [point Hk]. apply (Hat k point Hk).
    + intros Hlt. rewrite list_lookup_fmap, lookup_seq_lt; [simpl; eauto|].
      apply (strides_spec _ (step_of (length grid)) k); [apply stride_pos|exact Hlt].
  - intros k point Hk. destruct (Hat k point Hk) as [Hin ->].
    apply point_at_charts, Hin.
Qed.

(** A coverage panel renders as soon as the response has a system and the
    first system in display order has a grid that is not empty. *)
Lemma coverage_chart_data_renders (grid_key x_key : string) (data : value)
  (g : value) (grid : list value) :
  truthy data = true ->
  Object_keys data <> [] ->
  let refSys := default ""%string (head (sort_systems (Object_keys data))) in
  truthy (index data refSys) = true ->
  as_array (opt_prop (index data refSys) grid_key) = Some (g :: grid) ->
  exists points, coverage_chart_data grid_key x_key data = Some points.
Proof.
  intros Hdata Hkeys refSys Hsys Hgrid. unfold coverage_chart_data.
  rewrite Hdata. simpl.
  destruct (Object_keys data) as [|k ks] eqn:Hk; [contradiction|].
  simpl length. simpl Nat.eqb. cbv iota.
  fold refSys. rewrite Hsys. simpl negb. cbv iota. rewrite Hgrid. eauto.
Qed.


(** *** The heat map *)







Lemma traverse_succeeds {A B : Type} (f : A -> Outcome B) (xs : list A) :
  (forall x, x ∈ xs -> exists y, f x = Fulfilled y) ->
  exists ys, traverse f xs = Fulfilled ys.
Proof.
  induction xs as [|x xs IH]; intros Hall; simpl; [eauto|].
  destruct (Hall x) as (y & Hy); [apply list_elem_of_here|]. rewrite Hy.
  destruct IH as (ys & Hys).
  { intros x' Hx'. apply Hall, list_elem_of_further, Hx'. }
  rewrite Hys. simpl. eauto.
Qed.

(** The heat map renders when pairs were found and every shift the
    response reports is a number. *)
Lemma heatmap_renders (shiftsData : value) :
  let table := opt_prop shiftsData "shifts" in
  truthy table = true ->
  (forall n, opt_prop shiftsData "pairs_found" = VNum n -> is_zero n = false) ->
  (forall sys d, exists n, shift_value table sys d = VNum n) ->
  exists h, PanelDescriptorShifts shiftsData = Fulfilled (Some h).
Proof.
  intros table Htable Hpairs Hnumbers. unfold PanelDescriptorShifts.
  fold table. rewrite Htable. simpl negb. simpl orb.
  assert (Hno : match opt_prop shiftsData "pairs_found" with
                | VNum n => is_zero n
                | _ => false
                end = false).
  { destruct (opt_prop shiftsData "pairs_found") eqn:Hp; try reflexivity.
    apply Hpairs. reflexivity. }
  rewrite Hno.
  destruct (traverse_succeeds (traverse as_number)
              (map (fun sys => map (shift_value table sys) descs)
                 (sort_systems (Object_keys table)))) as (rows & Hrows).
  { intros row Hrow. apply list_elem_of_fmap in Hrow as (sys & -> & _).
    apply traverse_succeeds. intros v Hv.
    apply list_elem_of_fmap in Hv as (d & -> & _).
    destruct (Hnumbers sys d) as (n & ->). simpl. eauto. }
  rewrite Hrows. simpl. eauto.
Qed.


(** *** The initial load *)

(** What a guarded request hands its panel. *)
Definition guarded (o : Outcome value) : value :=
  match o with
  | Fulfilled v => v
  | Rejected _ => VNull
  end.

Lemma all_guarded_fulfils (settle : Api.ApiCall -> Outcome value) (ms : list Api.ApiCall) :
  all (map (fun m => catch (settle m) (fun _ => VNull)) ms)
  = Fulfilled (map (fun m => guarded (settle m)) ms).
Proof.
  induction ms as [|m ms IH]; simpl; [reflexivity|].
  rewrite IH. destruct (settle m); reflexivity.
Qed.

(** C8.  In both dashboards the join of the guarded requests fulfils
    whatever the single requests settle to; the state after the load has
    every panel at the data of its request, or at [null] if that request
    failed, and [loading] is false. *)
Theorem dashboards_load_survives_failed_requests
  (settle : Api.ApiCall -> Outcome value) (project : string)
  (thermo : ThermoPlot.State) (figures : State) :
  (all (map (fun m => catch (settle m) (fun _ => VNull)) (ThermoPlot.requests project))
   = Fulfilled (map (fun m => guarded (settle m)) (ThermoPlot.requests project)) /\
   ThermoPlot.load settle project thermo
   = ThermoPlot.mkState
       (guarded (settle (Api.GetT50 project (VObj []))))
       (guarded (settle (Api.GetCoverageP project (VObj []))))
       (guarded (settle (Api.GetCoverageT project (VObj []))))
       (guarded (settle (Api.CompareSystems project (VObj []))))
       false) /\
  (all (map (fun m => catch (settle m) (fun _ => VNull)) (requests project))
   = Fulfilled (map (fun m => guarded (settle m)) (requests project)) /\
   load settle project figures
   = mkState
       (guarded (settle (Api.GetAdsorptionEnergies project)))
       (guarded (settle (Api.GetEnergyDecomposition project)))
       (guarded (settle (Api.GetShifts project)))
       (guarded (settle (Api.GetT50 project (VObj []))))
       (guarded (settle (Api.GetCoverageP project (VObj []))))
       (guarded (settle (Api.GetCoverageT project (VObj []))))
       false).
Proof.
  split; (split; [apply all_guarded_fulfils|]).
  - unfold ThermoPlot.load. rewrite all_guarded_fulfils. reflexivity.
  - unfold load. rewrite all_guarded_fulfils. reflexivity.
Qed.

(** X23.  In the thermodynamics tab the lines of all three charts are
    those of the T50 response: when that request has failed, the coverage
    charts get their data and draw no line. *)
Remark thermo_lines_follow_t50 (settle : Api.ApiCall -> Outcome value) (project : string)
  (thermo : ThermoPlot.State) (e : Error) :
  settle (Api.GetT50 project (VObj [])) = Rejected e ->
  ThermoPlot.systemNames (ThermoPlot.load settle project thermo) = [] /\
  ThermoPlot.coverageP (ThermoPlot.load settle project thermo)
  = guarded (settle (Api.GetCoverageP project (VObj []))).
Proof.
  intros Hfailed. unfold ThermoPlot.load. rewrite all_guarded_fulfils. simpl.
  unfold ThermoPlot.systemNames. simpl. rewrite Hfailed. split; reflexivity.
Qed.

(** *** The operating window on the charts *)

(** A response of the coverage-vs-temperature endpoint: two systems, the
    second with a shorter coverage array. *)
Definition sample_coverage : value :=
  VObj [("2Zr-TiO2",
         VObj [("temperatures_K", VArr [VNum (Fin 200); VNum (Fin 300)]);
               ("coverages", VArr [VNum (Fin 0.9); VNum (Fin 0.4)])]);
        ("Pristine",
         VObj [("temperatures_K", VArr [VNum (Fin 200); VNum (Fin 300); VNum (Fin 400)]);
               ("coverages", VArr [VNum (Fin 0.5); VNum (Fin 0.1); VNum (Fin 0.01)])])].

(** C6.  The operating window is -40 C to 85 C, which is 233.15 K to
    358.15 K.  The Celsius charts of the thermodynamics tab and panel (d)
    shade exactly that; panel (e), [PanelCoverageVsTemp], shades 233 K to
    358 K, which is not the window. *)
Theorem coverage_panel_band_misses_the_window :
  (to_kelvin T_min_C == T_min_K /\ to_kelvin T_max_C == T_max_K)%Q /\
  shades T_min_C T_max_C ThermoPlot.t50_chart_area = true /\
  ThermoPlot.t50_chart_lines = [T_min_C; T_max_C] /\
  shades T_min_C T_max_C ThermoPlot.coverage_vs_temperature_area = true /\
  shades T_min_K T_max_K PanelT50vsPressure_area = true /\
  option_map chart_area (PanelCoverageVsTemp sample_coverage)
  = Some (Some PanelCoverageVsTemp_band) /\
  (area_from PanelCoverageVsTemp_band == 233 /\ area_to PanelCoverageVsTemp_band == 358)%Q /\
  shades T_min_K T_max_K PanelCoverageVsTemp_band = false /\
  (~ area_from PanelCoverageVsTemp_band == T_min_K /\
   ~ area_to PanelCoverageVsTemp_band == T_max_K)%Q.
Proof.
  split; [split; reflexivity|].
  do 4 (split; [reflexivity|]).
  split; [vm_compute; reflexivity|].
  split; [split; reflexivity|].
  split; [reflexivity|].
  split; intros H; discriminate H.
Qed.

(** Whatever the data, panel (e) draws that band. *)
Lemma coverage_panel_band (data : value) (chart : Chart) :
  PanelCoverageVsTemp data = Some chart ->
  chart_area chart = Some PanelCoverageVsTemp_band.
Proof.
  unfold PanelCoverageVsTemp.
  destruct (coverage_chart_data _ _ data); [|discriminate].
  intros [= <-]. reflexivity.
Qed.

(** *** Runs on sample responses *)

Definition sample_chart : Chart :=
  default (mkChart [] None) (PanelCoverageVsTemp sample_coverage).


(** The three grid points of the reference system, each with the
    coverages the systems have at its index. *)
Example sample_chart_points :
  map (fun point => (point !! "T", point !! "Pristine", point !! "2Zr"))
    (chart_data sample_chart)
  = [(Some (VNum (Fin 200)), Some (VNum (Fin 0.5)), Some (VNum (Fin 0.9)));
     (Some (VNum (Fin 300)), Some (VNum (Fin 0.1)), Some (VNum (Fin 0.4)));
     (Some (VNum (Fin 400)), Some (VNum (Fin 0.01)), None)].
Proof. vm_compute. reflexivity. Qed.

(** A grid of 120 points is charted at every second index. *)
Example long_grid_is_strided :
  option_map (fun chart => length (chart_data chart))
    (PanelCoverageVsPressure
       (VObj [("Pristine",
               VObj [("pressures_bar",
                      VArr (map (fun i => VNum (Fin (inject_Z (Z.of_nat i)))) (seq 0 120)));
                     ("coverages", VArr [])])]))
  = Some 60.
Proof. vm_compute. reflexivity. Qed.

(** A shifts response in which most pairs are missing. *)
Definition sample_shifts : value :=
  VObj [("pairs_found", VNum (Fin 2));
        ("shifts",
         VObj [("1Zr", VObj [("Eg_eV", VNum (Fin (-0.02))); ("mu_eV", VNull)]);
               ("Pristine", VObj [("chi_eV", VNum (Fin 0.5))])])].

Definition sample_heatmap : Heatmap :=
  mkHeatmap ["Pristine"; "1Zr"]
    [[Fin 0; Fin 0; Fin 0; Fin 0.5; Fin 0]; [Fin (-0.02); Fin 0; Fin 0; Fin 0; Fin 0]]
    (Fin 0.5).


(** *** Short names and colours *)

Lemma systemShort_idempotent (label : string) :
  systemShort (systemShort label) = systemShort label.
Proof.
  unfold systemShort.
  destruct (test_ci "pristine" label) eqn:H1; [reflexivity|].
  destruct (test_ci "2zr" label || test_ci "zr2" label) eqn:H2; [reflexivity|].
  destruct (test_ci "1zr" label || test_ci "zr" label) eqn:H3; [reflexivity|].
  rewrite H1, H2, H3. reflexivity.
Qed.

Lemma systemColor_short (label : string) :
  systemColor (systemShort label) = systemColor label.
Proof.
  unfold systemShort, systemColor.
  destruct (test_ci "pristine" label) eqn:H1; [reflexivity|].
  destruct (test_ci "2zr" label || test_ci "zr2" label) eqn:H2; [reflexivity|].
  destruct (test_ci "1zr" label || test_ci "zr" label) eqn:H3; [reflexivity|].
  rewrite H1, H2, H3. reflexivity.
Qed.


(** X13.  The short name of a short name is itself, and the rank and the
    colour of a label are those of its short name: labels that share a
    short name are drawn in one colour and sort to one place. *)
Theorem short_name_decides_colour_and_rank (label : string) :
  systemShort (systemShort label) = systemShort label /\
  rank (systemShort label) = rank label /\
  systemColor (systemShort label) = systemColor label /\
  (forall other, systemShort other = systemShort label ->
                 systemColor other = systemColor label /\ rank other = rank label).
Proof.
  split; [apply systemShort_idempotent|].
  split; [unfold rank; rewrite systemShort_idempotent; reflexivity|].
  split; [apply systemColor_short|].
  intros other Hother. split.
  - rewrite <- (systemColor_short other), Hother. apply systemColor_short.
  - unfold rank. rewrite Hother. reflexivity.
Qed.

(** *** The display order *)

(** X14.  The order in which the panels list the systems is the stable
    sort of the response's keys by rank: every key is kept, as often as it
    came; the ranks never decrease along the list; and keys of one rank
    stay in the order of the response. *)
Theorem display_order_is_the_stable_sort_by_rank (systems : list string) :
  sort_systems systems ≡ₚ systems /\
  Sorted ranked (sort_systems systems) /\
  (forall r : Z,
      filter (fun y => rank y = r) (sort_systems systems)
      = filter (fun y => rank y = r) systems).
Proof.
  split; [apply sort_systems_perm|]. split; [apply sort_systems_sorted|].
  intros r. apply sort_systems_stable.
Qed.

Lemma indexOf_lower_bound (xs : list string) (x : string) : (-1 <= indexOf xs x)%Z.
Proof.
  induction xs as [|y xs IH]; simpl; [lia|].
  destruct (String.eqb x y); [lia|].
  destruct (indexOf xs x); lia.
Qed.

Lemma sorted_head_least (x : string) (rest : list string) :
  Sorted ranked (x :: rest) -> forall y, y ∈ x :: rest -> (rank x <= rank y)%Z.
Proof.
  intros Hsorted. apply Sorted_StronglySorted in Hsorted.
  - apply StronglySorted_inv in Hsorted as [_ Hall].
    intros y Hy. apply elem_of_cons in Hy as [->|Hy]; [lia|].
    rewrite List.Forall_forall in Hall. apply Hall.
    apply list_elem_of_In. exact Hy.
  - intros a b c. unfold ranked. lia.
Qed.

(** X15.  The reference system of a panel, the first in display order, is
    the first key of least rank in the response.  A key that none of the
    three patterns recognises has the least rank there is, so it takes the
    place before Pristine: if the response has such a key, the reference
    system is one. *)
Theorem reference_system_is_first_of_least_rank (systems : list string) (ref : string) :
  head (sort_systems systems) = Some ref ->
  ref ∈ systems /\
  (forall s, s ∈ systems -> (rank ref <= rank s)%Z) /\
  head (filter (fun y => rank y = rank ref) systems) = Some ref /\
  (forall s, s ∈ systems -> rank s = (-1)%Z -> rank ref = (-1)%Z).
Proof.
  intros Hhead.
  destruct (sort_systems systems) as [|x rest] eqn:Hsorted; [discriminate|].
  injection Hhead as ->.
  pose proof (sort_systems_perm systems) as Hperm. rewrite Hsorted in Hperm.
  pose proof (sort_systems_sorted systems) as Hs. rewrite Hsorted in Hs.
  assert (Hleast : forall s, s ∈ systems -> (rank ref <= rank s)%Z).
  { intros s Hin. apply (sorted_head_least ref rest Hs). rewrite Hperm. exact Hin. }
  split; [rewrite <- Hperm; apply list_elem_of_here|]. split; [exact Hleast|]. split.
  - rewrite <- (sort_systems_stable (rank ref) systems), Hsorted.
    rewrite filter_cons. destruct (decide (rank ref = rank ref)); [reflexivity|contradiction].
  - intros s Hin Hunknown. specialize (Hleast s Hin).
    pose proof (indexOf_lower_bound order (systemShort ref)) as Hlow.
    unfold rank in *. lia.
Qed.

(** *** The size of a coverage chart *)





(** *** Keys of a chart point *)

Lemma add_series_other (data : value) (i : nat) (point : gmap string value)
  (s key : string) :
  systemShort s <> key ->
  add_series data i point s !! key = point !! key.
Proof.
  intros Hne. unfold add_series.
  destruct (truthy (index data s)); [|reflexivity].
  destruct (as_array (opt_prop (index data s) "coverages")) as [coverages|]; [|reflexivity].
  destruct (coverages !! i); [|reflexivity].
  apply lookup_assign_ne. exact Hne.
Qed.

Lemma fold_series_other (data : value) (i : nat) (key : string) (systems : list string) :
  forall point : gmap string value,
  (forall s, s ∈ systems -> systemShort s <> key) ->
  fold_left (add_series data i) systems point !! key = point !! key.
Proof.
  induction systems as [|s systems IH]; intros point Hnone; simpl; [reflexivity|].
  rewrite IH.
  - apply add_series_other, Hnone, list_elem_of_here.
  - intros s' Hs'. apply Hnone, list_elem_of_further, Hs'.
Qed.

(** X17.  When no system of the response has the x key of the chart ("T"
    or "P") for its short name, every point of a coverage chart has under
    that key the grid value at the point's own index. *)
Theorem chart_points_keep_the_grid_value (grid_key x_key : string) (data : value)
  (points : list (gmap string value)) :
  (forall s, s ∈ Object_keys data -> systemShort s <> x_key) ->
  coverage_chart_data grid_key x_key data = Some points ->
  exists grid : list value,
    as_array (opt_prop (index data (default ""%string (head (sort_systems (Object_keys data)))))
                grid_key) = Some grid /\
    forall k point,
      points !! k = Some point ->
      k * Nat.max 1 (length grid / 50) < length grid /\
      point !! x_key = grid !! (k * Nat.max 1 (length grid / 50)).
Proof.
  intros Hnone Hdata.
  destruct (coverage_chart_data_stride _ _ _ _ Hdata)
    as (grid & systems & -> & Hgrid & Hpoints & Hfrom & _).
  cbv zeta in Hpoints, Hfrom. exists grid. split; [exact Hgrid|].
  intros k point Hk.
  assert (Hpoint : point = point_at x_key grid data (sort_systems (Object_keys data))
                             (k * Nat.max 1 (length grid / 50))).
  { rewrite Hpoints in Hk. apply list_lookup_fmap_Some in Hk as (j & -> & Hj).
    apply lookup_seq in Hj as [-> _]. reflexivity. }
  assert (Hx : point !! x_key
               = Some (default VUndefined (grid !! (k * Nat.max 1 (length grid / 50))))).
  { rewrite Hpoint. unfold point_at. rewrite fold_series_other.
    - apply lookup_singleton_eq.
    - intros s Hs. apply Hnone. rewrite <- (sort_systems_perm (Object_keys data)). exact Hs. }
  destruct (Hfrom k point x_key _ Hk Hx) as [Hlt _]. split; [exact Hlt|].
  rewrite Hx. destruct (lookup_lt_is_Some_2 grid _ Hlt) as [g ->]. reflexivity.
Qed.

(** X18.  Systems that share a short name share a key of the chart point,
    and the later one in display order wins: the point holds the coverage
    of the last system of that short name that has one at the index,
    whatever the systems before it had.  The short name ["__proto__"] is
    left out: an assignment under it gives the point no key. *)
Theorem last_series_of_a_short_name_wins (x_key : string) (grid : list value)
  (data : value) (before after : list string) (s : string) (i : nat)
  (coverages : list value) (c : value) :
  systemShort s <> "__proto__"%string ->
  truthy (index data s) = true ->
  as_array (opt_prop (index data s) "coverages") = Some coverages ->
  coverages !! i = Some c ->
  (forall s', s' ∈ after -> systemShort s' <> systemShort s) ->
  point_at x_key grid data (before ++ s :: after) i !! systemShort s = Some c.
Proof.
  intros Hown Htruthy Harr Hc Hafter. unfold point_at.
  rewrite fold_left_app. simpl. rewrite fold_series_other by exact Hafter.
  unfold add_series. rewrite Htruthy, Harr, Hc. apply lookup_assign_eq, Hown.
Qed.

(** *** More on the heat map *)

(** X19.  The heat map reads of the response only [pairs_found], the
    systems of [shifts] and, for each system, the five descriptors of the
    panel: two responses that agree on these give the same heat map,
    whatever else they hold. *)
Theorem heatmap_reads_the_five_descriptors_only (a b : value) :
  opt_prop a "pairs_found" = opt_prop b "pairs_found" ->
  truthy (opt_prop a "shifts") = truthy (opt_prop b "shifts") ->
  Object_keys (opt_prop a "shifts") = Object_keys (opt_prop b "shifts") ->
  (forall sys d, d ∈ descs ->
     opt_prop (index (opt_prop a "shifts") sys) d
     = opt_prop (index (opt_prop b "shifts") sys) d) ->
  PanelDescriptorShifts a = PanelDescriptorShifts b.
Proof.
  intros Hpairs Htruthy Hkeys Hvalues. unfold PanelDescriptorShifts.
  rewrite Hpairs, Htruthy, Hkeys.
  assert (Hrows : map (fun sys => map (shift_value (opt_prop a "shifts") sys) descs)
                    (sort_systems (Object_keys (opt_prop b "shifts")))
                  = map (fun sys => map (shift_value (opt_prop b "shifts") sys) descs)
                      (sort_systems (Object_keys (opt_prop b "shifts")))).
  { apply map_ext. intros sys. apply map_ext_in. intros d Hd.
    unfold shift_value. rewrite Hvalues; [reflexivity|].
    apply list_elem_of_In. exact Hd. }
  rewrite Hrows. reflexivity.
Qed.

Lemma Math_max_finite (vals : list number) (floor : Q) :
  (forall v, v ∈ vals -> isNaN v = false) ->
  exists m,
    Math_max (map Math_abs vals) (Fin floor) = Fin m /\
    (floor <= m)%Q /\
    forall q, Fin q ∈ vals -> (Qabs q <= m)%Q.
Proof.
  induction vals as [|v vals IH]; intros Hfinite; simpl.
  - exists floor. split; [reflexivity|]. split; [apply Qle_refl|].
    intros q Hq. apply elem_of_nil in Hq. contradiction.
  - destruct IH as (m & Hm & Hfloor & Hall).
    { intros w Hw. apply Hfinite, list_elem_of_further, Hw. }
    fold (Math_max (map Math_abs vals) (Fin floor)). rewrite Hm.
    destruct v as [|q0]; [specialize (Hfinite NaN (list_elem_of_here _ _)); discriminate|].
    simpl. exists (Qmax (Qabs q0) m). split; [reflexivity|]. split.
    + eapply Qle_trans; [exact Hfloor|apply Q.le_max_r].
    + intros q Hq. apply elem_of_cons in Hq as [Heq | Hq].
      * injection Heq as ->. apply Q.le_max_l.
      * eapply Qle_trans; [apply Hall, Hq|apply Q.le_max_r].
Qed.

Lemma elem_of_concat_iff {A : Type} (x : A) (ls : list (list A)) :
  x ∈ concat ls <-> exists l, x ∈ l /\ l ∈ ls.
Proof.
  induction ls as [|l ls IH]; simpl.
  - split; [intros H; apply elem_of_nil in H; contradiction|].
    intros (l & _ & H). apply elem_of_nil in H. contradiction.
  - rewrite elem_of_app, IH. split.
    + intros [H | (l' & Hx & Hl')].
      * exists l. split; [exact H|apply list_elem_of_here].
      * exists l'. split; [exact Hx|apply list_elem_of_further, Hl'].
    + intros (l' & Hx & Hl'). apply elem_of_cons in Hl' as [-> | Hl']; [left; exact Hx|].
      right. exists l'. split; assumption.
Qed.

Lemma heatmap_scale (shiftsData : value) (h : Heatmap) :
  PanelDescriptorShifts shiftsData = Fulfilled (Some h) ->
  heat_maxAbs h = maxAbs_of (heat_values h).
Proof.
  unfold PanelDescriptorShifts.
  destruct (negb (truthy (opt_prop shiftsData "shifts")) || _); [discriminate|].
  destruct (traverse (traverse as_number) _) as [rows|e]; [|discriminate].
  simpl. intros [= <-]. reflexivity.
Qed.

(** X20.  The maximum of the colour scale is a number of at least 0.001,
    and no cell of the heat map exceeds it in magnitude: the intensity
    [|v| / maxAbs] of a cell never divides by zero and never passes 1.
    (The values are taken to be finite, as the numbers of a JSON text
    are.) *)
Theorem heatmap_scale_bounds_every_cell (shiftsData : value) (h : Heatmap) :
  PanelDescriptorShifts shiftsData = Fulfilled (Some h) ->
  (forall row v, row ∈ heat_values h -> v ∈ row -> isNaN v = false) ->
  exists m,
    heat_maxAbs h = Fin m /\
    (0.001 <= m)%Q /\
    forall row q, row ∈ heat_values h -> Fin q ∈ row -> (Qabs q <= m)%Q.
Proof.
  intros Hpanel Hfinite.
  pose proof (heatmap_scale shiftsData h Hpanel) as Hscale. unfold maxAbs_of in Hscale.
  destruct (Math_max_finite
              (filter (fun v => not_zero v = true) (concat (heat_values h))) 0.001)
    as (m & Hm & Hfloor & Hall).
  { intros v Hv. apply list_elem_of_filter in Hv as [_ Hv].
    apply elem_of_concat_iff in Hv as (row & Hv & Hrow). apply (Hfinite row v Hrow Hv). }
  exists m. split; [rewrite Hscale; exact Hm|]. split; [exact Hfloor|].
  intros row q Hrow Hq.
  destruct (not_zero (Fin q)) eqn:Hnz.
  - apply Hall. apply list_elem_of_filter. split; [exact Hnz|].
    apply elem_of_concat_iff. exists row. split; assumption.
  - unfold not_zero, is_zero in Hnz. apply negb_false_iff, Qeq_bool_iff in Hnz.
    rewrite Hnz. simpl. eapply Qle_trans; [|exact Hfloor]. discriminate.
Qed.



(** *** Panel (d) *)

Lemma existsb_InA (p : Q) (l : list Q) : existsb (Qeq_bool p) l = true <-> InA Qeq p l.
Proof.
  rewrite existsb_exists, InA_alt. split.
  - intros (q & Hin & Heq). exists q. split; [apply Qeq_bool_iff, Heq|exact Hin].
  - intros (q & Heq & Hin). exists q. split; [exact Hin|apply Qeq_bool_iff, Heq].
Qed.

Lemma set_add_InA (x p : Q) (l : list Q) :
  InA Qeq x (set_add l p) <-> InA Qeq x l \/ (x == p)%Q.
Proof.
  unfold set_add. destruct (existsb (Qeq_bool p) l) eqn:Hp.
  - apply existsb_InA in Hp. split; [auto|].
    intros [H | H]; [exact H|]. rewrite H. exact Hp.
  - rewrite InA_app_iff. split; (intros [H | H]; [left; exact H|right]).
    + inversion H as [? ? Heq|? ? Hnil]; subst; [exact Heq|inversion Hnil].
    + constructor. exact H.
Qed.

Lemma set_add_NoDupA (p : Q) (l : list Q) : NoDupA Qeq l -> NoDupA Qeq (set_add l p).
Proof.
  intros Hl. unfold set_add. destruct (existsb (Qeq_bool p) l) eqn:Hp; [exact Hl|].
  apply NoDupA_app; [apply Q_Setoid|exact Hl|repeat constructor; intros H; inversion H|].
  intros x Hx Hxp. inversion Hxp as [? ? Heq|? ? Hnil]; subst; [|inversion Hnil].
  rewrite Heq in Hx. apply existsb_InA in Hx. congruence.
Qed.

Lemma fold_set_add (ps : list Q) :
  forall l : list Q,
  NoDupA Qeq l ->
  NoDupA Qeq (fold_left set_add ps l) /\
  forall x, InA Qeq x (fold_left set_add ps l) <-> InA Qeq x l \/ InA Qeq x ps.
Proof.
  induction ps as [|p ps IH]; intros l Hl; simpl.
  - split; [exact Hl|]. intros x. split; [auto|]. intros [H | H]; [exact H|inversion H].
  - destruct (IH (set_add l p) (set_add_NoDupA p l Hl)) as [Hnd Hin].
    split; [exact Hnd|]. intros x. rewrite Hin, set_add_InA, InA_cons. tauto.
Qed.

(** The grid a system contributes to the axis. *)
Definition grid_of (t50Data : value) (s : string) (ps : list Q) : Prop :=
  exists items, opt_prop (index t50Data s) "pressures_bar" = VArr items /\
                numbers items = Some ps.

Lemma collect_pressures_spec (t50Data : value) (systems : list string) :
  forall l out : list Q,
  NoDupA Qeq l ->
  collect_pressures t50Data systems l = Some out ->
  NoDupA Qeq out /\
  forall x, InA Qeq x out <->
            InA Qeq x l \/ exists s ps, s ∈ systems /\ grid_of t50Data s ps /\ InA Qeq x ps.
Proof.
  induction systems as [|s systems IH]; intros l out Hl Hout; simpl in Hout.
  - injection Hout as <-. split; [exact Hl|]. intros x. split; [auto|].
    intros [H | (s & ps & Hs & _)]; [exact H|]. apply elem_of_nil in Hs. contradiction.
  - assert (Hskip : (forall items, opt_prop (index t50Data s) "pressures_bar" <> VArr items) ->
                    collect_pressures t50Data systems l = Some out ->
                    NoDupA Qeq out /\
                    forall x, InA Qeq x out <->
                      InA Qeq x l \/
                      exists s' ps, s' ∈ s :: systems /\ grid_of t50Data s' ps /\ InA Qeq x ps).
    { intros Hnot Hrest. destruct (IH l out Hl Hrest) as [Hnd Hin]. split; [exact Hnd|].
      intros x. rewrite Hin. split; intros [H | (s' & ps & Hs' & Hgrid & Hx)]; auto.
      - right. exists s', ps. split; [apply list_elem_of_further, Hs'|auto].
      - right. apply elem_of_cons in Hs' as [-> | Hs'].
        + destruct Hgrid as (items & Hitems & _). exfalso. apply (Hnot items Hitems).
        + exists s', ps. auto. }
    destruct (opt_prop (index t50Data s) "pressures_bar") as [| | | | |items|] eqn:Hp;
      try (apply Hskip; [intros items'; discriminate|exact Hout]).
    clear Hskip. destruct (numbers items) as [ps|] eqn:Hps; [|discriminate].
    destruct (fold_set_add ps l Hl) as [Hnd0 Hin0].
    destruct (IH _ out Hnd0 Hout) as [Hnd Hin]. split; [exact Hnd|].
    intros x. rewrite Hin, Hin0. split.
    + intros [[H | H] | (s' & ps' & Hs' & Hgrid & Hx)]; auto.
      * right. exists s, ps. split; [apply list_elem_of_here|]. split; [|exact H].
        exists items. split; [exact Hp|exact Hps].
      * right. exists s', ps'. split; [apply list_elem_of_further, Hs'|auto].
    + intros [H | (s' & ps' & Hs' & Hgrid & Hx)]; auto.
      apply elem_of_cons in Hs' as [-> | Hs'].
      * destruct Hgrid as (items' & Hitems' & Hps'). rewrite Hp in Hitems'.
        injection Hitems' as <-. rewrite Hps in Hps'. injection Hps' as <-. auto.
      * right. exists s', ps'. auto.
Qed.

Lemma insert_pressure_InA (x p : Q) (l : list Q) :
  InA Qeq x (insert_pressure p l) <-> (x == p)%Q \/ InA Qeq x l.
Proof.
  induction l as [|q l IH]; simpl.
  - rewrite InA_cons. reflexivity.
  - destruct (Qle_bool p q); rewrite !InA_cons; [reflexivity|]. rewrite IH. tauto.
Qed.

Lemma insert_pressure_Forall (P : Q -> Prop) (p : Q) (l : list Q) :
  P p -> List.Forall P l -> List.Forall P (insert_pressure p l).
Proof.
  intros Hp Hl. induction Hl as [|q l Hq Hl IH]; simpl; [repeat constructor; exact Hp|].
  destruct (Qle_bool p q); repeat constructor; assumption.
Qed.

Lemma insert_pressure_sorted (p : Q) (l : list Q) :
  StronglySorted Qlt l -> ~ InA Qeq p l -> StronglySorted Qlt (insert_pressure p l).
Proof.
  induction 1 as [|q l Hl IH Hq]; intros Hnew; simpl; [repeat constructor|].
  assert (Hpq : ~ (p == q)%Q) by (intros Heq; apply Hnew; constructor; exact Heq).
  destruct (Qle_bool p q) eqn:Hle.
  - apply Qle_bool_iff in Hle.
    assert (Hlt : (p < q)%Q).
    { destruct (Qlt_le_dec p q) as [H | H]; [exact H|].
      exfalso. apply Hpq. apply Qle_antisym; assumption. }
    constructor; [constructor; assumption|]. constructor; [exact Hlt|].
    eapply List.Forall_impl; [|exact Hq]. intros r Hr. eapply Qlt_trans; eassumption.
  - assert (Hlt : (q < p)%Q).
    { destruct (Qlt_le_dec q p) as [H | H]; [exact H|].
      apply Qle_bool_iff in H. congruence. }
    constructor.
    + apply IH. intros Hin. apply Hnew. apply InA_cons_tl. exact Hin.
    + apply insert_pressure_Forall; assumption.
Qed.

Lemma sort_pressures_InA (x : Q) (l : list Q) :
  InA Qeq x (sort_pressures l) <-> InA Qeq x l.
Proof.
  induction l as [|p l IH]; simpl; [reflexivity|].
  rewrite insert_pressure_InA, InA_cons, IH. reflexivity.
Qed.

Lemma sort_pressures_sorted (l : list Q) :
  NoDupA Qeq l -> StronglySorted Qlt (sort_pressures l).
Proof.
  induction 1 as [|p l Hnew Hl IH]; simpl; [constructor|].
  apply insert_pressure_sorted; [exact IH|]. rewrite sort_pressures_InA. exact Hnew.
Qed.

(** X25.  The pressure axis of panel (d) is the union of the pressure
    grids of the systems: the chart has one point per pressure of the
    axis, the axis increases strictly from point to point (so no pressure
    comes twice), every pressure of every system is on it, and every
    pressure on it is one of some system. *)
Theorem t50_axis_merges_the_pressure_grids (t50Data : value)
  (points : list (gmap string value)) :
  PanelT50vsPressure t50Data = Some (Some points) ->
  exists pressures : list Q,
    points = map (T50_point t50Data (sort_systems (Object_keys t50Data))) pressures /\
    pressures <> [] /\
    StronglySorted Qlt pressures /\
    forall p,
      InA Qeq p pressures <->
      exists s ps, s ∈ Object_keys t50Data /\ grid_of t50Data s ps /\ InA Qeq p ps.
Proof.
  unfold PanelT50vsPressure, T50_pressures. intros Hpanel.
  destruct (negb (truthy t50Data) || _); [discriminate|].
  destruct (collect_pressures t50Data (sort_systems (Object_keys t50Data)) [])
    as [set|] eqn:Hcollect; [|discriminate].
  simpl in Hpanel.
  destruct (sort_pressures set) as [|p0 rest] eqn:Hsorted; [discriminate|].
  injection Hpanel as <-. exists (p0 :: rest).
  split; [reflexivity|]. split; [discriminate|]. rewrite <- Hsorted.
  destruct (collect_pressures_spec t50Data _ [] set (NoDupA_nil Qeq) Hcollect) as [Hnd Hin].
  split; [apply sort_pressures_sorted, Hnd|].
  intros p. rewrite sort_pressures_InA, Hin. split.
  - intros [H | (s & ps & Hs & Hrest)]; [inversion H|].
    exists s, ps. split; [|exact Hrest].
    rewrite <- (sort_systems_perm (Object_keys t50Data)). exact Hs.
  - intros (s & ps & Hs & Hrest). right. exists s, ps. split; [|exact Hrest].
    rewrite (sort_systems_perm (Object_keys t50Data)). exact Hs.
Qed.

Lemma add_T50_other (t50Data : value) (p : Q) (point : gmap string value)
  (s key : string) :
  systemShort s <> key ->
  add_T50 t50Data p point s !! key = point !! key.
Proof.
  intros Hne. unfold add_T50.
  destruct (truthy (index t50Data s)); [|reflexivity].
  destruct (as_array (opt_prop (index t50Data s) "pressures_bar")); [|reflexivity].
  destruct (as_array (opt_prop (index t50Data s) "T50_K")) as [ts|]; [|reflexivity].
  destruct (indexOf_number p _) as [idx|]; [|reflexivity].
  destruct (ts !! idx); [|reflexivity].
  apply lookup_assign_ne. exact Hne.
Qed.

Lemma fold_T50_other (t50Data : value) (p : Q) (key : string) (systems : list string) :
  forall point : gmap string value,
  (forall s, s ∈ systems -> systemShort s <> key) ->
  fold_left (add_T50 t50Data p) systems point !! key = point !! key.
Proof.
  induction systems as [|s systems IH]; intros point Hnone; simpl; [reflexivity|].
  rewrite IH.
  - apply add_T50_other, Hnone, list_elem_of_here.
  - intros s' Hs'. apply Hnone, list_elem_of_further, Hs'.
Qed.

Lemma indexOf_number_first (p : Q) (items : list value) (idx : nat) :
  indexOf_number p items = Some idx ->
  (exists q, items !! idx = Some (VNum (Fin q)) /\ (q == p)%Q) /\
  forall j q, j < idx -> items !! j = Some (VNum (Fin q)) -> ~ (q == p)%Q.
Proof.
  revert idx. induction items as [|x items IH]; intros idx Hidx; simpl in Hidx; [discriminate|].
  destruct (match x with VNum (Fin q) => Qeq_bool q p | _ => false end) eqn:Hx.
  - injection Hidx as <-. split; [|intros j q Hj; lia].
    destruct x as [| | |[|q]| | |]; try discriminate.
    exists q. split; [reflexivity|apply Qeq_bool_iff, Hx].
  - destruct (indexOf_number p items) as [i|]; [|discriminate].
    injection Hidx as <-. destruct (IH i eq_refl) as [Hat Hbefore].
    split; [exact Hat|]. intros [|j] q Hj Hq; simpl in Hq.
    + injection Hq as ->. intros Heq. apply Qeq_bool_iff in Heq. congruence.
    + apply (Hbefore j q); [lia|exact Hq].
Qed.

(** X26.  For a system that shares its short name with no other system
    (and whose short name is neither "pressure" nor "__proto__", under
    which an assignment gives the point no key), the chart point of a
    pressure holds the T50 that stands at the first index at which the
    system's grid has that pressure, and holds nothing for the system when
    its grid lacks the pressure, when its T50 array ends before that
    index, or when one of the two arrays is missing. *)
Theorem t50_point_reads_the_first_match (t50Data : value) (before after : list string)
  (s : string) (p : Q) :
  (forall s', s' ∈ before ++ after -> systemShort s' <> systemShort s) ->
  systemShort s <> "pressure"%string ->
  systemShort s <> "__proto__"%string ->
  let sysData := index t50Data s in
  T50_point t50Data (before ++ s :: after) p !! systemShort s
  = (if truthy sysData then
       match as_array (opt_prop sysData "pressures_bar"),
             as_array (opt_prop sysData "T50_K") with
       | Some pressures, Some temperatures =>
           match indexOf_number p pressures with
           | Some idx => temperatures !! idx
           | None => None
           end
       | _, _ => None
       end
     else None) /\
  (forall pressures idx,
      indexOf_number p pressures = Some idx ->
      (exists q, pressures !! idx = Some (VNum (Fin q)) /\ (q == p)%Q) /\
      forall j q, j < idx -> pressures !! j = Some (VNum (Fin q)) -> ~ (q == p)%Q).
Proof.
  intros Hothers Hkey Hown sysData. unfold T50_point.
  assert (Hbefore : forall s', s' ∈ before -> systemShort s' <> systemShort s).
  { intros s' Hs'. apply Hothers, elem_of_app. left. exact Hs'. }
  assert (Hafter : forall s', s' ∈ after -> systemShort s' <> systemShort s).
  { intros s' Hs'. apply Hothers, elem_of_app. right. exact Hs'. }
  split; [|intros pressures idx; apply indexOf_number_first].
  rewrite fold_left_app. simpl. rewrite fold_T50_other by exact Hafter.
  set (base := fold_left (add_T50 t50Data p) before _).
  assert (Hbase : base !! systemShort s = None).
  { subst base. rewrite fold_T50_other by exact Hbefore.
    apply lookup_singleton_ne. congruence. }
  unfold add_T50. fold sysData.
  destruct (truthy sysData); [|exact Hbase].
  destruct (as_array (opt_prop sysData "pressures_bar")) as [ps|]; [|exact Hbase].
  destruct (as_array (opt_prop sysData "T50_K")) as [ts|]; [|exact Hbase].
  destruct (indexOf_number p ps) as [idx|]; [|exact Hbase].
  destruct (ts !! idx) as [t|]; [apply lookup_assign_eq, Hown|exact Hbase].
Qed.

(** A T50 response of two systems on different grids; the T50 array of
    the second ends early. *)
Definition sample_t50 : value :=
  VObj [("1Zr-TiO2",
         VObj [("pressures_bar", VArr [VNum (Fin 1); VNum (Fin 10)]);
               ("T50_K", VArr [VNum (Fin 300); VNum (Fin 320)])]);
        ("Pristine",
         VObj [("pressures_bar", VArr [VNum (Fin 0.1); VNum (Fin 1)]);
               ("T50_K", VArr [VNum (Fin 250)])])].

Definition sample_t50_points : list (gmap string value) :=
  default [] (default None (PanelT50vsPressure sample_t50)).

Lemma t50_axis_witness :
  exists pressures : list Q,
    sample_t50_points
    = map (T50_point sample_t50 (sort_systems (Object_keys sample_t50))) pressures /\
    StronglySorted Qlt pressures.
Proof.
  destruct (t50_axis_merges_the_pressure_grids sample_t50 sample_t50_points)
    as (pressures & Hpoints & _ & Hsorted & _); [vm_compute; reflexivity|].
  exists pressures. split; [exact Hpoints|exact Hsorted].
Defined.

(** The three points of that chart: at 1 bar the first system has no T50
    to show. *)
Example sample_t50_chart :
  map (fun point => (point !! "pressure", point !! "Pristine", point !! "1Zr"))
    sample_t50_points
  = [(Some (VNum (Fin 0.1)), Some (VNum (Fin 250)), None);
     (Some (VNum (Fin 1)), None, Some (VNum (Fin 300)));
     (Some (VNum (Fin 10)), None, Some (VNum (Fin 320)))].
Proof. vm_compute. reflexivity. Qed.

Lemma t50_point_witness :
  T50_point sample_t50 (["Pristine"] ++ "1Zr-TiO2" :: []) 10 !! "1Zr"
  = Some (VNum (Fin 320)).
Proof.
  destruct (t50_point_reads_the_first_match sample_t50 ["Pristine"] [] "1Zr-TiO2" 10)
    as (Hpoint & _).
  - intros s' Hs'. apply list_elem_of_singleton in Hs' as ->. vm_compute. discriminate.
  - vm_compute. discriminate.
  - vm_compute. discriminate.
  - etransitivity; [exact Hpoint|]. vm_compute. reflexivity.
Defined.

(** *** Panel (a) *)

Lemma place_lollipop_perm (x : Lollipop) (sorted : list Lollipop) :
  place_lollipop x sorted ≡ₚ x :: sorted.
Proof.
  induction sorted as [|y rest IH]; simpl; [reflexivity|].
  destruct (_ <=? _)%Z; [reflexivity|].
  rewrite IH. apply Permutation_swap.
Qed.

Lemma sort_lollipops_perm (chartData : list Lollipop) :
  sort_lollipops chartData ≡ₚ chartData.
Proof.
  induction chartData as [|x chartData IH]; simpl; [reflexivity|].
  rewrite place_lollipop_perm, IH. reflexivity.
Qed.

Lemma place_lollipop_names (entry : string * value) (sorted : list Lollipop) :
  forall labels : list string,
  map lollipop_name sorted = map systemShort labels ->
  map lollipop_name (place_lollipop (lollipop_of entry) sorted)
  = map systemShort (place entry.1 labels).
Proof.
  induction sorted as [|y rest IH]; intros [|l labels] Hnames; simpl in *;
    try discriminate; [reflexivity|].
  injection Hnames as Hy Hrest. unfold rank at 1 2. rewrite <- Hy.
  destruct (_ <=? _)%Z; simpl.
  - rewrite Hy, Hrest. reflexivity.
  - rewrite Hy. f_equal. apply IH, Hrest.
Qed.

Lemma sort_lollipops_names (entries : list (string * value)) :
  map lollipop_name (sort_lollipops (map lollipop_of entries))
  = map systemShort (sort_systems (map fst entries)).
Proof.
  induction entries as [|entry entries IH]; simpl; [reflexivity|].
  apply place_lollipop_names, IH.
Qed.

(** X27.  Of a response marked as found, panel (a) throws when [data] is
    [null] or missing; otherwise it draws one lollipop for every entry of
    [data], with the entry's value untouched, lists them in the display
    order of the other panels (the stable sort of the labels by rank), and
    gives each the colour of the name it is shown under. *)
Theorem lollipops_follow_the_display_order (eadsData : value) :
  let data := opt_prop eadsData "data" in
  truthy (opt_prop eadsData "found") = true ->
  (data = VUndefined \/ data = VNull ->
   exists e : Error, PanelEadsLollipop eadsData = Rejected e) /\
  (data <> VUndefined -> data <> VNull ->
   exists chartData : list Lollipop,
     PanelEadsLollipop eadsData = Fulfilled (Some chartData) /\
     chartData ≡ₚ map (fun entry : string * value =>
                         mkLollipop (systemShort entry.1) entry.2 (systemColor entry.1))
                    (own_props data) /\
     map lollipop_name chartData = map systemShort (sort_systems (Object_keys data)) /\
     Forall (fun d => lollipop_color d = systemColor (lollipop_name d)) chartData).
Proof.
  intros data Hfound. unfold PanelEadsLollipop. rewrite Hfound. simpl negb. cbv iota.
  fold data.
  assert (Hshown : forall entries,
            sort_lollipops (map lollipop_of entries) ≡ₚ map lollipop_of entries /\
            map lollipop_name (sort_lollipops (map lollipop_of entries))
            = map systemShort (sort_systems (map fst entries)) /\
            Forall (fun d => lollipop_color d = systemColor (lollipop_name d))
              (sort_lollipops (map lollipop_of entries))).
  { intros entries. split; [apply sort_lollipops_perm|]. split; [apply sort_lollipops_names|].
    rewrite sort_lollipops_perm. apply Forall_fmap, Forall_forall.
    intros entry _. simpl. symmetry. apply systemColor_short. }
  split.
  - intros [-> | ->]; simpl; eauto.
  - intros Hundefined Hnull.
    exists (sort_lollipops (map lollipop_of (own_props data))).
    split; [|apply Hshown].
    destruct data; try contradiction; reflexivity.
Qed.

(** An adsorption-energy response. *)
Definition sample_eads : value :=
  VObj [("found", VBool true);
        ("data", VObj [("2Zr-TiO2", VNum (Fin (-0.31))); ("Pristine", VNum (Fin (-0.12)));
                       ("1Zr-TiO2", VNum (Fin (-0.25)))])].

Lemma lollipops_witness :
  exists chartData : list Lollipop,
    PanelEadsLollipop sample_eads = Fulfilled (Some chartData) /\
    map lollipop_name chartData
    = map systemShort (sort_systems (Object_keys (opt_prop sample_eads "data"))).
Proof.
  destruct (lollipops_follow_the_display_order sample_eads eq_refl) as [_ Hdraws].
  destruct Hdraws as (chartData & Hpanel & _ & Hnames & _);
    [vm_compute; discriminate|vm_compute; discriminate|].
  exists chartData. split; assumption.
Defined.

(** Found, but without [data]: the panel throws. *)
Example lollipops_without_data :
  PanelEadsLollipop (VObj [("found", VBool true)])
  = Rejected (type_error "Cannot convert undefined or null to object").
Proof. reflexivity. Qed.

Example sample_lollipops :
  PanelEadsLollipop sample_eads
  = Fulfilled (Some [mkLollipop "Pristine" (VNum (Fin (-0.12))) (Some "#2ca02c"%string);
                     mkLollipop "1Zr" (VNum (Fin (-0.25))) (Some "#1f77b4"%string);
                     mkLollipop "2Zr" (VNum (Fin (-0.31))) (Some "#d62728"%string)]).
Proof. vm_compute. reflexivity. Qed.

(** *** Further runs on sample responses *)

(** A response with a system that no pattern recognises. *)
Definition with_unknown : list string := ["Pristine"; "TiO2-ref"; "1Zr-TiO2"; "bulk"].

Lemma reference_system_witness :
  rank "TiO2-ref" = (-1)%Z /\
  head (filter (fun y => rank y = rank "TiO2-ref") with_unknown) = Some "TiO2-ref"%string.
Proof.
  destruct (reference_system_is_first_of_least_rank with_unknown "TiO2-ref")
    as (_ & _ & Hfirst & Hunknown); [reflexivity|].
  split; [|exact Hfirst].
  apply (Hunknown "bulk"); [|reflexivity].
  unfold with_unknown. set_solver.
Defined.

Lemma grid_value_witness :
  exists grid : list value,
    as_array (opt_prop (index sample_coverage
                          (default ""%string (head (sort_systems (Object_keys sample_coverage)))))
                "temperatures_K") = Some grid /\
    forall k point,
      chart_data sample_chart !! k = Some point ->
      k * Nat.max 1 (length grid / 50) < length grid /\
      point !! "T" = grid !! (k * Nat.max 1 (length grid / 50)).
Proof.
  apply (chart_points_keep_the_grid_value "temperatures_K" "T" sample_coverage
           (chart_data sample_chart)).
  - intros s Hs. change (s ∈ ["2Zr-TiO2"; "Pristine"]) in Hs.
    apply elem_of_cons in Hs as [-> | Hs]; [vm_compute; discriminate|].
    apply list_elem_of_singleton in Hs as ->. vm_compute. discriminate.
  - vm_compute. reflexivity.
Defined.

(** Two systems that the patterns give one short name. *)
Definition colliding : value :=
  VObj [("1Zr-TiO2", VObj [("coverages", VArr [VNum (Fin 0.9)])]);
        ("3Zr-TiO2", VObj [("coverages", VArr [VNum (Fin 0.2)])])].

Lemma last_series_witness :
  point_at "T" [VNum (Fin 300)] colliding (["1Zr-TiO2"] ++ "3Zr-TiO2" :: []) 0 !! "1Zr"
  = Some (VNum (Fin 0.2)).
Proof.
  apply (last_series_of_a_short_name_wins "T" [VNum (Fin 300)] colliding
           ["1Zr-TiO2"] [] "3Zr-TiO2" 0 [VNum (Fin 0.2)] (VNum (Fin 0.2)));
    try reflexivity.
  - vm_compute. discriminate.
  - intros s' Hs'. apply elem_of_nil in Hs'. contradiction.
Defined.

(** A system labelled ["__proto__"] leaves no key in the point. *)
Example proto_series_leaves_no_key :
  point_at "T" [VNum (Fin 300)]
    (VObj [("__proto__", VObj [("coverages", VArr [VNum (Fin 0.5)])])]) ["__proto__"] 0
  = {["T" := VNum (Fin 300)]}.
Proof. reflexivity. Qed.

(** [sample_shifts] with a descriptor the panel does not show. *)
Definition sample_shifts_more : value :=
  VObj [("pairs_found", VNum (Fin 2));
        ("descriptors", VArr [VStr "Eg_eV"; VStr "HOMO_eV"]);
        ("shifts",
         VObj [("1Zr", VObj [("HOMO_eV", VNum (Fin 7)); ("Eg_eV", VNum (Fin (-0.02)));
                             ("mu_eV", VNull)]);
               ("Pristine", VObj [("chi_eV", VNum (Fin 0.5))])])].

Lemma heatmap_reads_witness :
  PanelDescriptorShifts sample_shifts_more = PanelDescriptorShifts sample_shifts.
Proof.
  apply (heatmap_reads_the_five_descriptors_only sample_shifts_more sample_shifts);
    try reflexivity.
  intros sys d Hd. unfold index, own_props. simpl.
  destruct (String.eqb sys "1Zr"); [|reflexivity].
  change (d ∈ ["Eg_eV"; "mu_eV"; "omega_eV"; "chi_eV"; "eta_eV"]) in Hd.
  repeat (apply elem_of_cons in Hd as [-> | Hd]; [reflexivity|]).
  apply elem_of_nil in Hd. contradiction.
Defined.

Lemma heatmap_scale_witness :
  exists m, heat_maxAbs sample_heatmap = Fin m /\ (0.001 <= m)%Q.
Proof.
  destruct (heatmap_scale_bounds_every_cell sample_shifts sample_heatmap) as (m & Hm & Hfloor & _).
  - vm_compute. reflexivity.
  - assert (Hall : Forall (Forall (fun v => isNaN v = false)) (heat_values sample_heatmap))
      by (repeat constructor).
    intros row v Hrow Hv.
    rewrite Forall_forall in Hall. specialize (Hall row Hrow).
    rewrite Forall_forall in Hall. apply Hall, Hv.
  - exists m. split; [exact Hm|exact Hfloor].
Defined.



(** The T50 request fails, the other three are answered. *)
Definition t50_fails (c : Api.ApiCall) : Outcome value :=
  match c with
  | Api.GetT50 _ _ => Rejected (mkError "API error 500: no isotherm")
  | _ => Fulfilled (VObj [("1Zr", VObj [])])
  end.

Lemma thermo_lines_witness :
  ThermoPlot.systemNames (ThermoPlot.load t50_fails "zr-tio2" ThermoPlot.initial) = [] /\
  ThermoPlot.coverageP (ThermoPlot.load t50_fails "zr-tio2" ThermoPlot.initial)
  = VObj [("1Zr", VObj [])].
Proof.
  apply (thermo_lines_follow_t50 t50_fails "zr-tio2" ThermoPlot.initial
           (mkError "API error 500: no isotherm")).
  reflexivity.
Defined.

End PublicationFiguresFacts.

(** ** Undefined correlations in the table *)

Module DescriptorDashboardFacts.
Import Js DescriptorDashboard.

Lemma render_cell_dash (val : entry) :
  render_cell val = Dash <-> undefined_entry val = true.
Proof.
  destruct val as [| |[|q]]; simpl; split; intros H; try reflexivity; discriminate.
Qed.

Lemma render_cell_figure (q : Q) :
  exists blue white, render_cell (Number (Fin q)) = Figure blue white (mkFixed 2 q) (mkFixed 3 q).
Proof. simpl. eauto. Qed.

Lemma traverse_total {A B : Type} (f : A -> B) (xs : list A) :
  traverse (fun x => Fulfilled (f x)) xs = Fulfilled (map f xs).
Proof.
  induction xs as [|x xs IH]; simpl; [reflexivity|]. rewrite IH. reflexivity.
Qed.

Lemma render_rows_total (cols : list string) (m : list (list entry)) :
  forall i : nat,
  i + length cols <= length m ->
  exists rows,
    render_rows (fun val => Fulfilled (render_cell val)) i cols m = Fulfilled rows /\
    length rows = length cols /\
    forall k entries,
      k < length cols -> m !! (i + k) = Some entries ->
      exists name, rows !! k = Some (name, map render_cell entries).
Proof.
  induction cols as [|row cols IH]; intros i Hlen; simpl in *.
  - exists []. repeat split. intros k entries Hk. lia.
  - destruct (lookup_lt_is_Some_2 m i) as [entries Hentries]; [lia|].
    rewrite Hentries, traverse_total.
    destruct (IH (S i)) as (rows & Hrows & Hlength & Hcells); [lia|].
    rewrite Hrows. simpl. eexists. split; [reflexivity|]. simpl.
    split; [congruence|].
    intros k entries' Hk Hm. destruct k as [|k]; simpl.
    + rewrite Nat.add_0_r in Hm. exists row. congruence.
    + apply (Hcells k entries'); [lia|].
      rewrite <- Hm. f_equal. lia.
Qed.

(** C5.  When the matrix has a row for every column, the table renders,
    and the cell of every entry is the placeholder exactly when the entry
    is [null], [undefined] or [NaN], and otherwise is the figure printed
    from the entry's own value: an undefined correlation is never shown
    as a number, a finite one always as itself. *)
Theorem correlation_table_keeps_undefined (c : Correlation) :
  length (columns c) <= length (matrix c) ->
  exists rows,
    render_table (Some c) = Fulfilled (Some rows) /\
    length rows = length (columns c) /\
    forall i j entries val,
      i < length (columns c) ->
      matrix c !! i = Some entries ->
      entries !! j = Some val ->
      exists name cells cell,
        rows !! i = Some (name, cells) /\
        cells !! j = Some cell /\
        (cell = Dash <-> undefined_entry val = true) /\
        (forall q, val = Number (Fin q) ->
           exists blue white, cell = Figure blue white (mkFixed 2 q) (mkFixed 3 q)).
Proof.
  intros Hshape. unfold render_table.
  destruct (render_rows_total (columns c) (matrix c) 0 Hshape)
    as (rows & Hrows & Hlength & Hcells).
  rewrite Hrows. exists rows. split; [reflexivity|]. split; [exact Hlength|].
  intros i j entries val Hi Hentries Hval.
  destruct (Hcells i entries Hi Hentries) as (name & Hrow).
  exists name, (map render_cell entries), (render_cell val).
  split; [exact Hrow|]. split; [rewrite list_lookup_fmap, Hval; reflexivity|].
  split; [apply render_cell_dash|].
  intros q ->. apply render_cell_figure.
Qed.

(** In [DescriptorDashboard.jsx] the same matrix does not render once it
    holds a [null]: the cell callback throws on it. *)
Remark unguarded_table_throws_on_null :
  DescriptorDashboardJsx.render_table
    (Some (mkCorrelation ["Eg_eV"; "const"]
             [[Number (Fin 1); Null]; [Null; Null]]))
  = Rejected (type_error "Cannot read properties of null (reading 'toFixed')").
Proof. reflexivity. Qed.

(** A matrix with a constant column. *)
Definition sample_correlation : Correlation :=
  mkCorrelation ["Eg_eV"; "const"] [[Number (Fin 1); Null]; [Null; Null]].

Lemma correlation_table_witness :
  exists rows,
    render_table (Some sample_correlation) = Fulfilled (Some rows) /\
    length rows = 2.
Proof.
  destruct (correlation_table_keeps_undefined sample_correlation) as (rows & Hrender & Hlen & _).
  - simpl. lia.
  - exists rows. split; [exact Hrender|exact Hlen].
Defined.

Example sample_figure_text : text_of (mkFixed 2 1) = Some "1.00"%string.
Proof. reflexivity. Qed.

Example sample_correlation_cells :
  render_table (Some sample_correlation)
  = Fulfilled (Some [("Eg_eV", [Figure true true (mkFixed 2 1) (mkFixed 3 1); Dash]);
                     ("const", [Dash; Dash])]).
Proof. reflexivity. Qed.

End DescriptorDashboardFacts.

(** ** The effect of the descriptor dashboard *)

Module DescriptorDashboardLoadFacts.
Import Js Promise DescriptorDashboardLoad.

(** X22.  The effect of [DescriptorDashboard.jsx] joins its three requests
    unguarded, so the load succeeds or fails as a whole.  If all three
    fulfil, the three answers are stored and no error is shown.  If any of
    them rejects, none of the answers is stored (the data shown before
    stay), and the error shown is the message of a request that failed, or
    "Failed to load data" if that message is empty.  Either way [loading]
    ends false. *)
Theorem descriptor_load_fails_as_a_whole
  (settle : Api.ApiCall -> Outcome value) (project : string) (st : State) :
  let done := load settle project st in
  loading done = false /\
  ((exists desc corr sh,
      settle (Api.GetDescriptors project) = Fulfilled desc /\
      settle (Api.GetCorrelation project) = Fulfilled corr /\
      settle (Api.GetShifts project) = Fulfilled sh /\
      done = mkState desc corr sh false None) \/
   (exists c e,
      c ∈ requests project /\ settle c = Rejected e /\
      done = mkState (data st) (correlation st) (shifts st) false (Some (shown e)))).
Proof.
  intros done. subst done. unfold load, requests. simpl.
  destruct (settle (Api.GetDescriptors project)) as [desc|e1] eqn:H1; simpl.
  - destruct (settle (Api.GetCorrelation project)) as [corr|e2] eqn:H2; simpl.
    + destruct (settle (Api.GetShifts project)) as [sh|e3] eqn:H3; simpl.
      * split; [reflexivity|]. left. exists desc, corr, sh. repeat split.
      * split; [reflexivity|]. right. exists (Api.GetShifts project), e3.
        split; [set_solver|]. split; [exact H3|reflexivity].
    + split; [reflexivity|]. right. exists (Api.GetCorrelation project), e2.
      split; [set_solver|]. split; [exact H2|reflexivity].
  - split; [reflexivity|]. right. exists (Api.GetDescriptors project), e1.
    split; [set_solver|]. split; [exact H1|reflexivity].
Qed.

Lemma shown_not_empty (e : Error) : shown e <> ""%string.
Proof.
  unfold shown. destruct (String.eqb_spec (message e) ""); [discriminate|assumption].
Qed.

(** X29.  What the component shows once its effect has run.  If any of
    the three requests rejects, it is the error page, with the message
    shown for a request that rejected, although the figures guard each of
    their own requests.  If all three fulfil, it is the dashboard, and
    with it the publication figures it mounts, when the descriptors
    answer is truthy, and the no-data line when it is falsy.  The loading
    line is never left standing. *)
Theorem figures_need_the_whole_dashboard_load
  (settle : Api.ApiCall -> Outcome value) (project : string) (st : State) :
  let page := view (load settle project st) in
  (forall c e,
      c ∈ requests project -> settle c = Rejected e ->
      exists c' e',
        c' ∈ requests project /\ settle c' = Rejected e' /\ page = ErrorView (shown e')) /\
  (forall desc corr sh,
      settle (Api.GetDescriptors project) = Fulfilled desc ->
      settle (Api.GetCorrelation project) = Fulfilled corr ->
      settle (Api.GetShifts project) = Fulfilled sh ->
      page = if truthy desc then DashboardView else NoDataView) /\
  page <> LoadingView.
Proof.
  assert (Hfailed : forall e,
            view (setLoading false (setError (Some (shown e))
                                      (setError None (setLoading true st))))
            = ErrorView (shown e)).
  { intros e. unfold view. simpl.
    destruct (String.eqb_spec (shown e) "") as [Hempty|_]; [destruct (shown_not_empty e Hempty)|].
    reflexivity. }
  assert (Hin : forall c, c ∈ requests project ->
            c = Api.GetDescriptors project \/ c = Api.GetCorrelation project
            \/ c = Api.GetShifts project).
  { intros c Hc. unfold requests in Hc.
    repeat (apply elem_of_cons in Hc as [Hc|Hc]; [auto|]).
    apply elem_of_nil in Hc. contradiction. }
  cbv zeta. unfold load. simpl.
  destruct (settle (Api.GetDescriptors project)) as [desc|e1] eqn:H1; simpl.
  - destruct (settle (Api.GetCorrelation project)) as [corr|e2] eqn:H2; simpl.
    + destruct (settle (Api.GetShifts project)) as [sh|e3] eqn:H3; simpl.
      * unfold view, item. simpl. split; [|split].
        -- intros c e Hc He. destruct (Hin c Hc) as [-> | [-> | ->]]; congruence.
        -- intros d c' s' [= <-] _ _. destruct (truthy desc); reflexivity.
        -- destruct (truthy desc); discriminate.
      * rewrite Hfailed. split; [|split; [|discriminate]].
        -- intros _ _ _ _. exists (Api.GetShifts project), e3.
           split; [unfold requests; set_solver|]. split; [exact H3|reflexivity].
        -- intros d c' s' _ _ [=].
    + rewrite Hfailed. split; [|split; [|discriminate]].
      * intros _ _ _ _. exists (Api.GetCorrelation project), e2.
        split; [unfold requests; set_solver|]. split; [exact H2|reflexivity].
      * intros d c' s' _ [=].
  - rewrite Hfailed. split; [|split; [|discriminate]].
    + intros _ _ _ _. exists (Api.GetDescriptors project), e1.
      split; [unfold requests; set_solver|]. split; [exact H1|reflexivity].
    + intros d c' s' [=].
Qed.

(** The shifts request alone fails: the error page, not the dashboard. *)
Example one_failure_hides_the_dashboard :
  view (load (fun c => match c with
                       | Api.GetShifts _ => Rejected (mkError "no shifts")
                       | _ => Fulfilled (VObj [])
                       end) "demo" initial)
  = ErrorView "no shifts".
Proof. reflexivity. Qed.

End DescriptorDashboardLoadFacts.

(** ** The analysis buttons *)

Module MLInsightsFacts.
Import Js Api ApiFacts MLInsights.
Local Open Scope js_scope.

(** The call behind a button. *)
Definition call_of (project : string) (button : Button) : ApiCall :=
  match button with
  | SymRegButton => RunSymbolicRegression project
  | GpButton => RunGP project
  | SuggestButton => SuggestNext project
  | ImportanceButton => FeatureImportance project
  end.

(** What a settled analysis leaves in its slot. *)
Definition shown_result (o : Outcome value) : value :=
  match o with
  | Fulfilled result => result
  | Rejected err => VObj [("error", VStr (message err))]
  end.

Definition set_slot (button : Button) (r : value) (st : State) : State :=
  match button with
  | SymRegButton => mkState r (gp st) (suggestions st) (importance st) (loading st)
  | GpButton => mkState (symReg st) r (suggestions st) (importance st) (loading st)
  | SuggestButton => mkState (symReg st) (gp st) r (importance st) (loading st)
  | ImportanceButton => mkState (symReg st) (gp st) (suggestions st) r (loading st)
  end.

Lemma onClick_run (project : string) (button : Button)
  (net : Network) (st : State) (b : Browser) :
  let call := perform (call_of project button) net b in
  onClick project button net (st, b)
  = (Fulfilled tt,
     (set_slot button (shown_result call.1)
        (mkState (symReg st) (gp st) (suggestions st) (importance st)
           (<[key_of button := false]> (<[key_of button := true]> (loading st)))),
      call.2)).
Proof.
  intros call. subst call.
  destruct button; cbn [onClick call_of perform key_of]; unfold runAnalysis;
    match goal with |- context [try_catch (bind (on_snd (?f project)) _)] =>
      set (fn := f) end;
    run_prog; destruct (fn project net b) as [[result|err] b']; reflexivity.
Qed.

(** X24.  A click on one of the four analysis buttons never throws and
    sends one POST without a body to that analysis's endpoint of the
    project.  Afterwards the button's slot holds the answer or, if the
    call failed, the object with the error message as [error]; the other
    three slots are as they were; the button's loading flag is false and
    the flags of the other buttons are as they were. *)
Theorem analysis_fills_its_own_slot_only (project : string) (button : Button)
  (net : Network) (st : State) (b : Browser) :
  let done := onClick project button net (st, b) in
  let call := perform (call_of project button) net b in
  done.1 = Fulfilled tt /\
  done.2.2 = call.2 /\
  (exists req,
     sent done.2.2 = sent b ++ [req] /\
     req_method req = Some "POST"%string /\ req_body req = None) /\
  slot button done.2.1 = shown_result call.1 /\
  (forall other, other <> button -> slot other done.2.1 = slot other st) /\
  disabled button done.2.1 = false /\
  (forall other, other <> button -> disabled other done.2.1 = disabled other st).
Proof.
  intros done call. subst done call. rewrite onClick_run. simpl.
  split; [reflexivity|]. split; [reflexivity|]. split; [|split; [|split; [|split]]].
  - destruct button; cbn [call_of perform];
      unfold runSymbolicRegression, runGP, suggestNext, featureImportance;
      rewrite fetchJson_run by reflexivity; simpl; eauto.
  - destruct button; reflexivity.
  - intros other Hother. destruct button, other; try reflexivity; contradiction.
  - unfold disabled. destruct button; simpl; rewrite lookup_insert_eq; reflexivity.
  - intros other Hother. unfold disabled.
    assert (Hkey : key_of button <> key_of other).
    { destruct button, other; simpl; try discriminate; contradiction. }
    destruct button; simpl in *; rewrite !lookup_insert_ne by exact Hkey; reflexivity.
Qed.

End MLInsightsFacts.

(** ** Coverage and T50 *)

Module ThermoEngineFacts.
Import ThermoEngine.
Local Open Scope R_scope.

Lemma div_le_of_le_mult (a b c : R) : 0 < b -> a <= c * b -> a / b <= c.
Proof.
  intros Hb H. apply (Rmult_le_reg_r b); [exact Hb|].
  unfold Rdiv. rewrite Rmult_assoc, Rinv_l; lra.
Qed.

Lemma le_div_of_mult_le (a b c : R) : 0 < b -> c * b <= a -> c <= a / b.
Proof.
  intros Hb H. apply (Rmult_le_reg_r b); [exact Hb|].
  unfold Rdiv. rewrite Rmult_assoc, Rinv_l; lra.
Qed.

Section Langmuir.

Variable Rgas : R.
Variable sys : IsothermParameters.
Hypothesis K0_pos : 0 < K0 sys.

Lemma K_pos (T : R) : 0 < K Rgas sys T.
Proof. unfold K. apply Rmult_lt_0_compat; [exact K0_pos|apply exp_pos]. Qed.

(** The Langmuir form in the equilibrium constant alone. *)
Definition langmuir (k P : R) : R := k * P / (1 + k * P).

Lemma langmuir_bounds (k P : R) : 0 <= k -> 0 <= P -> 0 <= langmuir k P <= 1.
Proof.
  intros Hk HP. unfold langmuir.
  assert (HkP : 0 <= k * P) by (apply Rmult_le_pos; assumption).
  split.
  - apply le_div_of_mult_le; lra.
  - apply div_le_of_le_mult; lra.
Qed.

(** The form is monotone in the product [k * P]. *)
Lemma langmuir_mono (k1 P1 k2 P2 : R) :
  0 <= k1 * P1 <= k2 * P2 -> langmuir k1 P1 <= langmuir k2 P2.
Proof.
  intros [H1 H2]. unfold langmuir.
  apply div_le_of_le_mult; [lra|].
  replace (k2 * P2 / (1 + k2 * P2) * (1 + k1 * P1))
    with ((k2 * P2 * (1 + k1 * P1)) / (1 + k2 * P2)) by (field; lra).
  apply le_div_of_mult_le; [lra|]. nra.
Qed.

End Langmuir.

(** C1.  For a positive prefactor, every temperature above absolute zero
    and every pressure that is not negative, the coverage lies in [0, 1],
    and at a fixed temperature it does not decrease as the pressure
    grows. *)
Theorem coverage_bounded_and_monotone_in_pressure
  (Rgas : R) (sys : IsothermParameters) (T P1 P2 : R) :
  0 < K0 sys -> 0 < T -> 0 <= P1 -> P1 <= P2 ->
  0 <= coverage Rgas sys T P1 <= 1 /\
  0 <= coverage Rgas sys T P2 <= 1 /\
  coverage Rgas sys T P1 <= coverage Rgas sys T P2.
Proof.
  intros HK _ HP1 HP12.
  pose proof (K_pos Rgas sys HK T) as Hk.
  change (coverage Rgas sys T P1) with (langmuir (K Rgas sys T) P1).
  change (coverage Rgas sys T P2) with (langmuir (K Rgas sys T) P2).
  pose proof (langmuir_bounds (K Rgas sys T) P1) as B1.
  pose proof (langmuir_bounds (K Rgas sys T) P2) as B2.
  split; [lra|]. split; [lra|].
  apply langmuir_mono. split; [apply Rmult_le_pos; lra|].
  apply Rmult_le_compat_l; lra.
Qed.

(** *** Loops that end *)

Lemma in_the_end_cut {A : Type} (cut : nat -> option A) (a : A) :
  in_the_end cut = Some a -> exists n, cut n = Some a.
Proof.
  unfold in_the_end. destruct (sig_forall_dec _ _) as [[n Hn]|Hnone]; [|discriminate].
  simpl. eauto.
Qed.

(** If a cut that has a value keeps it however much later the run is
    cut, that value is what the loop yields in the end. *)
Lemma in_the_end_stable {A : Type} (cut : nat -> option A) (n : nat) (a : A) :
  (forall n m a, cut n = Some a -> (n <= m)%nat -> cut m = Some a) ->
  cut n = Some a ->
  in_the_end cut = Some a.
Proof.
  intros Hstable Hn. unfold in_the_end.
  destruct (sig_forall_dec _ _) as [[k Hk]|Hnone]; simpl.
  - destruct (cut k) as [a'|] eqn:Hcut; [|contradiction].
    pose proof (Hstable k (Nat.max k n) a' Hcut (Nat.le_max_l k n)) as H1.
    pose proof (Hstable n (Nat.max k n) a Hn (Nat.le_max_r k n)) as H2.
    congruence.
  - rewrite Hnone in Hn. discriminate.
Qed.

(** *** Bisection of a continuous function *)

Section Bisection.

Variable f : R -> R.

(** A bracket on whose ends [f] changes sign holds a root. *)
Lemma bracket_has_root (a b : R) :
  a <= b ->
  (forall x, a <= x <= b -> continuity_pt f x) ->
  f a * f b <= 0 ->
  exists r, a <= r <= b /\ f r = 0.
Proof.
  intros Hab Hcont Hsign.
  destruct (Req_dec (f a) 0) as [Ha|Ha]; [exists a; split; [lra|exact Ha]|].
  destruct (Req_dec (f b) 0) as [Hb|Hb]; [exists b; split; [lra|exact Hb]|].
  assert (Hlt : a < b).
  { destruct Hab as [Hlt|Heq]; [exact Hlt|]. subst b. exfalso.
    assert (0 < f a * f a) by nra. lra. }
  destruct (Rlt_le_dec (f a) 0) as [Hneg|Hpos].
  - assert (Hfb : 0 < f b) by nra.
    destruct (IVT_interv f a b Hcont Hlt Hneg Hfb) as (r & Hr & Hroot).
    exists r. auto.
  - assert (Hfa : 0 < f a) by lra.
    assert (Hfb : f b < 0) by nra.
    assert (Hcont' : forall x, a <= x <= b -> continuity_pt (- f)%F x).
    { intros x Hx. apply continuity_pt_opp, Hcont, Hx. }
    destruct (IVT_interv (- f)%F a b Hcont' Hlt) as (r & Hr & Hroot).
    + unfold opp_fct. lra.
    + unfold opp_fct. lra.
    + exists r. split; [exact Hr|]. unfold opp_fct in Hroot. lra.
Qed.

(** The bracket [bisect] ends on: inside the first one, [2^n] times
    narrower, and still with a sign change on its ends. *)
Lemma bisect_bracket (n : nat) :
  forall a b : R,
  a <= b -> f a * f b <= 0 ->
  exists a' b',
    a <= a' /\ a' <= b' /\ b' <= b /\
    b' - a' = (b - a) / 2 ^ n /\
    f a' * f b' <= 0 /\
    bisect f n a b = (a' + b') / 2.
Proof.
  induction n as [|n IH]; intros a b Hab Hsign.
  - exists a, b. simpl. repeat split; try lra.
  - simpl. assert (H2n : 0 < 2 ^ n) by (apply pow_lt; lra).
    destruct (Rle_dec (f a * f ((a + b) / 2)) 0) as [Hleft|Hright].
    + destruct (IH a ((a + b) / 2)) as (a' & b' & H1 & H2 & H3 & Hw & Hs & Hres);
        [lra|exact Hleft|].
      exists a', b'. repeat split; try lra; try assumption.
      rewrite Hw. field. lra.
    + assert (Hmid : f ((a + b) / 2) * f b <= 0).
      { destruct (Rlt_le_dec 0 (f a)); nra. }
      destruct (IH ((a + b) / 2) b) as (a' & b' & H1 & H2 & H3 & Hw & Hs & Hres);
        [lra|exact Hmid|].
      exists a', b'. repeat split; try lra; try assumption.
      rewrite Hw. field. lra.
Qed.

(** Deep enough, the midpoint of the bracket has as small a residual as
    wanted. *)
Lemma bisect_converges (lo hi : R) :
  lo <= hi ->
  (forall x, lo <= x <= hi -> continuity_pt f x) ->
  f lo * f hi <= 0 ->
  forall eps : R, 0 < eps ->
  exists N : nat, forall n : nat, (N <= n)%nat ->
    lo <= bisect f n lo hi <= hi /\ Rabs (f (bisect f n lo hi)) < eps.
Proof.
  intros Hle Hcont Hsign eps Heps.
  destruct (Heine f (fun c => lo <= c <= hi) (compact_P3 lo hi) Hcont (mkposreal eps Heps))
    as (delta & Hdelta).
  destruct (cv_pow_half (hi - lo) delta (cond_pos delta)) as (N & HN).
  exists N. intros n Hn.
  destruct (bisect_bracket n lo hi Hle Hsign) as (a & b & H1 & H2 & H3 & Hw & Hs & ->).
  assert (Hsub : forall x, a <= x <= b -> continuity_pt f x).
  { intros x Hx. apply Hcont. lra. }
  destruct (bracket_has_root a b H2 Hsub Hs) as (r & Hr & Hroot).
  split; [lra|].
  replace (f ((a + b) / 2)) with (f ((a + b) / 2) - f r) by (rewrite Hroot; lra).
  apply Hdelta; [lra|lra|].
  specialize (HN n Hn). unfold Rdist in HN. rewrite Rminus_0_r in HN.
  rewrite <- Hw in HN.
  apply Rle_lt_trans with (2 := HN).
  rewrite (Rabs_pos_eq (b - a)) by lra.
  apply Rabs_le. lra.
Qed.

(** A run that returns has stopped at the midpoint of one of the
    brackets, with a residual below the tolerance. *)
Lemma bisect_until_stops (eps : R) (n : nat) :
  forall (lo hi T : R),
  bisect_until f eps n lo hi = Some T ->
  exists k : nat, (k <= n)%nat /\ T = bisect f k lo hi /\ Rabs (f T) < eps.
Proof.
  induction n as [|n IH]; intros lo hi T; simpl.
  - destruct (Rlt_dec _ eps) as [Hin|_]; [|discriminate].
    intros [= <-]. exists 0%nat. simpl. auto.
  - destruct (Rlt_dec _ eps) as [Hin|_].
    + intros [= <-]. exists 0%nat. simpl. split; [lia|auto].
    + destruct (Rle_dec (f lo * f ((lo + hi) / 2)) 0) as [Hleft|Hright] eqn:Hside;
        intros Hrun; destruct (IH _ _ _ Hrun) as (k & Hk & Heq & Hres);
        exists (S k); simpl; rewrite Hside; (split; [lia|auto]).
Qed.

(** Once a bracket's midpoint is within the tolerance, the run returns. *)
Lemma bisect_until_returns (eps : R) (k : nat) :
  forall (lo hi : R) (n : nat),
  Rabs (f (bisect f k lo hi)) < eps -> (k <= n)%nat ->
  exists T, bisect_until f eps n lo hi = Some T.
Proof.
  induction k as [|k IH]; intros lo hi n Hres Hn.
  - simpl in Hres. destruct n; simpl; destruct (Rlt_dec _ eps); eauto; contradiction.
  - destruct n as [|n]; [lia|]. simpl in *.
    destruct (Rlt_dec _ eps); [eauto|].
    destruct (Rle_dec (f lo * f ((lo + hi) / 2)) 0); apply IH; auto; lia.
Qed.

(** A run that has returned returns the same however much later it is
    cut. *)
Lemma bisect_until_stable (eps : R) (n : nat) :
  forall (lo hi T : R) (m : nat),
  bisect_until f eps n lo hi = Some T -> (n <= m)%nat ->
  bisect_until f eps m lo hi = Some T.
Proof.
  induction n as [|n IH]; intros lo hi T m; simpl.
  - destruct (Rlt_dec _ eps) as [Hin|Hout] eqn:Htest; [|discriminate].
    intros [= <-] _. destruct m; simpl; rewrite Htest; reflexivity.
  - destruct (Rlt_dec _ eps) as [Hin|Hout] eqn:Htest.
    + intros [= <-] _. destruct m; simpl; rewrite Htest; reflexivity.
    + intros Hrun Hm. destruct m as [|m]; [lia|]. simpl. rewrite Htest.
      destruct (Rle_dec (f lo * f ((lo + hi) / 2)) 0); apply (IH _ _ _ _ Hrun); lia.
Qed.

End Bisection.

(** *** The coverage as a function of the temperature *)

Section Temperature.

Variable Rgas : R.
Variable sys : IsothermParameters.
Hypothesis Rgas_pos : 0 < Rgas.
Hypothesis K0_pos : 0 < K0 sys.

Lemma residual_continuous (P T : R) :
  0 <= P -> 0 < T ->
  continuity_pt (fun T => coverage Rgas sys T P - 1 / 2) T.
Proof.
  intros HP HT. unfold coverage, K.
  apply derivable_continuous_pt. reg.
  - apply Rgt_not_eq. apply Rmult_lt_0_compat; assumption.
  - pose proof (K_pos Rgas sys K0_pos T) as Hk. unfold K in Hk.
    apply Rgt_not_eq. nra.
Qed.

(** The exponent of the van't Hoff factor moves with the temperature in
    the direction of the sign of the enthalpy. *)
Lemma exponent_mono (T1 T2 : R) :
  0 < T1 -> T1 <= T2 ->
  (0 <= dH sys -> - dH sys / (Rgas * T1) <= - dH sys / (Rgas * T2)) /\
  (dH sys <= 0 -> - dH sys / (Rgas * T2) <= - dH sys / (Rgas * T1)).
Proof.
  intros H1 H12.
  assert (Hinv : / (Rgas * T2) <= / (Rgas * T1)).
  { apply Rinv_le_contravar; [apply Rmult_lt_0_compat; lra|].
    apply Rmult_le_compat_l; lra. }
  unfold Rdiv. split; intros Hsign; nra.
Qed.

Lemma exp_mono (x y : R) : x <= y -> exp x <= exp y.
Proof.
  intros [Hlt | ->]; [left; apply exp_increasing, Hlt | right; reflexivity].
Qed.

(** The coverage is monotone in the temperature, "per the sign of dH". *)
Lemma coverage_mono_in_temperature (P T1 T2 : R) :
  0 <= P -> 0 < T1 -> T1 <= T2 ->
  (0 <= dH sys -> coverage Rgas sys T1 P <= coverage Rgas sys T2 P) /\
  (dH sys <= 0 -> coverage Rgas sys T2 P <= coverage Rgas sys T1 P).
Proof.
  intros HP H1 H12.
  destruct (exponent_mono T1 T2 H1 H12) as [Hup Hdown].
  pose proof (K_pos Rgas sys K0_pos T1) as Hk1.
  pose proof (K_pos Rgas sys K0_pos T2) as Hk2.
  split; intros Hsign.
  - apply langmuir_mono. split; [apply Rmult_le_pos; lra|].
    apply Rmult_le_compat_r; [exact HP|]. unfold K.
    apply Rmult_le_compat_l; [lra|]. apply exp_mono, Hup, Hsign.
  - apply langmuir_mono. split; [apply Rmult_le_pos; lra|].
    apply Rmult_le_compat_r; [exact HP|]. unfold K.
    apply Rmult_le_compat_l; [lra|]. apply exp_mono, Hdown, Hsign.
Qed.

(** A crossing inside the interval shows on its ends. *)
Lemma crossing_is_bracketed (T_lo T_hi P Tc : R) :
  0 <= P -> 0 < T_lo ->
  T_lo <= Tc <= T_hi ->
  coverage Rgas sys Tc P = 1 / 2 ->
  (coverage Rgas sys T_lo P - 1 / 2) * (coverage Rgas sys T_hi P - 1 / 2) <= 0.
Proof.
  intros HP Hlo [H1 H2] Hhalf.
  destruct (coverage_mono_in_temperature P T_lo Tc HP Hlo H1) as [Hup1 Hdown1].
  destruct (coverage_mono_in_temperature P Tc T_hi HP) as [Hup2 Hdown2]; [lra|lra|].
  destruct (Rle_dec 0 (dH sys)) as [Hpos|Hneg].
  - specialize (Hup1 Hpos). specialize (Hup2 Hpos). nra.
  - assert (Hle : dH sys <= 0) by lra.
    specialize (Hdown1 Hle). specialize (Hdown2 Hle). nra.
Qed.

End Temperature.

(** C2.  With [T_lo .. T_hi] the search interval (above absolute zero)
    and [eps] the tolerance, at every pressure [P]: if the coverage equals
    0.5 somewhere in the interval, [t50] returns a temperature of the
    interval whose coverage is within [eps] of 0.5 (the loop ends: every
    run cut late enough has returned that temperature); if the coverage
    equals 0.5 nowhere in the interval, [t50] fails with
    [RootNotBracketed]; and whatever temperature [t50] returns is in the
    interval and within the tolerance, so it never returns a wrong one.
    In every case [t50] returns. *)
Theorem t50_within_tolerance_or_not_bracketed
  (Rgas : R) (sys : IsothermParameters) (T_lo T_hi eps P : R) :
  0 < Rgas -> 0 < K0 sys -> 0 < T_lo -> T_lo <= T_hi -> 0 < eps -> 0 <= P ->
  ((exists Tc, T_lo <= Tc <= T_hi /\ coverage Rgas sys Tc P = 1 / 2) ->
   exists T,
     t50 Rgas sys T_lo T_hi eps P = Some (T50 T) /\
     T_lo <= T <= T_hi /\
     Rabs (coverage Rgas sys T P - 1 / 2) < eps /\
     exists N : nat, forall n : nat, (N <= n)%nat ->
       bisect_until (fun T => coverage Rgas sys T P - 1 / 2) eps n T_lo T_hi = Some T) /\
  ((forall Tc, T_lo <= Tc <= T_hi -> coverage Rgas sys Tc P <> 1 / 2) ->
   t50 Rgas sys T_lo T_hi eps P = Some RootNotBracketed) /\
  (forall T,
     t50 Rgas sys T_lo T_hi eps P = Some (T50 T) ->
     T_lo <= T <= T_hi /\ Rabs (coverage Rgas sys T P - 1 / 2) < eps) /\
  t50 Rgas sys T_lo T_hi eps P <> None.
Proof.
  intros HR HK Hlo Hle Heps HP.
  set (f := fun T => coverage Rgas sys T P - 1 / 2).
  assert (Hcont : forall x, T_lo <= x <= T_hi -> continuity_pt f x).
  { intros x Hx. apply residual_continuous; try assumption. lra. }
  assert (Hreturned : forall T,
            t50 Rgas sys T_lo T_hi eps P = Some (T50 T) ->
            T_lo <= T <= T_hi /\ Rabs (f T) < eps).
  { intros T. unfold t50. cbv zeta. fold f.
    destruct (Rlt_dec 0 _) as [_|Hsign]; [discriminate|].
    change (~ 0 < f T_lo * f T_hi) in Hsign.
    destruct (in_the_end _) as [T'|] eqn:Hend; [|discriminate].
    intros [= <-]. apply in_the_end_cut in Hend as (n & Hn).
    apply bisect_until_stops in Hn as (k & _ & -> & Hres). split; [|exact Hres].
    destruct (bisect_bracket f k T_lo T_hi Hle) as (a & b & H1 & H2 & H3 & _ & _ & ->); lra. }
  assert (Hbracketed : f T_lo * f T_hi <= 0 ->
            exists T,
              t50 Rgas sys T_lo T_hi eps P = Some (T50 T) /\
              exists N : nat, forall n : nat, (N <= n)%nat ->
                bisect_until f eps n T_lo T_hi = Some T).
  { intros Hsign.
    destruct (bisect_converges f T_lo T_hi Hle Hcont Hsign eps Heps) as (N & HN).
    destruct (HN N (Nat.le_refl N)) as [_ Hres].
    destruct (bisect_until_returns f eps N T_lo T_hi N Hres (Nat.le_refl N)) as (T & HT).
    exists T. split.
    - unfold t50. cbv zeta. fold f. destruct (Rlt_dec 0 _) as [Hbad|_];
        [change (0 < f T_lo * f T_hi) in Hbad; lra|].
      rewrite (in_the_end_stable _ N T); [reflexivity| |exact HT].
      intros n m a Hrun Hnm. apply (bisect_until_stable f eps n _ _ _ m Hrun Hnm).
    - exists N. intros n Hn. apply (bisect_until_stable f eps N _ _ _ n HT Hn). }
  split; [|split; [|split; [exact Hreturned|]]].
  - intros (Tc & HTc & Hhalf).
    pose proof (crossing_is_bracketed Rgas sys HR HK T_lo T_hi P Tc HP Hlo HTc Hhalf)
      as Hsign.
    destruct (Hbracketed Hsign) as (T & Ht50 & Hruns).
    exists T. destruct (Hreturned T Ht50) as [Hin Hres]. auto.
  - intros Hnone. unfold t50. cbv zeta. fold f.
    destruct (Rlt_dec 0 _) as [_|Hsign]; [reflexivity|]. exfalso.
    change (~ 0 < f T_lo * f T_hi) in Hsign.
    destruct (bracket_has_root f T_lo T_hi Hle Hcont) as (r & Hr & Hroot); [lra|].
    apply (Hnone r Hr). unfold f in Hroot. lra.
  - destruct (Rlt_dec 0 (f T_lo * f T_hi)) as [Hpos|Hsign].
    + unfold t50. cbv zeta. destruct (Rlt_dec 0 _) as [_|Hno]; [discriminate|].
      exfalso. apply Hno. exact Hpos.
    + destruct Hbracketed as (T & -> & _); [lra|discriminate].
Qed.

(** *** A system with a crossing at T = 1 *)

Definition demo_sys : IsothermParameters := mkIsotherm 2 (ln 2).

Lemma demo_crossing : coverage 1 demo_sys 1 1 = 1 / 2.
Proof.
  unfold coverage, K, demo_sys. simpl.
  replace (- ln 2 / (1 * 1)) with (- ln 2) by field.
  rewrite exp_Ropp, exp_ln by lra. field.
Qed.

Lemma coverage_witness :
  0 <= coverage 1 demo_sys 300 1 <= 1 /\
  0 <= coverage 1 demo_sys 300 2 <= 1 /\
  coverage 1 demo_sys 300 1 <= coverage 1 demo_sys 300 2.
Proof.
  apply coverage_bounded_and_monotone_in_pressure; simpl; lra.
Defined.

Lemma t50_witness :
  (exists T,
     t50 1 demo_sys (1 / 2) 2 (1 / 1000) 1 = Some (T50 T) /\
     1 / 2 <= T <= 2 /\
     Rabs (coverage 1 demo_sys T 1 - 1 / 2) < 1 / 1000) /\
  t50 1 demo_sys (1 / 2) 2 (1 / 1000) 0 = Some RootNotBracketed.
Proof.
  split.
  - destruct (proj1 (t50_within_tolerance_or_not_bracketed 1 demo_sys (1 / 2) 2 (1 / 1000) 1
                       ltac:(lra) ltac:(simpl; lra) ltac:(lra) ltac:(lra) ltac:(lra)
                       ltac:(lra)))
      as (T & Ht50 & Hin & Hres & _).
    + exists 1. split; [lra|exact demo_crossing].
    + exists T. split; [exact Ht50|]. split; assumption.
  - apply (proj1 (proj2 (t50_within_tolerance_or_not_bracketed 1 demo_sys (1 / 2) 2
                           (1 / 1000) 0
                           ltac:(lra) ltac:(simpl; lra) ltac:(lra) ltac:(lra) ltac:(lra)
                           ltac:(lra)))).
    intros Tc _. unfold coverage. rewrite Rmult_0_r. unfold Rdiv. rewrite Rmult_0_l. lra.
Defined.

End ThermoEngineFacts.
